(** * ewfverify: the command line driver of the EWF verification tool

    A shallow embedding of [src/ewftools/ewfverify.c].  The file holds
    two globals, the signal handler and [main].  Everything [main] calls
    lives in libraries that are not among the sources (libsystem,
    libcstring, liberror, libewf and the tool's verification_handle and
    log_handle modules), so each such call is answered by an environment:
    the run of [main] is a function of the answers it gets, and it leaves
    a trace of what it printed and called. *)

From Stdlib Require Import ZArith List String Ascii Bool Lia.
Import ListNotations.

Local Open Scope string_scope.
Local Open Scope list_scope.
Local Open Scope Z_scope.

Infix "+++" := String.append (at level 60, right associativity).
Arguments String.append : simpl never.
Arguments ascii_dec : simpl never.

(** ** C strings and the constants of <stdlib.h> *)

Definition nl : string := String (ascii_of_nat 10) EmptyString.
Definition tab : string := String (ascii_of_nat 9) EmptyString.

Definition EXIT_SUCCESS : Z := 0.
Definition EXIT_FAILURE : Z := 1.

Definition char_code (c : ascii) : Z := Z.of_N (N_of_ascii c).

(** The length-limited comparison of the C library on NUL-terminated
    strings: at most [n] characters are compared, the end of a string
    counts as the character 0, and the result is 0 exactly when no
    difference was met. *)
Fixpoint strncmp (s1 s2 : string) (n : nat) : Z :=
  match n with
  | O => 0
  | S n' =>
      match s1, s2 with
      | EmptyString, EmptyString => 0
      | EmptyString, String c2 _ => 0 - char_code c2
      | String c1 _, EmptyString => char_code c1
      | String c1 r1, String c2 r2 =>
          if Ascii.eqb c1 c2
          then strncmp r1 r2 n'
          else char_code c1 - char_code c2
      end
  end.

(** ** What the program can observe and do *)

Inductive stream := stdout | stderr.

(** External functions that return a status.  The boolean of the
    releasing functions tells whether [&error] (true) or [NULL] (false)
    was passed for the error argument. *)
Inductive call :=
| libsystem_initialize
| libsystem_glob_initialize
| libsystem_glob_resolve (patterns : list string)
| libsystem_glob_free (with_error : bool)
| libsystem_signal_attach
| libsystem_signal_detach
| libsystem_file_io_close (descriptor : Z)
| log_handle_initialize
| log_handle_open (filename : string)
| log_handle_close (with_error : bool)
| log_handle_free (with_error : bool)
| verification_handle_initialize (calculate_md5 calculate_sha1 calculate_sha256 : Z)
| verification_handle_open_input (filenames : list string)
| verification_handle_set_header_codepage (codepage : string)
| verification_handle_set_format (format : string)
| verification_handle_set_zero_chunk_on_error (zero_chunk_on_error : Z)
| verification_handle_set_process_buffer_size (size : string)
| verification_handle_verify_single_files (print_status_information : Z) (log : bool)
| verification_handle_verify_input (print_status_information : Z) (log : bool)
| verification_handle_close (with_error : bool)
| verification_handle_free (with_error : bool)
| verification_handle_signal_abort.

(** External procedures without a result. *)
Inductive proc :=
| libsystem_notify_set_stream
| libsystem_notify_set_verbose (verbose : Z)
| libewf_notify_set_verbose (verbose : Z)
| libewf_notify_set_stream
| ewfoutput_version_fprint (program : string)
| ewfoutput_copyright_fprint
| libsystem_notify_printf (text : string)
| libsystem_notify_print_error_backtrace
| liberror_error_free.

Inductive event :=
| Fprintf (st : stream) (text : string)
| Called (c : call) (ret : Z)
| Did (p : proc).

(** The two fields of the verification handle that [main] reads. *)
Record verification_handle := mk_handle {
  input_format : Z;
  process_buffer_size : Z
}.

(** One return of [libsystem_getopt]: the option character, [optarg],
    and [argv[ optind - 1 ]]. *)
Record getopt_result := mk_getopt {
  opt : ascii;
  optarg : string;
  last_arg : string
}.

Record reply := mk_reply {
  ret : Z;          (* the value returned *)
  err : bool        (* an error object was stored through the error argument *)
}.

(** The environment of one run: the build configuration, the constants
    and macros of headers that are not among the sources, the command
    line as [libsystem_getopt] hands it out, and the behaviour of the
    external functions. *)
Record env := mk_env {
  LIBSYSTEM_HAVE_GLOB : bool;
  SSIZE_MAX : Z;
  PROCESS_STATUS_COMPLETED : Z;
  PROCESS_STATUS_FAILED : Z;
  VERIFICATION_HANDLE_INPUT_FORMAT_FILES : Z;
  libcstring_system_string_compare : string -> string -> nat -> Z;
  getopt : list getopt_result;      (* the returns of libsystem_getopt before -1 *)
  remaining : list string;          (* argv[ optind .. argc - 1 ] after the loop *)
  glob_result : list string;        (* glob->result *)
  new_handle : verification_handle; (* the handle as verification_handle_initialize leaves it *)
  extern : call -> reply;
  on_handle : call -> verification_handle -> verification_handle;
  signal_during : call -> bool      (* a signal is delivered while the call runs *)
}.

(** ** Program state *)

(** The locals of [main] that the option loop assigns. *)
Record options := mk_options {
  log_filename : option string;
  option_format : option string;
  option_header_codepage : option string;
  option_process_buffer_size : option string;
  calculate_md5 : Z;
  calculate_sha1 : Z;
  calculate_sha256 : Z;
  print_status_information : Z;
  zero_chunk_on_error : Z;
  verbose : Z
}.

Record state := mk_state {
  ewfverify_verification_handle : option verification_handle; (* None is NULL *)
  ewfverify_abort : Z;
  error : bool;          (* error != NULL *)
  glob : bool;           (* glob != NULL *)
  log_handle : bool;     (* log_handle != NULL *)
  opts : options;
  argv_filenames : list string;
  result : Z;
  status : Z;
  trace : list event
}.

Definition default_options : options :=
  mk_options None None None None 1 0 0 1 0 0.

Definition initial_state : state :=
  mk_state None 0 false false false default_options [] 0 0 [].

Definition set_handle v (s : state) : state :=
  mk_state v (ewfverify_abort s) (error s) (glob s) (log_handle s) (opts s)
           (argv_filenames s) (result s) (status s) (trace s).
Definition set_abort v (s : state) : state :=
  mk_state (ewfverify_verification_handle s) v (error s) (glob s) (log_handle s) (opts s)
           (argv_filenames s) (result s) (status s) (trace s).
Definition set_error v (s : state) : state :=
  mk_state (ewfverify_verification_handle s) (ewfverify_abort s) v (glob s) (log_handle s) (opts s)
           (argv_filenames s) (result s) (status s) (trace s).
Definition set_glob v (s : state) : state :=
  mk_state (ewfverify_verification_handle s) (ewfverify_abort s) (error s) v (log_handle s) (opts s)
           (argv_filenames s) (result s) (status s) (trace s).
Definition set_log_handle v (s : state) : state :=
  mk_state (ewfverify_verification_handle s) (ewfverify_abort s) (error s) (glob s) v (opts s)
           (argv_filenames s) (result s) (status s) (trace s).
Definition set_opts v (s : state) : state :=
  mk_state (ewfverify_verification_handle s) (ewfverify_abort s) (error s) (glob s) (log_handle s) v
           (argv_filenames s) (result s) (status s) (trace s).
Definition set_argv_filenames v (s : state) : state :=
  mk_state (ewfverify_verification_handle s) (ewfverify_abort s) (error s) (glob s) (log_handle s) (opts s)
           v (result s) (status s) (trace s).
Definition set_result v (s : state) : state :=
  mk_state (ewfverify_verification_handle s) (ewfverify_abort s) (error s) (glob s) (log_handle s) (opts s)
           (argv_filenames s) v (status s) (trace s).
Definition set_status v (s : state) : state :=
  mk_state (ewfverify_verification_handle s) (ewfverify_abort s) (error s) (glob s) (log_handle s) (opts s)
           (argv_filenames s) (result s) v (trace s).
Definition log_event ev (s : state) : state :=
  mk_state (ewfverify_verification_handle s) (ewfverify_abort s) (error s) (glob s) (log_handle s) (opts s)
           (argv_filenames s) (result s) (status s) (trace s ++ [ev]).

Definition with_log_filename v (o : options) : options :=
  mk_options v (option_format o) (option_header_codepage o) (option_process_buffer_size o)
             (calculate_md5 o) (calculate_sha1 o) (calculate_sha256 o)
             (print_status_information o) (zero_chunk_on_error o) (verbose o).
Definition with_option_format v (o : options) : options :=
  mk_options (log_filename o) v (option_header_codepage o) (option_process_buffer_size o)
             (calculate_md5 o) (calculate_sha1 o) (calculate_sha256 o)
             (print_status_information o) (zero_chunk_on_error o) (verbose o).
Definition with_option_header_codepage v (o : options) : options :=
  mk_options (log_filename o) (option_format o) v (option_process_buffer_size o)
             (calculate_md5 o) (calculate_sha1 o) (calculate_sha256 o)
             (print_status_information o) (zero_chunk_on_error o) (verbose o).
Definition with_option_process_buffer_size v (o : options) : options :=
  mk_options (log_filename o) (option_format o) (option_header_codepage o) v
             (calculate_md5 o) (calculate_sha1 o) (calculate_sha256 o)
             (print_status_information o) (zero_chunk_on_error o) (verbose o).
Definition with_calculate_sha1 v (o : options) : options :=
  mk_options (log_filename o) (option_format o) (option_header_codepage o) (option_process_buffer_size o)
             (calculate_md5 o) v (calculate_sha256 o)
             (print_status_information o) (zero_chunk_on_error o) (verbose o).
Definition with_calculate_sha256 v (o : options) : options :=
  mk_options (log_filename o) (option_format o) (option_header_codepage o) (option_process_buffer_size o)
             (calculate_md5 o) (calculate_sha1 o) v
             (print_status_information o) (zero_chunk_on_error o) (verbose o).
Definition with_print_status_information v (o : options) : options :=
  mk_options (log_filename o) (option_format o) (option_header_codepage o) (option_process_buffer_size o)
             (calculate_md5 o) (calculate_sha1 o) (calculate_sha256 o)
             v (zero_chunk_on_error o) (verbose o).
Definition with_zero_chunk_on_error v (o : options) : options :=
  mk_options (log_filename o) (option_format o) (option_header_codepage o) (option_process_buffer_size o)
             (calculate_md5 o) (calculate_sha1 o) (calculate_sha256 o)
             (print_status_information o) v (verbose o).
Definition with_verbose v (o : options) : options :=
  mk_options (log_filename o) (option_format o) (option_header_codepage o) (option_process_buffer_size o)
             (calculate_md5 o) (calculate_sha1 o) (calculate_sha256 o)
             (print_status_information o) (zero_chunk_on_error o) v.

(** ** Control flow: statements that may return or jump to a label *)

Inductive label := on_error | on_abort.

Inductive outcome (A : Type) :=
| Normal (a : A)
| Return (code : Z)
| Goto (l : label).
Arguments Normal {A} a.
Arguments Return {A} code.
Arguments Goto {A} l.

Definition M (A : Type) : Type := state -> outcome A * state.

Definition pure {A} (a : A) : M A := fun s => (Normal a, s).

Definition bind {A B} (m : M A) (k : A -> M B) : M B :=
  fun s =>
    match m s with
    | (Normal a, s1) => k a s1
    | (Return c, s1) => (Return c, s1)
    | (Goto l, s1) => (Goto l, s1)
    end.

Notation "x <- m ;; k" := (bind m (fun x => k))
  (at level 61, m at next level, right associativity).
Notation "m ;; k" := (bind m (fun _ => k))
  (at level 61, right associativity).

Definition return_ (code : Z) : M unit := fun s => (Return code, s).
Definition goto (l : label) : M unit := fun s => (Goto l, s).
Definition read {A} (f : state -> A) : M A := fun s => (Normal (f s), s).
Definition assign (f : state -> state) : M unit := fun s => (Normal tt, f s).
Definition skip : M unit := pure tt.

Definition neqb (a b : Z) : bool := negb (a =? b).
Infix "!=" := neqb (at level 70, no associativity) : Z_scope.

(** ** The program *)

Section Program.

Variable e : env.

(** The local [program] of [main] (line 140). *)
Definition program : string := "ewfverify".

(** [fprintf( stream, ... )] with the text it prints, and the call of an
    external procedure. *)
Definition fprintf (st : stream) (text : string) : M unit :=
  assign (log_event (Fprintf st text)).

Definition do (p : proc) : M unit :=
  assign (log_event (Did p)).

(** Whether the call hands [&error] of [main] to the callee.  The signal
    handler has an error variable of its own, and closing a descriptor
    takes none. *)
Definition passes_error (c : call) : bool :=
  match c with
  | libsystem_glob_free b | log_handle_close b | log_handle_free b
  | verification_handle_close b | verification_handle_free b => b
  | libsystem_file_io_close _ | verification_handle_signal_abort => false
  | _ => true
  end.

(** What a call does to the pointers it is given the address of, and to
    the handle it is given: an initialize function that returns 1 leaves
    a live object, a free function that returns 1 leaves NULL, and the
    other functions of the verification handle may rewrite its fields. *)
Definition pointer_effect (c : call) (r : Z) (s : state) : state :=
  match c with
  | libsystem_glob_initialize => if r =? 1 then set_glob true s else s
  | libsystem_glob_free _ => if r =? 1 then set_glob false s else s
  | log_handle_initialize => if r =? 1 then set_log_handle true s else s
  | log_handle_free _ => if r =? 1 then set_log_handle false s else s
  | verification_handle_initialize _ _ _ =>
      if r =? 1 then set_handle (Some (new_handle e)) s else s
  | verification_handle_free _ => if r =? 1 then set_handle None s else s
  | verification_handle_open_input _
  | verification_handle_set_header_codepage _
  | verification_handle_set_format _
  | verification_handle_set_zero_chunk_on_error _
  | verification_handle_set_process_buffer_size _
  | verification_handle_verify_single_files _ _
  | verification_handle_verify_input _ _
  | verification_handle_close _
  | verification_handle_signal_abort =>
      set_handle (option_map (on_handle e c) (ewfverify_verification_handle s)) s
  | _ => s
  end.

(** The call of an external function: the environment gives the result,
    the pointers and the error of [main] are updated, and the call enters
    the trace with its result. *)
Definition raw_call (c : call) : M Z :=
  fun s =>
    let r := extern e c in
    let s1 := pointer_effect c (ret r) s in
    let s2 := set_error (error s1 || (passes_error c && err r)) s1 in
    (Normal (ret r), log_event (Called c (ret r)) s2).

(** Signal handler for ewfverify (lines 86-121). *)
Definition ewfverify_signal_handler : M unit :=
  let function := "ewfverify_signal_handler" in
  assign (set_abort 1) ;;
  h <- read ewfverify_verification_handle ;;
  match h with
  | Some _ =>
      r <- raw_call verification_handle_signal_abort ;;
      if r != 1 then
        do (libsystem_notify_printf
              (function +++ ": unable to signal verification handle to abort." +++ nl)) ;;
        do libsystem_notify_print_error_backtrace ;;
        do liberror_error_free
      else skip
  | None => skip
  end ;;
  r <- raw_call (libsystem_file_io_close 0) ;;
  if r != 0 then
    do (libsystem_notify_printf (function +++ ": unable to close stdin." +++ nl))
  else skip.

(** An external call of [main]: a signal may be delivered while it runs,
    in which case the handler runs first.  The environment decides at
    which calls that happens; a signal between two calls counts with one
    of them.  Runs in which the handler is not yet attached, or detached
    already, are those whose environment delivers no signal there. *)
Definition tick (c : call) : M unit :=
  fun s => if signal_during e c
           then (Normal tt, snd (ewfverify_signal_handler s))
           else (Normal tt, s).

Definition extcall (c : call) : M Z :=
  tick c ;; raw_call c.

(** The texts of the successive [fprintf] calls of [usage_fprint]. *)
Definition usage_text : list string :=
  [ "Use ewfverify to verify data stored in the EWF format (Expert Witness" +++ nl +++
    "Compression Format)." +++ nl +++ nl;
    "Usage: ewfverify [ -A codepage ] [ -d digest_type ] [ -f format ]" +++ nl +++
    "                 [ -l log_filename ] [ -p process_buffer_size ]" +++ nl +++
    "                 [ -hqvVw ] ewf_files" +++ nl +++ nl;
    tab +++ "ewf_files: the first or the entire set of EWF segment files" +++ nl +++ nl;
    tab +++ "-A:        codepage of header section, options: ascii (default)," +++ nl +++
    tab +++ "           windows-874, windows-1250, windows-1251, windows-1252," +++ nl +++
    tab +++ "           windows-1253, windows-1254, windows-1255, windows-1256," +++ nl +++
    tab +++ "           windows-1257, windows-1258" +++ nl;
    tab +++ "-d:        calculate additional digest (hash) types besides md5," +++ nl +++
    tab +++ "           options: sha1" +++ nl;
    tab +++ "-f:        specify the input format, options: raw (default)," +++ nl +++
    tab +++ "           files (restricted to logical volume files)" +++ nl;
    tab +++ "-h:        shows this help" +++ nl;
    tab +++ "-l:        logs verification errors and the digest (hash) to the" +++ nl +++
    tab +++ "           log_filename" +++ nl;
    tab +++ "-p:        specify the process buffer size (default is the chunk size)" +++ nl;
    tab +++ "-q:        quiet shows minimal status information" +++ nl;
    tab +++ "-v:        verbose output to stderr" +++ nl;
    tab +++ "-V:        print version" +++ nl;
    tab +++ "-w:        zero sectors on checksum error (mimic EnCase like behavior)" +++ nl ].

Fixpoint fprintf_each (st : stream) (texts : list string) : M unit :=
  match texts with
  | [] => skip
  | text :: rest => fprintf st text ;; fprintf_each st rest
  end.

(** Prints the executable usage information to the stream (lines 50-82):
    nothing for a NULL stream, else the thirteen [fprintf] calls in turn. *)
Definition usage_fprint (st : option stream) : M unit :=
  match st with
  | None => skip
  | Some stream => fprintf_each stream usage_text
  end.

Definition set_option (f : options -> options) : M unit :=
  assign (fun s => set_opts (f (opts s)) s).

(** [print_backtrace_and_free]: the pair of calls that follows the
    warnings of [main]. *)
Definition print_backtrace_and_free : M unit :=
  do libsystem_notify_print_error_backtrace ;;
  do liberror_error_free ;;
  assign (set_error false).

(** Lines 158-176. *)
Definition stage_startup : M unit :=
  do libsystem_notify_set_stream ;;
  do (libsystem_notify_set_verbose 1) ;;
  r <- extcall libsystem_initialize ;;
  (if r != 1 then
     fprintf stderr ("Unable to initialize system values." +++ nl) ;;
     goto on_error
   else skip) ;;
  do (ewfoutput_version_fprint program).

(** The body of the switch (lines 183-266). *)
Definition option_case (g : getopt_result) : M unit :=
  match opt g with
  | "A"%char => set_option (with_option_header_codepage (Some (optarg g)))
  | "d"%char =>
      if libcstring_system_string_compare e (optarg g) "sha1" 4 =? 0 then
        set_option (with_calculate_sha1 1)
      else if libcstring_system_string_compare e (optarg g) "sha256" 6 =? 0 then
        set_option (with_calculate_sha256 1)
      else
        fprintf stderr ("Unsupported digest type." +++ nl)
  | "f"%char => set_option (with_option_format (Some (optarg g)))
  | "h"%char =>
      usage_fprint (Some stdout) ;;
      return_ EXIT_SUCCESS
  | "l"%char => set_option (with_log_filename (Some (optarg g)))
  | "p"%char => set_option (with_option_process_buffer_size (Some (optarg g)))
  | "q"%char => set_option (with_print_status_information 0)
  | "v"%char => set_option (with_verbose 1)
  | "V"%char =>
      do ewfoutput_copyright_fprint ;;
      return_ EXIT_SUCCESS
  | "w"%char => set_option (with_zero_chunk_on_error 1)
  | _ =>
      fprintf stderr ("Invalid argument: " +++ last_arg g +++ nl) ;;
      usage_fprint (Some stdout) ;;
      goto on_error
  end.

(** The option loop (lines 178-267), over the returns of
    [libsystem_getopt] up to the first -1. *)
Fixpoint option_loop (gs : list getopt_result) : M unit :=
  match gs with
  | [] => skip
  | g :: gs' => option_case g ;; option_loop gs'
  end.

Definition stage_options : M unit := option_loop (getopt e).

(** Lines 268-278: [optind == argc]. *)
Definition stage_files_check : M unit :=
  match remaining e with
  | [] =>
      fprintf stderr ("Missing EWF image file(s)." +++ nl) ;;
      usage_fprint (Some stdout) ;;
      goto on_error
  | _ :: _ => skip
  end.

(** Lines 279-285. *)
Definition stage_notify : M unit :=
  v <- read (fun s => verbose (opts s)) ;;
  do (libsystem_notify_set_verbose v) ;;
  do (libewf_notify_set_verbose v) ;;
  do libewf_notify_set_stream.

(** Lines 287-315. *)
Definition stage_glob : M unit :=
  if LIBSYSTEM_HAVE_GLOB e then
    assign (set_argv_filenames (remaining e))
  else
    r <- extcall libsystem_glob_initialize ;;
    (if r != 1 then
       fprintf stderr ("Unable to initialize glob." +++ nl) ;;
       goto on_error
     else skip) ;;
    r <- extcall (libsystem_glob_resolve (remaining e)) ;;
    (if r != 1 then
       fprintf stderr ("Unable to resolve glob." +++ nl) ;;
       goto on_error
     else skip) ;;
    assign (set_argv_filenames (glob_result e)).

(** Lines 317-329. *)
Definition stage_handle_initialize : M unit :=
  o <- read opts ;;
  r <- extcall (verification_handle_initialize
                  (calculate_md5 o) (calculate_sha1 o) (calculate_sha256 o)) ;;
  if r != 1 then
    fprintf stderr ("Unable to create verification handle." +++ nl) ;;
    goto on_error
  else skip.

(** Lines 330-342. *)
Definition stage_signal_attach : M unit :=
  r <- extcall libsystem_signal_attach ;;
  if r != 1 then
    fprintf stderr ("Unable to attach signal handler." +++ nl) ;;
    print_backtrace_and_free
  else skip.

(** Lines 343-347. *)
Definition stage_open_input : M unit :=
  files <- read argv_filenames ;;
  r <- extcall (verification_handle_open_input files) ;;
  assign (set_result r).

(** Lines 349-352. *)
Definition stage_abort_check : M unit :=
  a <- read ewfverify_abort ;;
  if a != 0 then goto on_abort else skip.

(** Lines 353-360. *)
Definition stage_open_check : M unit :=
  r <- read result ;;
  if r != 1 then
    fprintf stderr ("Unable to open EWF image file(s)." +++ nl) ;;
    goto on_error
  else skip.

(** Lines 361-372. *)
Definition stage_glob_free : M unit :=
  if LIBSYSTEM_HAVE_GLOB e then skip
  else
    r <- extcall (libsystem_glob_free true) ;;
    if r != 1 then
      fprintf stderr ("Unable to free glob." +++ nl) ;;
      goto on_error
    else skip.

(** Lines 373-394. *)
Definition stage_header_codepage : M unit :=
  o <- read (fun s => option_header_codepage (opts s)) ;;
  match o with
  | Some codepage =>
      r <- extcall (verification_handle_set_header_codepage codepage) ;;
      assign (set_result r) ;;
      if r =? -1 then
        fprintf stderr ("Unable to set header codepage." +++ nl) ;;
        goto on_error
      else if r =? 0 then
        fprintf stderr ("Unsupported header codepage defaulting to: ascii." +++ nl)
      else skip
  | None => skip
  end.

(** Lines 395-416. *)
Definition stage_format : M unit :=
  o <- read (fun s => option_format (opts s)) ;;
  match o with
  | Some format =>
      r <- extcall (verification_handle_set_format format) ;;
      assign (set_result r) ;;
      if r =? -1 then
        fprintf stderr ("Unable to set format." +++ nl) ;;
        goto on_error
      else if r =? 0 then
        fprintf stderr ("Unsupported input format defaulting to: raw." +++ nl)
      else skip
  | None => skip
  end.

(** Lines 417-427. *)
Definition stage_zero_chunk_on_error : M unit :=
  z <- read (fun s => zero_chunk_on_error (opts s)) ;;
  r <- extcall (verification_handle_set_zero_chunk_on_error z) ;;
  if r != 1 then
    fprintf stderr ("Unable to set zero on chunk error." +++ nl) ;;
    goto on_error
  else skip.

(** [ewfverify_verification_handle->process_buffer_size = v]. *)
Definition store_process_buffer_size (v : Z) (s : state) : state :=
  set_handle
    (option_map (fun h => mk_handle (input_format h) v) (ewfverify_verification_handle s)) s.

(** [ewfverify_verification_handle->process_buffer_size > (size_t) SSIZE_MAX]. *)
Definition process_buffer_size_too_large (s : state) : bool :=
  match ewfverify_verification_handle s with
  | Some h => process_buffer_size h >? SSIZE_MAX e
  | None => false
  end.

(** Lines 428-452. *)
Definition stage_process_buffer_size : M unit :=
  o <- read (fun s => option_process_buffer_size (opts s)) ;;
  match o with
  | Some size =>
      r <- extcall (verification_handle_set_process_buffer_size size) ;;
      assign (set_result r) ;;
      if r =? -1 then
        fprintf stderr ("Unable to set process buffer size." +++ nl) ;;
        goto on_error
      else
        large <- read process_buffer_size_too_large ;;
        if (r =? 0) || large then
          assign (store_process_buffer_size 0) ;;
          fprintf stderr ("Unsupported process buffer size defaulting to: chunk size." +++ nl)
        else skip
  | None => skip
  end.

(** Lines 453-477. *)
Definition stage_log_open : M unit :=
  o <- read (fun s => log_filename (opts s)) ;;
  match o with
  | Some filename =>
      r <- extcall log_handle_initialize ;;
      (if r != 1 then
         fprintf stderr ("Unable to create log handle." +++ nl) ;;
         goto on_error
       else skip) ;;
      r <- extcall (log_handle_open filename) ;;
      if r != 1 then
        fprintf stderr ("Unable to open log file: " +++ filename +++ "." +++ nl) ;;
        goto on_error
      else skip
  | None => skip
  end.

(** [ewfverify_verification_handle->input_format ==
    VERIFICATION_HANDLE_INPUT_FORMAT_FILES]. *)
Definition input_format_is_files (s : state) : bool :=
  match ewfverify_verification_handle s with
  | Some h => input_format h =? VERIFICATION_HANDLE_INPUT_FORMAT_FILES e
  | None => false
  end.

(** Lines 478-517. *)
Definition stage_verify : M unit :=
  files <- read input_format_is_files ;;
  psi <- read (fun s => print_status_information (opts s)) ;;
  lh <- read log_handle ;;
  if files then
    r <- extcall (verification_handle_verify_single_files psi lh) ;;
    assign (set_result r) ;;
    if r != 1 then
      fprintf stderr ("Unable to verify single files." +++ nl) ;;
      print_backtrace_and_free
    else skip
  else
    r <- extcall (verification_handle_verify_input psi lh) ;;
    assign (set_result r) ;;
    if r != 1 then
      fprintf stderr ("Unable to verify input." +++ nl) ;;
      print_backtrace_and_free
    else skip.

(** Lines 518-525. *)
Definition stage_status : M unit :=
  r <- read result ;;
  if r != 1 then assign (set_status (PROCESS_STATUS_FAILED e))
  else assign (set_status (PROCESS_STATUS_COMPLETED e)).

(** Lines 526-548. *)
Definition stage_log_close : M unit :=
  lh <- read log_handle ;;
  if lh then
    r <- extcall (log_handle_close true) ;;
    (if r != 0 then
       fprintf stderr ("Unable to close log handle." +++ nl) ;;
       goto on_error
     else skip) ;;
    r <- extcall (log_handle_free true) ;;
    if r != 1 then
      fprintf stderr ("Unable to free log handle." +++ nl) ;;
      goto on_error
    else skip
  else skip.

(** Lines 583-606: the report. *)
Definition stage_report : M unit :=
  a <- read ewfverify_abort ;;
  if a != 0 then
    fprintf stdout (program +++ ": ABORTED" +++ nl) ;;
    return_ EXIT_FAILURE
  else
    st <- read status ;;
    if st != PROCESS_STATUS_COMPLETED e then
      fprintf stdout (program +++ ": FAILURE" +++ nl) ;;
      return_ EXIT_FAILURE
    else
      fprintf stdout (program +++ ": SUCCESS" +++ nl) ;;
      return_ EXIT_SUCCESS.

(** Lines 549-582: the releases after the label [on_abort]. *)
Definition on_abort_cleanup : M unit :=
  r <- extcall libsystem_signal_detach ;;
  (if r != 1 then
     fprintf stderr ("Unable to detach signal handler." +++ nl) ;;
     print_backtrace_and_free
   else skip) ;;
  r <- extcall (verification_handle_close true) ;;
  (if r != 0 then
     fprintf stderr ("Unable to close EWF file(s)." +++ nl) ;;
     goto on_error
   else skip) ;;
  r <- extcall (verification_handle_free true) ;;
  if r != 1 then
    fprintf stderr ("Unable to free verification handle." +++ nl) ;;
    goto on_error
  else skip.

(** Lines 549-606: from the label [on_abort]. *)
Definition at_on_abort : M unit :=
  on_abort_cleanup ;;
  stage_report.

(** Lines 609-615: the pending error is printed and freed. *)
Definition release_error : M unit :=
  er <- read error ;;
  if er then print_backtrace_and_free else skip.

(** Lines 616-624. *)
Definition release_log_handle : M unit :=
  lh <- read log_handle ;;
  if lh then
    _ <- extcall (log_handle_close false) ;;
    _ <- extcall (log_handle_free false) ;;
    skip
  else skip.

(** Lines 625-633. *)
Definition release_verification_handle : M unit :=
  h <- read ewfverify_verification_handle ;;
  match h with
  | Some _ =>
      _ <- extcall (verification_handle_close false) ;;
      _ <- extcall (verification_handle_free false) ;;
      skip
  | None => skip
  end.

(** Lines 634-641. *)
Definition release_glob : M unit :=
  if LIBSYSTEM_HAVE_GLOB e then skip
  else
    g <- read glob ;;
    if g then
      _ <- extcall (libsystem_glob_free false) ;;
      skip
    else skip.

(** Lines 609-641: the releases after the label [on_error]. *)
Definition on_error_cleanup : M unit :=
  release_error ;;
  release_log_handle ;;
  release_verification_handle ;;
  release_glob.

(** Lines 608-642: from the label [on_error]. *)
Definition at_on_error : M unit :=
  on_error_cleanup ;;
  return_ EXIT_FAILURE.

(** Lines 158-267: start-up and the option loop. *)
Definition main_through_options : M unit :=
  stage_startup ;;
  stage_options.

(** Lines 268-315: the check for file arguments, verbosity and glob. *)
Definition main_options_to_initialize : M unit :=
  stage_files_check ;;
  stage_notify ;;
  stage_glob.

(** Lines 317-347: the handle is created, the signal handler attached
    and the segment files opened. *)
Definition main_initialize_to_open : M unit :=
  stage_handle_initialize ;;
  stage_signal_attach ;;
  stage_open_input.

(** Lines 349-416: the checks after opening and the two string options. *)
Definition main_open_to_zero : M unit :=
  stage_abort_check ;;
  stage_open_check ;;
  stage_glob_free ;;
  stage_header_codepage ;;
  stage_format.

(** Lines 478-548. *)
Definition main_from_verify : M unit :=
  stage_verify ;;
  stage_status ;;
  stage_log_close.

(** The statements of [main] before the label [on_abort]. *)
Definition main_body : M unit :=
  main_through_options ;;
  main_options_to_initialize ;;
  main_initialize_to_open ;;
  main_open_to_zero ;;
  stage_zero_chunk_on_error ;;
  stage_process_buffer_size ;;
  stage_log_open ;;
  main_from_verify.

(** The same statements up to a line of [main]: up to line 317, where
    the handle is created; up to line 347, where
    [verification_handle_open_input] has returned; up to lines 417, 428,
    453 and 478. *)
Definition main_to_initialize : M unit :=
  main_through_options ;; main_options_to_initialize.
Definition main_to_open : M unit :=
  main_to_initialize ;; main_initialize_to_open.
Definition main_to_zero : M unit :=
  main_to_open ;; main_open_to_zero.
Definition main_to_size : M unit :=
  main_to_zero ;; stage_zero_chunk_on_error.
Definition main_to_log : M unit :=
  main_to_size ;; stage_process_buffer_size.
Definition main_to_verify : M unit :=
  main_to_log ;; stage_log_open.

(** Resolving the jumps: falling off [main_body] or jumping to
    [on_abort] runs [at_on_abort], which returns or jumps to [on_error];
    [at_on_error] returns. *)
Definition finish (r : outcome unit * state) : Z * state :=
  match r with
  | (Return code, s) => (code, s)
  | (_, s) => (EXIT_FAILURE, s)
  end.

Definition from_on_error (s : state) : Z * state := finish (at_on_error s).

Definition from_on_abort (s : state) : Z * state :=
  match at_on_abort s with
  | (Return code, s1) => (code, s1)
  | (_, s1) => from_on_error s1
  end.

Definition run (m : M unit) (s : state) : Z * state :=
  match m s with
  | (Return code, s1) => (code, s1)
  | (Goto on_error, s1) => from_on_error s1
  | (Goto on_abort, s1) => from_on_abort s1
  | (Normal _, s1) => from_on_abort s1
  end.

(** The main program (lines 128-643). *)
Definition main : Z * state := run main_body initial_state.

End Program.

(** ** Classes of events *)

(** The two verification drivers. *)
Definition is_driver (ev : event) : bool :=
  match ev with
  | Called (verification_handle_verify_single_files _ _) _
  | Called (verification_handle_verify_input _ _) _ => true
  | _ => false
  end.

(** Creating a verification handle or opening a file. *)
Definition is_create_or_open (ev : event) : bool :=
  match ev with
  | Called (verification_handle_initialize _ _ _) _
  | Called (verification_handle_open_input _) _
  | Called log_handle_initialize _
  | Called (log_handle_open _) _ => true
  | _ => false
  end.

(** What the program prints itself. *)
Definition is_fprintf (ev : event) : bool :=
  match ev with
  | Fprintf _ _ => true
  | _ => false
  end.

(** Setting the process buffer size of the handle. *)
Definition is_set_process_buffer_size (ev : event) : bool :=
  match ev with
  | Called (verification_handle_set_process_buffer_size _) _ => true
  | _ => false
  end.

(** The successful release of the handle on the way to the report
    (lines 573-582): the only call of [verification_handle_free] that is
    given [&error]. *)
Definition is_final_free (ev : event) : bool :=
  match ev with
  | Called (verification_handle_free true) 1 => true
  | _ => false
  end.

(** Creating the verification handle. *)
Definition is_initialize (ev : event) : bool :=
  match ev with
  | Called (verification_handle_initialize _ _ _) _ => true
  | _ => false
  end.

(** Installing the zero-on-error policy. *)
Definition is_set_zero (ev : event) : bool :=
  match ev with
  | Called (verification_handle_set_zero_chunk_on_error _) _ => true
  | _ => false
  end.

(** The report of success (line 601). *)
Definition is_success (ev : event) : bool :=
  match ev with
  | Fprintf stdout text => String.eqb text (program +++ ": SUCCESS" +++ nl)
  | _ => false
  end.

(** The handler signalling the handle to abort (line 98). *)
Definition is_signal_abort (ev : event) : bool :=
  match ev with
  | Called verification_handle_signal_abort _ => true
  | _ => false
  end.

(** The complement of a class, and the class of all events. *)
Definition non (p : event -> bool) (ev : event) : bool := negb (p ev).

Definition any_event (ev : event) : bool := true.

(** A class of events that holds the prints on stderr, the usage text
    on stdout, every procedure call and the calls of the signal handler:
    statements that make none of the excluded calls, and do not print the
    report, stay inside it. *)
Record harmless (p : event -> bool) : Prop := mk_harmless {
  harmless_stderr : forall t, p (Fprintf stderr t) = true;
  harmless_usage : forallb p (map (Fprintf stdout) usage_text) = true;
  harmless_did : forall q, p (Did q) = true;
  harmless_signal_abort : forall r, p (Called verification_handle_signal_abort r) = true;
  harmless_close_stdin : forall r, p (Called (libsystem_file_io_close 0) r) = true
}.

(** The three lines of the report (lines 583-604). *)
Definition ABORTED_line : event := Fprintf stdout (program +++ ": ABORTED" +++ nl).

Definition FAILURE_line : event := Fprintf stdout (program +++ ": FAILURE" +++ nl).

Definition SUCCESS_line : event := Fprintf stdout (program +++ ": SUCCESS" +++ nl).

(** Several events at once, and the events of [usage_fprint]. *)
Definition log_events (evs : list event) (s : state) : state :=
  mk_state (ewfverify_verification_handle s) (ewfverify_abort s) (error s) (glob s)
           (log_handle s) (opts s) (argv_filenames s) (result s) (status s)
           (trace s ++ evs).

Definition usage_events (st : stream) : list event :=
  map (Fprintf st) usage_text.

(** ** The option locals after the loop *)

(** [libsystem_getopt] returned the option character [c]. *)
Definition option_is (c : ascii) (g : getopt_result) : bool := Ascii.eqb (opt g) c.

(** The [-d] options that set [calculate_sha1], and those that set
    [calculate_sha256] (lines 202-216). *)
Definition selects_sha1 (e : env) (g : getopt_result) : bool :=
  option_is "d" g && (libcstring_system_string_compare e (optarg g) "sha1" 4 =? 0).

Definition selects_sha256 (e : env) (g : getopt_result) : bool :=
  option_is "d" g
  && negb (libcstring_system_string_compare e (optarg g) "sha1" 4 =? 0)
  && (libcstring_system_string_compare e (optarg g) "sha256" 6 =? 0).

(** The macro [libcstring_system_string_compare] is the length-limited
    comparison of the C library. *)
Definition libc_strings (e : env) : Prop :=
  forall s1 s2 n, libcstring_system_string_compare e s1 s2 n = strncmp s1 s2 n.

(** A flag that an option sets to 1. *)
Definition flag (b : bool) (otherwise : Z) : Z := if b then 1 else otherwise.

(** What the option loop has left in the locals when it ends at line
    267, in terms of the options [libsystem_getopt] handed out. *)
Definition parsed (e : env) (o : options) : Prop :=
  calculate_md5 o = 1 /\
  calculate_sha1 o = flag (existsb (selects_sha1 e) (getopt e)) 0 /\
  calculate_sha256 o = flag (existsb (selects_sha256 e) (getopt e)) 0 /\
  zero_chunk_on_error o = flag (existsb (option_is "w") (getopt e)) 0 /\
  (existsb (option_is "p") (getopt e) = false -> option_process_buffer_size o = None).

(** ** Blocks of [main] and states that the proofs name *)

(** The state in which [extcall c] returns. *)
Definition after_call (e : env) (c : call) (s : state) : state :=
  snd (raw_call e c (snd (tick e c s))).

(** The state after lines 550-561. *)
Definition after_detach (e : env) (s : state) : state :=
  let s1 := after_call e libsystem_signal_detach s in
  if ret (extern e libsystem_signal_detach) != 1
  then set_error false
         (log_events [Fprintf stderr ("Unable to detach signal handler." +++ nl);
                      Did libsystem_notify_print_error_backtrace;
                      Did liberror_error_free] s1)
  else s1.

(** The driver line 478 selects in a state. *)
Definition chosen_driver (e : env) (s : state) : call :=
  if input_format_is_files e s
  then verification_handle_verify_single_files
         (print_status_information (opts s)) (log_handle s)
  else verification_handle_verify_input
         (print_status_information (opts s)) (log_handle s).

(** Lines 330-548: what follows the creation of the handle. *)
Definition main_after_initialize (e : env) : M unit :=
  stage_signal_attach e ;; stage_open_input e ;; main_open_to_zero e ;;
  stage_zero_chunk_on_error e ;; stage_process_buffer_size e ;;
  stage_log_open e ;; main_from_verify e.

(** Lines 353-548: what follows the test of the abort flag. *)
Definition main_after_abort_check (e : env) : M unit :=
  stage_open_check ;; stage_glob_free e ;; stage_header_codepage e ;; stage_format e ;;
  stage_zero_chunk_on_error e ;; stage_process_buffer_size e ;;
  stage_log_open e ;; main_from_verify e.

(** Lines 453-548: what follows the stage of the process buffer size. *)
Definition main_after_size (e : env) : M unit :=
  stage_log_open e ;; main_from_verify e.

(** Lines 518-548: what follows the verification stage. *)
Definition main_after_verify (e : env) : M unit :=
  stage_status e ;; stage_log_close e.

(** ** Notions for reasoning about runs *)

(** [steps R m]: every run of [m], however it ends, takes a state to an
    [R]-related one. *)
Definition steps {A} (R : state -> state -> Prop) (m : M A) : Prop :=
  forall s, R s (snd (m s)).

Record preorder (R : state -> state -> Prop) : Prop := mk_preorder {
  pre_refl : forall s, R s s;
  pre_trans : forall s1 s2 s3, R s1 s2 -> R s2 s3 -> R s1 s3
}.

(** The events a statement appends to the trace all satisfy [p]. *)
Definition extends (p : event -> bool) (s s' : state) : Prop :=
  exists new, trace s' = trace s ++ new /\ forallb p new = true.

(** A relation that only looks at one component of the state. *)
Definition keeps {A} (f : state -> A) (P : A -> Prop) (s s' : state) : Prop :=
  P (f s) -> P (f s').

(** A component of the state is left as it was. *)
Definition same {A} (f : state -> A) (s s' : state) : Prop := f s' = f s.

(** Statements that neither return nor jump. *)
Definition falls_through {A} (m : M A) : Prop :=
  forall s, exists a, fst (m s) = Normal a.

(** Statements that never jump to the label [on_abort]. *)
Definition no_abort_jump {A} (m : M A) : Prop :=
  forall s, fst (m s) <> Goto on_abort.

(** Properties of components: the abort flag is set, the handle is not
    NULL, the handle is NULL, a pointer flag is NULL. *)
Definition nonzero (a : Z) : Prop := a <> 0.

Definition live (h : option verification_handle) : Prop := h <> None.

Definition null (h : option verification_handle) : Prop := h = None.

Definition unset (b : bool) : Prop := b = false.

(** ** Sample runs *)

(** Every external function succeeds. *)
Definition all_succeed (c : call) : reply :=
  match c with
  | verification_handle_close _ | log_handle_close _ | libsystem_file_io_close _ =>
      mk_reply 0 false
  | _ => mk_reply 1 false
  end.

(** No signal is delivered. *)
Definition no_signal (c : call) : bool := false.

(** A signal arrives while the segment files are opened. *)
Definition signal_while_opening (c : call) : bool :=
  match c with
  | verification_handle_open_input _ => true
  | _ => false
  end.

(** A build with glob support on a 64 bit system; the status and format
    constants are the character codes of 'c', 'f' and 'f'. *)
Definition sample_env (options : list getopt_result) (files : list string)
    (ext : call -> reply) (signal : call -> bool) : env :=
  mk_env true 9223372036854775807 99 102 102 strncmp options files []
         (mk_handle 114 0) ext (fun _ h => h) signal.

(** [ewfverify image.E01], everything succeeds. *)
Definition env_clean : env := sample_env [] ["image.E01"] all_succeed no_signal.

(** [ewfverify -w image.E01]. *)
Definition env_zero : env :=
  sample_env [mk_getopt "w" "" "-w"] ["image.E01"] all_succeed no_signal.

(** [ewfverify image.E01], interrupted while the files are opened. *)
Definition env_aborted : env :=
  sample_env [] ["image.E01"] all_succeed signal_while_opening.

(** [ewfverify image.E01] where the verification finds the image
    corrupted: the driver returns 0. *)
Definition env_failed : env :=
  sample_env [] ["image.E01"]
    (fun c => match c with
              | verification_handle_verify_input _ _ => mk_reply 0 false
              | _ => all_succeed c
              end)
    no_signal.

(** [ewfverify image.E01] where the verification cannot be carried out:
    the driver returns -1. *)
Definition env_incomplete : env :=
  sample_env [] ["image.E01"]
    (fun c => match c with
              | verification_handle_verify_input _ _ => mk_reply (-1) false
              | _ => all_succeed c
              end)
    no_signal.

(** [ewfverify image.E01], interrupted while the files are opened, and
    closing the handle fails. *)
Definition env_aborted_close_fails : env :=
  sample_env [] ["image.E01"]
    (fun c => match c with
              | verification_handle_close _ => mk_reply (-1) true
              | _ => all_succeed c
              end)
    signal_while_opening.

(** [ewfverify missing.E01]: the files cannot be opened. *)
Definition env_open_fails : env :=
  sample_env [] ["missing.E01"]
    (fun c => match c with
              | verification_handle_open_input _ => mk_reply (-1) true
              | _ => all_succeed c
              end)
    no_signal.

(** [ewfverify -d sha1x image.E01]. *)
Definition env_sha1x : env :=
  sample_env [mk_getopt "d" "sha1x" "sha1x"] ["image.E01"] all_succeed no_signal.

(** [ewfverify -p junk image.E01]: the size cannot be parsed. *)
Definition env_bad_size : env :=
  sample_env [mk_getopt "p" "junk" "junk"] ["image.E01"]
    (fun c => match c with
              | verification_handle_set_process_buffer_size _ => mk_reply 0 false
              | _ => all_succeed c
              end)
    no_signal.

(** [ewfverify -d md4 -A latin9 -f tar image.E01]: three unsupported
    values. *)
Definition env_unsupported : env :=
  sample_env [mk_getopt "d" "md4" "md4"; mk_getopt "A" "latin9" "latin9";
              mk_getopt "f" "tar" "tar"] ["image.E01"]
    (fun c => match c with
              | verification_handle_set_header_codepage _
              | verification_handle_set_format _ => mk_reply 0 false
              | _ => all_succeed c
              end)
    no_signal.

(** [ewfverify -w] without a file. *)
Definition env_no_files : env :=
  sample_env [mk_getopt "w" "" "-w"] [] all_succeed no_signal.

(** [ewfverify -p 18446744073709551615 image.E01] on the 64 bit system:
    the setter accepts the value and leaves a size above SSIZE_MAX in
    the handle. *)
Definition env_huge_size : env :=
  mk_env true 9223372036854775807 99 102 102 strncmp
         [mk_getopt "p" "18446744073709551615" "18446744073709551615"]
         ["image.E01"] [] (mk_handle 114 0) all_succeed
         (fun c h =>
            match c with
            | verification_handle_set_process_buffer_size _ =>
                mk_handle (input_format h) 18446744073709551615
            | _ => h
            end)
         no_signal.

(** * The verification engine

    [verification_handle_verify_input], the engine behind the driver
    call of [main], is not among the sources.  This module models it
    from the specification (sections 3, 4.1 to 4.4): the segment table,
    the chunk reader, the digest pipeline and the verification driver. *)

Module Engine.

Import Stdlib.Init.Byte.

Local Open Scope nat_scope.

(** Modelled from the spec: the digest algorithms of the pipeline, "MD5
    always; SHA-1/SHA-256 optional". *)
Inductive algorithm := MD5 | SHA1 | SHA256.

(** Modelled from the spec: the entry of one chunk in a segment file, with
    the fields of the chunk descriptor that the file holds: in-file byte
    offset, stored size, compressed flag and stored checksum. *)
Record chunk_entry := mk_entry {
  offset : nat;
  stored_size : nat;
  compressed : bool;
  stored_checksum : Z
}.

(** Modelled from the spec: a segment file, "one physical file holding a
    contiguous slice of the logical chunk sequence". *)
Record segment_file := mk_segment {
  contents : list byte;
  entries : list chunk_entry
}.

(** Modelled from the spec: the evidence set, an "ordered sequence of
    segment files" whose "total logical media size and chunk size are
    fixed at open time". *)
Record evidence_set := mk_evidence {
  segments : list segment_file;
  chunk_size : nat;
  media_size : nat
}.

(** Modelled from the spec: the chunk descriptor, "{logical index, owning
    segment file reference, in-file byte offset, stored size, compressed
    flag, stored checksum}". *)
Record chunk_descriptor := mk_descriptor {
  logical_index : nat;
  segment : segment_file;
  entry : chunk_entry
}.

(** Modelled from the spec: the kinds of chunk integrity error, "checksum
    mismatch, decompression failure". *)
Inductive failure_kind := ChecksumMismatch | DecompressionFailure.

(** Modelled from the spec: an error record, "(chunk index, byte range,
    reason)", the range given by its "approximate byte offset". *)
Record error_record := mk_error {
  chunk_index : nat;
  byte_offset : nat;
  reason : failure_kind
}.

(** Modelled from the spec: what the chunk reader reports: the plaintext
    with "checksum_ok", a failed chunk of either kind, or a
    "TruncatedChunk". *)
Inductive read_result :=
| ReadOk (plaintext : list byte)
| ReadCorrupt (kind : failure_kind) (plaintext : option (list byte))
| ReadTruncated.

(** Modelled from the spec: the terminal states of the driver with what
    each returns: "Completed" with the finalized digests and the error
    list, "Aborted" with the number of chunks processed, "Failed" with
    the errors collected so far. *)
Inductive outcome (digest : Type) :=
| Completed (digests : list (algorithm * digest)) (errors : list error_record)
| Aborted (processed : nat)
| Failed (errors : list error_record).
Arguments Completed {digest} digests errors.
Arguments Aborted {digest} processed.
Arguments Failed {digest} errors.

Section WithPrimitives.

(** The black boxes of the spec: "the low-level decompression primitive
    (assumed available as a black-box inflate function)", the checksum
    "algorithm fixed by the container format", and the "black-box
    incremental hashers". *)
Variable inflate : list byte -> option (list byte).
Variable checksum : list byte -> Z.
Variable context : Type.
Variable digest : Type.
Variable hash_init : algorithm -> context.
Variable hash_update : algorithm -> context -> list byte -> context.
Variable hash_finalize : algorithm -> context -> digest.

(** Modelled from the spec: the segment table, "resolve(logical_chunk_index)
    -> ChunkDescriptor, fails with OutOfRange if the index exceeds the
    known total chunk count"; the segment files are "contiguous in
    logical chunk order with no gaps". *)
Fixpoint resolve_in (files : list segment_file) (first index : nat)
    : option chunk_descriptor :=
  match files with
  | [] => None
  | f :: rest =>
      match nth_error (entries f) index with
      | Some en => Some (mk_descriptor (first + index) f en)
      | None =>
          resolve_in rest (first + List.length (entries f))
                     (index - List.length (entries f))
      end
  end.

(** Modelled from the spec: "resolve(logical_chunk_index)" on an evidence
    set; [None] is the failure "OutOfRange". *)
Definition resolve (es : evidence_set) (index : nat) : option chunk_descriptor :=
  resolve_in (segments es) 0 index.

(** Modelled from the spec: "the known total chunk count", the sum of the
    chunk counts of the segment files, "discovered at open time". *)
Definition total_chunks (es : evidence_set) : nat :=
  List.length (List.concat (map entries (segments es))).

(** Modelled from the spec: the chunk reader, "reads the stored bytes at
    the descriptor's offset/size, decompresses when the descriptor marks
    the chunk compressed, recomputes the checksum over the decompressed
    bytes ... and compares to the stored checksum"; a short read is a
    "TruncatedChunk". *)
Definition read_chunk (d : chunk_descriptor) : read_result :=
  let en := entry d in
  let stored := firstn (stored_size en) (skipn (offset en) (contents (segment d))) in
  if List.length stored <? stored_size en then ReadTruncated
  else
    match (if compressed en then inflate stored else Some stored) with
    | None => ReadCorrupt DecompressionFailure None
    | Some plaintext =>
        if Z.eqb (checksum plaintext) (stored_checksum en) then ReadOk plaintext
        else ReadCorrupt ChecksumMismatch (Some plaintext)
    end.

(** Modelled from the spec: the digest pipeline, "one incremental hash
    context per requested algorithm"; "update" "feeds identical bytes to
    every active context in the same call", "finalize() -> map(algorithm
    -> digest_value)". *)
Definition pipeline : Type := list (algorithm * context).

(** Modelled from the spec: the pipeline of a new session, a fresh
    context for each requested algorithm. *)
Definition start (algorithms : list algorithm) : pipeline :=
  map (fun a => (a, hash_init a)) algorithms.

(** Modelled from the spec: "update(chunk_plaintext)". *)
Definition update (p : pipeline) (plaintext : list byte) : pipeline :=
  map (fun ac => (fst ac, hash_update (fst ac) (snd ac) plaintext)) p.

(** Modelled from the spec: "finalize() -> map(algorithm -> digest_value)". *)
Definition finalize (p : pipeline) : list (algorithm * digest) :=
  map (fun ac => (fst ac, hash_finalize (fst ac) (snd ac))) p.

(** Modelled from the spec: the verification session, with the requested
    digest algorithms, the zero-chunk-on-error policy flag and the
    cancellation flag as the driver finds it at each chunk boundary. *)
Record session := mk_session {
  evidence : evidence_set;
  algorithms : list algorithm;
  zero_chunk_on_error : bool;
  cancelled : nat -> bool
}.

(** Modelled from the spec: "the chunk's nominal plaintext size": the
    chunk size, or what is left of the media for the last chunk. *)
Definition nominal_size (es : evidence_set) (index : nat) : nat :=
  Nat.min (chunk_size es) (media_size es - index * chunk_size es).

(** Modelled from the spec: the state [Running] of the verification
    driver.  Each iteration checks the cancellation flag first, resolves
    the descriptor and reads the chunk; a failed chunk is recorded and,
    under the zero-on-error policy, replaced by a zero-filled buffer of
    its nominal size, which is what the digests are fed; a truncated
    chunk ends the run as [Failed].  Without the policy the spec only
    says that the error is recorded and the run continues; the model then
    feeds the digests the bytes that were read, if any. *)
Fixpoint drive (ss : session) (remaining index : nat) (p : pipeline)
    (errors : list error_record) : outcome digest :=
  match remaining with
  | O => Completed (finalize p) errors
  | S remaining' =>
      if cancelled ss index then Aborted index
      else
        match resolve (evidence ss) index with
        | None => Failed errors
        | Some d =>
            match read_chunk d with
            | ReadTruncated => Failed errors
            | ReadOk plaintext =>
                drive ss remaining' (S index) (update p plaintext) errors
            | ReadCorrupt kind plaintext =>
                let errors' :=
                  errors ++ [mk_error index (index * chunk_size (evidence ss)) kind] in
                if zero_chunk_on_error ss then
                  drive ss remaining' (S index)
                        (update p (repeat x00 (nominal_size (evidence ss) index))) errors'
                else
                  drive ss remaining' (S index)
                        (match plaintext with
                         | Some bytes => update p bytes
                         | None => p
                         end) errors'
            end
        end
  end.

(** Modelled from the spec: "run(Session, mode: Media)": from [Idle], the
    driver "iterates logical chunk index 0..total-1 in strictly
    increasing order". *)
Definition run (ss : session) : outcome digest :=
  drive ss (total_chunks (evidence ss)) 0 (start (algorithms ss)) [].

(** Modelled from the spec: the plaintext of a chunk as stored, whatever
    its checksum says. *)
Definition chunk_plaintext (es : evidence_set) (index : nat) : list byte :=
  match resolve es index with
  | Some d =>
      match read_chunk d with
      | ReadOk plaintext | ReadCorrupt _ (Some plaintext) => plaintext
      | _ => []
      end
  | None => []
  end.

(** Modelled from the spec: the stream of [count] chunks from chunk
    [first] on, with the bytes of chunk [k] "replaced by zeros of the
    same length". *)
Definition zeroed_stream_from (es : evidence_set) (k count first : nat) : list byte :=
  List.concat (map (fun i => if i =? k
                        then repeat x00 (List.length (chunk_plaintext es i))
                        else chunk_plaintext es i)
              (seq first count)).

(** Modelled from the spec: the whole media stream with the bytes of
    chunk [k] replaced by zeros. *)
Definition zeroed_stream (es : evidence_set) (k : nat) : list byte :=
  zeroed_stream_from es k (total_chunks es) 0.

(** Modelled from the spec: the "reference digest computed over the
    stream", by "an independent reference hasher" that is fed the whole
    stream at once. *)
Definition reference_digests (algs : list algorithm) (stream : list byte)
    : list (algorithm * digest) :=
  map (fun a => (a, hash_finalize a (hash_update a (hash_init a) stream))) algs.

End WithPrimitives.

End Engine.

(** ** A sample evidence set *)

Module EngineSample.

Import Stdlib.Init.Byte.
Import Engine.

(** Stand-ins for the black boxes: stored chunks are not compressed, the
    checksum is the sum of the bytes, and a digest is the stream itself. *)
Definition sample_inflate (stored : list byte) : option (list byte) := Some stored.

Definition sample_checksum (bytes : list byte) : Z :=
  fold_right (fun b acc => Z.of_N (Byte.to_N b) + acc) 0 bytes.

Definition sample_init (a : algorithm) : list byte := [].
Definition sample_update (a : algorithm) (c x : list byte) : list byte := c ++ x.
Definition sample_finalize (a : algorithm) (c : list byte) : list byte := c.

(** Three chunks of two bytes in two segment files; the stored checksum
    of the second chunk is wrong. *)
Definition sample_evidence : evidence_set :=
  mk_evidence
    [ mk_segment [x01; x02; x03; x04] [mk_entry 0 2 false 3; mk_entry 2 2 false 99];
      mk_segment [x05; x06] [mk_entry 0 2 false 11] ]
    2 6.

Definition sample_session : session :=
  mk_session sample_evidence [MD5; SHA1] true (fun _ => false).

(** A stand-in for inflate on compressed chunks: run-length decoding,
    the stored bytes being pairs of a count and a byte. *)
Fixpoint run_length_inflate (stored : list byte) : option (list byte) :=
  match stored with
  | [] => Some []
  | [_] => None
  | n :: b :: rest =>
      option_map (app (repeat b (N.to_nat (Byte.to_N n)))) (run_length_inflate rest)
  end.

(** Three chunks of two bytes again, the second one compressed: it was
    stored as the pair (2, 7), with checksum 14, and damage has turned
    the count into 3, so that it now decodes to three bytes instead of
    the two of its nominal size. *)
Definition skewed_evidence : evidence_set :=
  mk_evidence
    [ mk_segment [x01; x02; x03; x07]
        [mk_entry 0 2 false 3; mk_entry 2 2 true 14];
      mk_segment [x05; x06] [mk_entry 0 2 false 11] ]
    2 6.

Definition skewed_session : session :=
  mk_session skewed_evidence [MD5; SHA1] true (fun _ => false).

End EngineSample.

(** * Further notions

    Classes of options, events and exits for the parts of [main] around
    the option loop, the log file and the releases. *)

(** The options after whose case the loop goes on (lines 197-264). *)
Definition is_plain_option (g : getopt_result) : bool :=
  option_is "A" g || option_is "d" g || option_is "f" g || option_is "l" g ||
  option_is "p" g || option_is "q" g || option_is "v" g || option_is "w" g.

(** The options the switch has a case for. *)
Definition is_known_option (g : getopt_result) : bool :=
  is_plain_option g || option_is "h" g || option_is "V" g.

(** The argument of the last option [c] among [gs], [default] when there
    is none. *)
Definition last_optarg (c : ascii) (gs : list getopt_result) (default : option string)
    : option string :=
  fold_left (fun acc g => if option_is c g then Some (optarg g) else acc) gs default.

(** How a statement leaves the normal flow: by [return] or by [goto]. *)
Inductive exit :=
| Returned (code : Z)
| Jumped (l : label).

(** Every exit of a statement satisfies [Q]. *)
Definition exits_with {A} (Q : exit -> Prop) (m : M A) : Prop :=
  forall s, match fst (m s) with
            | Normal _ => True
            | Return code => Q (Returned code)
            | Goto l => Q (Jumped l)
            end.

Definition returns_success (x : exit) : Prop :=
  match x with
  | Returned code => code = EXIT_SUCCESS
  | Jumped _ => True
  end.

Definition never_returns (x : exit) : Prop :=
  match x with
  | Returned _ => False
  | Jumped _ => True
  end.

(** The lines of the report (lines 583-604). *)
Definition is_report (ev : event) : bool :=
  match ev with
  | Fprintf stdout text =>
      String.eqb text (program +++ ": ABORTED" +++ nl)
      || String.eqb text (program +++ ": FAILURE" +++ nl)
      || String.eqb text (program +++ ": SUCCESS" +++ nl)
  | _ => false
  end.

(** Releasing the verification handle. *)
Definition is_free (ev : event) : bool :=
  match ev with
  | Called (verification_handle_free _) _ => true
  | _ => false
  end.

(** Opening the segment files. *)
Definition is_open_input (ev : event) : bool :=
  match ev with
  | Called (verification_handle_open_input _) _ => true
  | _ => false
  end.

(** Opening the log file. *)
Definition is_log_open (ev : event) : bool :=
  match ev with
  | Called (log_handle_open _) _ => true
  | _ => false
  end.

(** The banner line 176 prints. *)
Definition is_version (ev : event) : bool :=
  match ev with
  | Did (ewfoutput_version_fprint _) => true
  | _ => false
  end.

(** The handler closing stdin (line 113). *)
Definition is_close_stdin (ev : event) : bool :=
  match ev with
  | Called (libsystem_file_io_close _) _ => true
  | _ => false
  end.

(** A class of events that holds none of the events of the signal
    handler. *)
Record handler_free (q : event -> bool) : Prop := mk_handler_free {
  handler_free_did : forall p, q (Did p) = false;
  handler_free_signal_abort : forall r, q (Called verification_handle_signal_abort r) = false;
  handler_free_close_stdin : forall r, q (Called (libsystem_file_io_close 0) r) = false
}.

(** Lines 317-548: what follows the option loop and the glob. *)
Definition main_from_initialize (e : env) : M unit :=
  stage_handle_initialize e ;; main_after_initialize e.

(** [ewfverify -q -h image.E01]. *)
Definition env_help : env :=
  sample_env [mk_getopt "q" "" "-q"; mk_getopt "h" "" "-h"; mk_getopt "x" "" "-x"]
    ["image.E01"] all_succeed no_signal.

(** [ewfverify -V]. *)
Definition env_version : env :=
  sample_env [mk_getopt "V" "" "-V"] [] all_succeed no_signal.

(** [ewfverify -x image.E01]: [libsystem_getopt] returns '?'. *)
Definition env_invalid : env :=
  sample_env [mk_getopt "?" "" "-x"] ["image.E01"] all_succeed no_signal.

(** [ewfverify image.E01] where [libsystem_initialize] fails. *)
Definition env_startup_fails : env :=
  sample_env [] ["image.E01"]
    (fun c => match c with
              | libsystem_initialize => mk_reply (-1) true
              | _ => all_succeed c
              end)
    no_signal.

(** [ewfverify -l first.log -q -l verify.log -f files image.E01]. *)
Definition env_logged : env :=
  sample_env [mk_getopt "l" "first.log" "first.log"; mk_getopt "q" "" "-q";
              mk_getopt "l" "verify.log" "verify.log"; mk_getopt "f" "files" "files"]
    ["image.E01"] all_succeed no_signal.

(** [ewfverify -l verify.log image.E01] where the log file cannot be
    opened. *)
Definition env_log_open_fails : env :=
  sample_env [mk_getopt "l" "verify.log" "verify.log"] ["image.E01"]
    (fun c => match c with
              | log_handle_open _ => mk_reply (-1) true
              | _ => all_succeed c
              end)
    no_signal.

(** [ewfverify image.E0*] in a build without glob support of the
    system: the patterns are resolved by [libsystem_glob_resolve]. *)
Definition env_no_glob : env :=
  mk_env false 9223372036854775807 99 102 102 strncmp [] ["image.E0*"]
         ["image.E01"; "image.E02"] (mk_handle 114 0) all_succeed (fun _ h => h) no_signal.

(** [ewfverify image.E01] where the signal handler can neither be
    attached nor detached. *)
Definition env_no_handler : env :=
  sample_env [] ["image.E01"]
    (fun c => match c with
              | libsystem_signal_attach | libsystem_signal_detach => mk_reply (-1) true
              | _ => all_succeed c
              end)
    no_signal.

(** The state in which [libsystem_initialize] returns (line 164). *)
Definition after_startup_call (e : env) (s : state) : state :=
  after_call e libsystem_initialize
    (log_event (Did (libsystem_notify_set_verbose 1))
       (log_event (Did libsystem_notify_set_stream) s)).

(** The state in which the option loop starts (line 178). *)
Definition at_option_loop (e : env) : state :=
  log_event (Did (ewfoutput_version_fprint program)) (after_startup_call e initial_state).

(** What the option loop has left in the string locals, the quiet flag
    and the verbosity when it ends at line 267: each string local holds
    the argument of the last option of its kind. *)
Definition settled (e : env) (o : options) : Prop :=
  option_header_codepage o = last_optarg "A" (getopt e) None /\
  option_format o = last_optarg "f" (getopt e) None /\
  log_filename o = last_optarg "l" (getopt e) None /\
  option_process_buffer_size o = last_optarg "p" (getopt e) None /\
  print_status_information o = (if existsb (option_is "q") (getopt e) then 0 else 1) /\
  verbose o = flag (existsb (option_is "v") (getopt e)) 0.

(** The file names line 343 opens: the arguments left after the options,
    or what [libsystem_glob_resolve] made of them (lines 287-315). *)
Definition opened_files (e : env) : list string :=
  if LIBSYSTEM_HAVE_GLOB e then remaining e else glob_result e.

(** Lines 349-548: what follows the opening of the segment files. *)
Definition main_after_open (e : env) : M unit :=
  main_open_to_zero e ;; stage_zero_chunk_on_error e ;; stage_process_buffer_size e ;;
  stage_log_open e ;; main_from_verify e.

(** The calls [main] makes on the verification handle it has created. *)
Definition is_handle_use (ev : event) : bool :=
  match ev with
  | Called (verification_handle_open_input _) _
  | Called (verification_handle_set_header_codepage _) _
  | Called (verification_handle_set_format _) _
  | Called (verification_handle_set_zero_chunk_on_error _) _
  | Called (verification_handle_set_process_buffer_size _) _
  | Called (verification_handle_verify_single_files _ _) _
  | Called (verification_handle_verify_input _ _) _
  | Called (verification_handle_close _) _
  | Called (verification_handle_free _) _ => true
  | _ => false
  end.

(** [ewfverify image.E01] where the verification handle cannot be
    created. *)
Definition env_no_handle : env :=
  sample_env [] ["image.E01"]
    (fun c => match c with
              | verification_handle_initialize _ _ _ => mk_reply (-1) true
              | _ => all_succeed c
              end)
    no_signal.

(** The functions of libsystem's own glob (lines 287-315, 361-372 and
    634-641). *)
Definition is_glob_call (ev : event) : bool :=
  match ev with
  | Called libsystem_glob_initialize _
  | Called (libsystem_glob_resolve _) _
  | Called (libsystem_glob_free _) _ => true
  | _ => false
  end.

(** The calls that hand a string option to the library: the three
    setters of the handle and the opening of the log file. *)
Definition is_string_setter (ev : event) : bool :=
  match ev with
  | Called (verification_handle_set_header_codepage _) _
  | Called (verification_handle_set_format _) _
  | Called (verification_handle_set_process_buffer_size _) _
  | Called (log_handle_open _) _ => true
  | _ => false
  end.

(** The string local is the one the call was given. *)
Definition holds (o : option string) (a : string) : bool :=
  match o with
  | Some a' => String.eqb a' a
  | None => false
  end.

(** The events that agree with the option locals [o]: a call that hands
    over a string option hands over the one in [o]. *)
Definition agrees_with (o : options) (ev : event) : bool :=
  match ev with
  | Called (verification_handle_set_header_codepage a) _ => holds (option_header_codepage o) a
  | Called (verification_handle_set_format a) _ => holds (option_format o) a
  | Called (verification_handle_set_process_buffer_size a) _ =>
      holds (option_process_buffer_size o) a
  | Called (log_handle_open a) _ => holds (log_filename o) a
  | _ => true
  end.

(** With the option locals [o], a statement leaves them alone and only
    appends events that agree with them. *)
Definition settled_steps (o : options) (s s' : state) : Prop :=
  opts s = o -> opts s' = o /\ extends (agrees_with o) s s'.

(** Lines 268-372: from the option loop to the first setter. *)
Definition main_options_to_codepage (e : env) : M unit :=
  main_options_to_initialize e ;; main_initialize_to_open e ;;
  stage_abort_check ;; stage_open_check ;; stage_glob_free e.

(** Lines 268-548: what follows the option loop. *)
Definition main_after_options (e : env) : M unit :=
  main_options_to_codepage e ;; stage_header_codepage e ;; stage_format e ;;
  stage_zero_chunk_on_error e ;; stage_process_buffer_size e ;; stage_log_open e ;;
  main_from_verify e.

(** [ewfverify -A ascii -A windows-1252 -p 64 -l a.log -l b.log image.E01]. *)
Definition env_repeated : env :=
  sample_env [mk_getopt "A" "ascii" "ascii"; mk_getopt "A" "windows-1252" "windows-1252";
              mk_getopt "p" "64" "64"; mk_getopt "l" "a.log" "a.log";
              mk_getopt "l" "b.log" "b.log"]
    ["image.E01"] all_succeed no_signal.

(** [ewfverify -w image.E01] where the zero-on-error policy cannot be
    installed. *)
Definition env_zero_fails : env :=
  sample_env [mk_getopt "w" "" "-w"] ["image.E01"]
    (fun c => match c with
              | verification_handle_set_zero_chunk_on_error _ => mk_reply (-1) true
              | _ => all_succeed c
              end)
    no_signal.

(** [ewfverify -p 64 image.E01] where setting the size fails. *)
Definition env_size_fails : env :=
  sample_env [mk_getopt "p" "64" "64"] ["image.E01"]
    (fun c => match c with
              | verification_handle_set_process_buffer_size _ => mk_reply (-1) true
              | _ => all_succeed c
              end)
    no_signal.

(** Releasing the glob at [on_error] (line 638). *)
Definition is_glob_release (ev : event) : bool :=
  match ev with
  | Called (libsystem_glob_free false) _ => true
  | _ => false
  end.

(** [ewfverify image.E0*] in a build without glob support of the
    system, where the pattern cannot be resolved. *)
Definition env_glob_fails : env :=
  mk_env false 9223372036854775807 99 102 102 strncmp [] ["image.E0*"]
         [] (mk_handle 114 0)
         (fun c => match c with
                   | libsystem_glob_resolve _ => mk_reply (-1) true
                   | _ => all_succeed c
                   end)
         (fun _ h => h) no_signal.

(** The calls of the signal handler (lines 98 and 113). *)
Definition is_handler_call (ev : event) : bool :=
  match ev with
  | Called verification_handle_signal_abort _
  | Called (libsystem_file_io_close _) _ => true
  | _ => false
  end.

(** A class of events that holds everything the program prints and every
    procedure call. *)
Definition holds_prints (p : event -> bool) : Prop :=
  (forall st t, p (Fprintf st t) = true) /\ (forall q, p (Did q) = true).

(** The abort flag is clear. *)
Definition clear (a : Z) : Prop := a = 0.

(** [ewfverify -v image.E01]. *)
Definition env_verbose : env :=
  sample_env [mk_getopt "v" "" "-v"] ["image.E01"] all_succeed no_signal.

(** [ewfverify -l verify.log image.E01] where the log cannot be closed
    after the verification. *)
Definition env_log_close_fails : env :=
  sample_env [mk_getopt "l" "verify.log" "verify.log"] ["image.E01"]
    (fun c => match c with
              | log_handle_close _ => mk_reply (-1) true
              | _ => all_succeed c
              end)
    no_signal.

(** Lines 287-548: what follows the setting of the verbosity. *)
Definition verbosity_rest (e : env) : M unit :=
  stage_glob e ;; main_initialize_to_open e ;; main_open_to_zero e ;;
  stage_zero_chunk_on_error e ;; stage_process_buffer_size e ;; stage_log_open e ;;
  main_from_verify e.

(** ** Runs in which nothing else goes wrong *)

(** The calls whose result a run with unsupported option values leaves
    open: the setters of the two string options, which may refuse a
    value, and the drivers. *)
Definition is_degradable (c : call) : bool :=
  match c with
  | verification_handle_set_header_codepage _
  | verification_handle_set_format _
  | verification_handle_verify_single_files _ _
  | verification_handle_verify_input _ _ => true
  | _ => false
  end.

(** A run in which no signal is delivered, file arguments are given, no
    option ends the option loop and every call other than those above
    returns its value of success: 0 for the close functions and 1 for
    the others. *)
Record cooperative (e : env) : Prop := mk_cooperative {
  coop_quiet : forall c, signal_during e c = false;
  coop_files : remaining e <> [];
  coop_options : forallb is_plain_option (getopt e) = true;
  coop_calls : forall c, is_degradable c = false -> ret (extern e c) = ret (all_succeed c)
}.

(** What the setter of a string option returns for the argument of the
    last option of its kind; [None] without such an option, when the
    setter is not called. *)
Definition setter_result (e : env) (key : ascii) (setter : string -> call) : option Z :=
  option_map (fun a => ret (extern e (setter a))) (last_optarg key (getopt e) None).

(** An assumption on the library: the input format of a handle is only
    changed by a call of [verification_handle_set_format] that returns
    1. *)
Definition format_kept (e : env) : Prop :=
  forall c h,
    (forall a, c = verification_handle_set_format a -> ret (extern e c) <> 1) ->
    input_format (on_handle e c h) = input_format h.

(** The handle has the input format of a newly created one. *)
Definition default_format (e : env) (o : option verification_handle) : Prop :=
  exists h, o = Some h /\ input_format h = input_format (new_handle e).

(** Lines 417-477: from the policy to the log file. *)
Definition main_zero_to_verify (e : env) : M unit :=
  stage_zero_chunk_on_error e ;; stage_process_buffer_size e ;; stage_log_open e.

(** Lines 158-372: up to the setter of the header codepage. *)
Definition main_to_codepage (e : env) : M unit :=
  main_to_open e ;; stage_abort_check ;; stage_open_check ;; stage_glob_free e.

(** What the run has printed to stderr. *)
Definition warned (s : state) (text : string) : Prop :=
  In (Fprintf stderr (text +++ nl)) (trace s).

(** [ewfverify -A latin9 -f tar image.E01]: the library does not know
    the code page and fails on the format. *)
Definition env_format_refused : env :=
  sample_env [mk_getopt "A" "latin9" "latin9"; mk_getopt "f" "tar" "tar"] ["image.E01"]
    (fun c => match c with
              | verification_handle_set_header_codepage _ => mk_reply 0 false
              | verification_handle_set_format _ => mk_reply (-1) true
              | _ => all_succeed c
              end)
    no_signal.

(** * Reasoning about runs *)

Lemma neqb_true (a b : Z) : (a != b) = true <-> a <> b.
Proof.
  unfold neqb. destruct (Z.eqb_spec a b); simpl; split; intros; congruence.
Qed.

Lemma neqb_false (a b : Z) : (a != b) = false <-> a = b.
Proof.
  unfold neqb. destruct (Z.eqb_spec a b); simpl; split; intros; congruence.
Qed.

Lemma bind_normal {A B} (m : M A) (k : A -> M B) s a s1 :
  m s = (Normal a, s1) -> bind m k s = k a s1.
Proof. intros H. unfold bind. rewrite H. reflexivity. Qed.

Lemma bind_return {A B} (m : M A) (k : A -> M B) s c s1 :
  m s = (Return c, s1) -> bind m k s = (Return c, s1).
Proof. intros H. unfold bind. rewrite H. reflexivity. Qed.

Lemma bind_goto {A B} (m : M A) (k : A -> M B) s l s1 :
  m s = (Goto l, s1) -> bind m k s = (Goto l, s1).
Proof. intros H. unfold bind. rewrite H. reflexivity. Qed.

Lemma bind_assoc {A B C} (m : M A) (f : A -> M B) (g : B -> M C) s :
  bind (bind m f) g s = bind m (fun a => bind (f a) g) s.
Proof. unfold bind. destruct (m s) as [[a|c|l] s1]; reflexivity. Qed.

(** A statement sequence that ends normally went through each part. *)
Lemma bind_normal_inv {A B} (m : M A) (k : A -> M B) s b s' :
  bind m k s = (Normal b, s') ->
  exists a s1, m s = (Normal a, s1) /\ k a s1 = (Normal b, s').
Proof.
  unfold bind. destruct (m s) as [[a|c|l] s1]; intros H; try discriminate.
  exists a, s1. split; [reflexivity | exact H].
Qed.

(** ** Frame relations *)

Section Steps.

Variable R : state -> state -> Prop.
Hypothesis R_pre : preorder R.

Lemma steps_pure {A} (a : A) : steps R (pure a).
Proof. intros s. apply (pre_refl R R_pre). Qed.

Lemma steps_skip : steps R skip.
Proof. apply steps_pure. Qed.

Lemma steps_goto l : steps R (goto l).
Proof. intros s. apply (pre_refl R R_pre). Qed.

Lemma steps_return c : steps R (return_ c).
Proof. intros s. apply (pre_refl R R_pre). Qed.

Lemma steps_read {A} (f : state -> A) : steps R (read f).
Proof. intros s. apply (pre_refl R R_pre). Qed.

Lemma steps_bind {A B} (m : M A) (k : A -> M B) :
  steps R m -> (forall a, steps R (k a)) -> steps R (bind m k).
Proof.
  intros Hm Hk s. unfold bind. specialize (Hm s).
  destruct (m s) as [[a|c|l] s1]; simpl in *; try exact Hm.
  apply (pre_trans R R_pre _ s1); [exact Hm | apply Hk].
Qed.

Lemma steps_assign (f : state -> state) :
  (forall s, R s (f s)) -> steps R (assign f).
Proof. intros H s. apply H. Qed.

End Steps.

Lemma extends_pre p : preorder (extends p).
Proof.
  split.
  - intros s. exists []. rewrite app_nil_r. split; reflexivity.
  - intros s1 s2 s3 [n1 [E1 F1]] [n2 [E2 F2]]. exists (n1 ++ n2). split.
    + rewrite E2, E1, app_assoc. reflexivity.
    + rewrite forallb_app, F1, F2. reflexivity.
Qed.

Lemma keeps_pre {A} (f : state -> A) (P : A -> Prop) : preorder (keeps f P).
Proof. split; unfold keeps; auto. Qed.

Lemma same_pre {A} (f : state -> A) : preorder (same f).
Proof. split; unfold same; intros; congruence. Qed.

(** ** Single assignments and calls *)

Section Reasoning.

Variable e : env.

Lemma trace_pointer_effect c r s : trace (pointer_effect e c r s) = trace s.
Proof. destruct c; simpl; try reflexivity; destruct (r =? 1); reflexivity. Qed.

Lemma extends_log p ev : p ev = true -> steps (extends p) (assign (log_event ev)).
Proof.
  intros H s. exists [ev]. simpl. rewrite H. split; reflexivity.
Qed.

Lemma extends_quiet p (f : state -> state) :
  (forall s, trace (f s) = trace s) -> steps (extends p) (assign f).
Proof.
  intros H s. exists []. simpl. rewrite H, app_nil_r. split; reflexivity.
Qed.

Lemma extends_raw_call p c :
  p (Called c (ret (extern e c))) = true -> steps (extends p) (raw_call e c).
Proof.
  intros H s. exists [Called c (ret (extern e c))]. simpl.
  rewrite trace_pointer_effect, H. split; reflexivity.
Qed.

Lemma steps_tick R c :
  preorder R -> steps R (ewfverify_signal_handler e) -> steps R (tick e c).
Proof.
  intros HR H s. unfold tick. destruct (signal_during e c); simpl.
  - apply H.
  - apply (pre_refl R HR).
Qed.

End Reasoning.

(** Decomposes a statement along its structure; [prim] closes the goals
    about single assignments and calls. *)
Ltac steps_struct HR prim :=
  repeat match goal with
    | |- steps _ (pure _) => apply (steps_pure _ HR)
    | |- steps _ (goto _) => apply (steps_goto _ HR)
    | |- steps _ (return_ _) => apply (steps_return _ HR)
    | |- steps _ (read _) => apply (steps_read _ HR)
    | |- steps _ (tick _ _) => apply (steps_tick _ _ _ HR)
    | |- steps _ (bind _ _) => apply (steps_bind _ HR); [ | intro ]
    | |- steps _ (if ?b then _ else _) => destruct b
    | |- steps _ (match ?o with Some _ => _ | None => _ end) => destruct o
    | |- steps _ (match ?l with nil => _ | cons _ _ => _ end) => destruct l
    | |- steps _ _ => prim
    end.

Ltac extends_prim :=
  first
    [ apply extends_log; reflexivity
    | apply extends_raw_call; reflexivity
    | apply extends_quiet; intro; reflexivity ].

Ltac open_stages :=
  unfold at_on_abort, at_on_error, on_abort_cleanup, on_error_cleanup, release_error,
    release_log_handle, release_verification_handle, release_glob, stage_startup, stage_files_check, stage_notify, stage_glob,
    stage_handle_initialize, stage_signal_attach, stage_open_input,
    stage_abort_check, stage_open_check, stage_glob_free,
    stage_header_codepage, stage_format, stage_zero_chunk_on_error,
    stage_process_buffer_size, stage_log_open, stage_verify, stage_status,
    stage_log_close, stage_report,
    print_backtrace_and_free, set_option, extcall, fprintf, do, skip.

Section Frames.

Variable e : env.

Lemma handler_extends p :
  (forall r, p (Called verification_handle_signal_abort r) = true) ->
  (forall r, p (Called (libsystem_file_io_close 0) r) = true) ->
  (forall p', p (Did p') = true) ->
  steps (extends p) (ewfverify_signal_handler e).
Proof.
  intros H1 H2 H3. unfold ewfverify_signal_handler. open_stages.
  steps_struct (extends_pre p)
    ltac:(first [ apply extends_log; apply H3
                | apply extends_raw_call; first [apply H1 | apply H2]
                | apply extends_quiet; intro; reflexivity ]).
Qed.

End Frames.

Ltac harmless_tac := split; intros; reflexivity.

Lemma harmless_non_driver : harmless (non is_driver).
Proof. harmless_tac. Qed.

Lemma harmless_non_create : harmless (non is_create_or_open).
Proof. harmless_tac. Qed.

Lemma harmless_non_set_size : harmless (non is_set_process_buffer_size).
Proof. harmless_tac. Qed.

Lemma harmless_non_final_free : harmless (non is_final_free).
Proof. harmless_tac. Qed.

Lemma harmless_any : harmless any_event.
Proof. harmless_tac. Qed.

Ltac extends_with H :=
  first
    [ apply handler_extends;
      [ apply (harmless_signal_abort _ H) | apply (harmless_close_stdin _ H)
      | apply (harmless_did _ H) ]
    | apply extends_log;
      first [ apply (harmless_stderr _ H) | apply (harmless_did _ H) | reflexivity ]
    | apply extends_raw_call; reflexivity
    | apply extends_quiet; intro; reflexivity ].

Ltac extends_auto H :=
  open_stages;
  match goal with
  | |- steps (extends ?p) _ => steps_struct (extends_pre p) ltac:(extends_with H)
  end.

Section StageTraces.

Variable e : env.
Variable p : event -> bool.
Hypothesis Hp : harmless p.

Lemma fprintf_each_extends st texts :
  forallb p (map (Fprintf st) texts) = true -> steps (extends p) (fprintf_each st texts).
Proof.
  induction texts as [|t ts IH]; simpl; intros H.
  - apply (steps_pure _ (extends_pre p)).
  - apply andb_true_iff in H. destruct H as [H1 H2].
    apply (steps_bind _ (extends_pre p)); [|intro; apply IH; exact H2].
    apply extends_log. exact H1.
Qed.

Lemma usage_extends : steps (extends p) (usage_fprint (Some stdout)).
Proof. apply fprintf_each_extends. apply (harmless_usage _ Hp). Qed.

Lemma option_case_extends g : steps (extends p) (option_case e g).
Proof.
  unfold option_case.
  destruct (opt g) as [[] [] [] [] [] [] [] []];
    open_stages;
    steps_struct (extends_pre p) ltac:(first [apply usage_extends | extends_with Hp]).
Qed.

Lemma option_loop_extends gs : steps (extends p) (option_loop e gs).
Proof.
  induction gs as [|g gs IH]; simpl.
  - apply (steps_pure _ (extends_pre p)).
  - apply (steps_bind _ (extends_pre p)); [apply option_case_extends | intro; exact IH].
Qed.

End StageTraces.

Ltac open_blocks :=
  unfold main_to_verify, main_to_log, main_to_size, main_to_zero, main_to_open,
    main_to_initialize, main_body, main_through_options,
    main_options_to_initialize, main_initialize_to_open, main_open_to_zero,
    main_from_verify, stage_options.

(** [frames H] proves that a block of [main] only appends events of a
    class, given that the class is harmless ([H]) and holds the calls
    the block makes. *)
Ltac frames H :=
  open_blocks; open_stages;
  match goal with
  | |- steps (extends ?p) _ =>
      steps_struct (extends_pre p)
        ltac:(first [ apply option_loop_extends; exact H
                    | apply usage_extends; exact H
                    | extends_with H ])
  end.

(** [field_frames] proves that a block leaves a component of the state
    alone, or keeps a property of it. *)
Ltac field_prim :=
  let s := fresh "s" in
  unfold steps; intro s;
  unfold same, keeps, assign, raw_call, pointer_effect, store_process_buffer_size;
  simpl;
  repeat match goal with
         | |- context [if ?b then _ else _] => destruct b; simpl
         end;
  try (destruct (ewfverify_verification_handle s); simpl);
  intros; first [ reflexivity | assumption | congruence ].

Ltac field_struct HR :=
  steps_struct HR
    ltac:(first [ progress (unfold ewfverify_signal_handler; open_stages)
                | field_prim ]).

Section FieldFrames.

Variable e : env.

Lemma usage_same {A} (f : state -> A) st :
  (forall ev s, f (log_event ev s) = f s) -> steps (same f) (usage_fprint st).
Proof.
  intros H. destruct st as [st|]; unfold usage_fprint;
    [|apply (steps_pure _ (same_pre f))].
  induction usage_text as [|t ts IH]; simpl; open_stages;
    steps_struct (same_pre f)
      ltac:(first [exact IH | apply steps_assign; intro; apply H]).
Qed.

Lemma usage_keeps {A} (f : state -> A) P st :
  (forall ev s, f (log_event ev s) = f s) -> steps (keeps f P) (usage_fprint st).
Proof.
  intros H. destruct st as [st|]; unfold usage_fprint;
    [|apply (steps_pure _ (keeps_pre f P))].
  induction usage_text as [|t ts IH]; simpl; open_stages;
    steps_struct (keeps_pre f P)
      ltac:(first [exact IH | apply steps_assign; intro; unfold keeps; rewrite H; auto]).
Qed.

(** The option loop touches nothing but the option locals and the trace. *)
Lemma option_case_keeps {A} (f : state -> A) P g :
  (forall ev s, f (log_event ev s) = f s) ->
  (forall o s, f (set_opts o s) = f s) ->
  steps (keeps f P) (option_case e g).
Proof.
  intros H1 H2. unfold option_case.
  destruct (opt g) as [[] [] [] [] [] [] [] []];
    open_stages;
    steps_struct (keeps_pre f P)
      ltac:(first [ apply usage_keeps; exact H1
                  | apply steps_assign; intro; unfold keeps;
                    first [rewrite H1 | rewrite H2]; auto ]).
Qed.

Lemma option_loop_keeps {A} (f : state -> A) P gs :
  (forall ev s, f (log_event ev s) = f s) ->
  (forall o s, f (set_opts o s) = f s) ->
  steps (keeps f P) (option_loop e gs).
Proof.
  intros H1 H2. induction gs as [|g gs IH]; simpl.
  - apply (steps_pure _ (keeps_pre f P)).
  - apply (steps_bind _ (keeps_pre f P)); [apply option_case_keeps; assumption | intro; exact IH].
Qed.

End FieldFrames.

Ltac keeps_frames :=
  open_blocks; open_stages;
  match goal with
  | |- steps (keeps ?f ?P) _ =>
      steps_struct (keeps_pre f P)
        ltac:(first [ apply option_loop_keeps; intros; reflexivity
                    | apply usage_keeps; intros; reflexivity
                    | progress (unfold ewfverify_signal_handler; open_stages)
                    | field_prim ])
  end.

Ltac same_frames :=
  open_blocks; open_stages;
  match goal with
  | |- steps (same ?f) _ =>
      steps_struct (same_pre f)
        ltac:(first [ apply usage_same; intros; reflexivity
                    | progress (unfold ewfverify_signal_handler; open_stages)
                    | field_prim ])
  end.

Section BlockFrames.

Variable e : env.

(** *** No driver is called outside [stage_verify]. *)

Lemma main_to_verify_no_driver : steps (extends (non is_driver)) (main_to_verify e).
Proof. frames harmless_non_driver. Qed.

Lemma stage_status_no_driver : steps (extends (non is_driver)) (stage_status e).
Proof. frames harmless_non_driver. Qed.

Lemma stage_log_close_no_driver : steps (extends (non is_driver)) (stage_log_close e).
Proof. frames harmless_non_driver. Qed.

Lemma at_on_abort_no_driver : steps (extends (non is_driver)) (at_on_abort e).
Proof. frames harmless_non_driver. Qed.

Lemma at_on_error_no_driver : steps (extends (non is_driver)) (at_on_error e).
Proof. frames harmless_non_driver. Qed.

(** *** The abort flag is never cleared. *)

Lemma main_body_abort : steps (keeps ewfverify_abort nonzero) (main_body e).
Proof. keeps_frames. Qed.

Lemma at_on_abort_abort : steps (keeps ewfverify_abort nonzero) (at_on_abort e).
Proof. keeps_frames. Qed.

End BlockFrames.

(** ** Splitting [main] at a line *)

Lemma bind_ext {A B} (m : M A) (k k' : A -> M B) s :
  (forall a s1, k a s1 = k' a s1) -> bind m k s = bind m k' s.
Proof. intros H. unfold bind. destruct (m s) as [[a|c|l] s1]; auto. Qed.

Ltac reassociate :=
  repeat first
    [ reflexivity
    | rewrite bind_assoc
    | apply bind_ext; intros ? ? ].

Section Splits.

Variable e : env.

Lemma main_body_at_files_check s :
  main_body e s =
  (main_through_options e ;; main_options_to_initialize e ;; main_initialize_to_open e ;;
   main_open_to_zero e ;; stage_zero_chunk_on_error e ;; stage_process_buffer_size e ;;
   stage_log_open e ;; main_from_verify e) s.
Proof. reflexivity. Qed.

Lemma main_body_at_initialize s :
  main_body e s =
  (main_to_initialize e ;; main_initialize_to_open e ;;
   main_open_to_zero e ;; stage_zero_chunk_on_error e ;; stage_process_buffer_size e ;;
   stage_log_open e ;; main_from_verify e) s.
Proof. unfold main_body, main_to_initialize. reassociate. Qed.

Lemma main_body_at_open s :
  main_body e s =
  (main_to_open e ;;
   main_open_to_zero e ;; stage_zero_chunk_on_error e ;; stage_process_buffer_size e ;;
   stage_log_open e ;; main_from_verify e) s.
Proof. rewrite main_body_at_initialize. unfold main_to_open. reassociate. Qed.

Lemma main_body_at_zero s :
  main_body e s =
  (main_to_zero e ;; stage_zero_chunk_on_error e ;; stage_process_buffer_size e ;;
   stage_log_open e ;; main_from_verify e) s.
Proof. rewrite main_body_at_open. unfold main_to_zero. reassociate. Qed.

Lemma main_body_at_size s :
  main_body e s =
  (main_to_size e ;; stage_process_buffer_size e ;; stage_log_open e ;; main_from_verify e) s.
Proof. rewrite main_body_at_zero. unfold main_to_size. reassociate. Qed.

Lemma main_body_at_log s :
  main_body e s = (main_to_log e ;; stage_log_open e ;; main_from_verify e) s.
Proof. rewrite main_body_at_size. unfold main_to_log. reassociate. Qed.

Lemma main_body_at_verify s :
  main_body e s = (main_to_verify e ;; main_from_verify e) s.
Proof. rewrite main_body_at_log. unfold main_to_verify. reassociate. Qed.

(** *** How the jumps are resolved *)

Lemma run_ext (m m' : M unit) s :
  (forall s0, m s0 = m' s0) -> run e m s = run e m' s.
Proof. intros H. unfold run. rewrite H. reflexivity. Qed.

Lemma run_bind_normal (m k : M unit) s s1 :
  m s = (Normal tt, s1) -> run e (m ;; k) s = run e k s1.
Proof. intros H. unfold run. rewrite (bind_normal _ _ _ _ _ H). reflexivity. Qed.

Lemma run_bind_goto (m k : M unit) s l s1 :
  m s = (Goto l, s1) ->
  run e (m ;; k) s =
  match l with on_error => from_on_error e s1 | on_abort => from_on_abort e s1 end.
Proof. intros H. unfold run. rewrite (bind_goto _ _ _ _ _ H). destruct l; reflexivity. Qed.

Lemma run_bind_return (m k : M unit) s c s1 :
  m s = (Return c, s1) -> run e (m ;; k) s = (c, s1).
Proof. intros H. unfold run. rewrite (bind_return _ _ _ _ _ H). reflexivity. Qed.

Lemma falls_bind {A B} (m : M A) (k : A -> M B) :
  falls_through m -> (forall a, falls_through (k a)) -> falls_through (bind m k).
Proof.
  intros Hm Hk s. destruct (Hm s) as [a Ha]. unfold bind.
  destruct (m s) as [o s1]. simpl in Ha. subst o. apply Hk.
Qed.

Lemma falls_simple {A} (f : state -> A) (g : state -> state) :
  falls_through (fun s => (Normal (f s), g s)).
Proof. intros s. exists (f s). reflexivity. Qed.

Lemma falls_tick c : falls_through (tick e c).
Proof. intros s. exists tt. unfold tick. destruct (signal_during e c); reflexivity. Qed.

Lemma falls_raw_call c : falls_through (raw_call e c).
Proof. intros s. exists (ret (extern e c)). reflexivity. Qed.

Lemma falls_extcall c : falls_through (extcall e c).
Proof. apply falls_bind; [apply falls_tick | intro; apply falls_raw_call]. Qed.

Ltac falls_struct :=
  repeat match goal with
    | |- falls_through (bind _ _) => apply falls_bind; [ | intro ]
    | |- falls_through (extcall _ _) => apply falls_extcall
    | |- falls_through (if ?b then _ else _) => destruct b
    | |- falls_through (match ?o with Some _ => _ | None => _ end) => destruct o
    | |- falls_through (pure ?a) => apply (falls_simple (fun _ => a) (fun s => s))
    | |- falls_through (read ?f) => apply (falls_simple f (fun s => s))
    | |- falls_through (assign ?g) => apply (falls_simple (fun _ => tt) g)
    end.

Lemma release_error_falls : falls_through (release_error).
Proof. unfold release_error, print_backtrace_and_free, do, skip. falls_struct. Qed.

Lemma release_log_handle_falls : falls_through (release_log_handle e).
Proof. unfold release_log_handle, skip. falls_struct. Qed.

Lemma release_verification_handle_falls : falls_through (release_verification_handle e).
Proof. unfold release_verification_handle, skip. falls_struct. Qed.

Lemma release_glob_falls : falls_through (release_glob e).
Proof. unfold release_glob, skip. falls_struct. Qed.

Lemma on_error_cleanup_falls : falls_through (on_error_cleanup e).
Proof.
  unfold on_error_cleanup.
  apply falls_bind; [apply release_error_falls | intro].
  apply falls_bind; [apply release_log_handle_falls | intro].
  apply falls_bind; [apply release_verification_handle_falls | intro].
  apply release_glob_falls.
Qed.

Lemma falls_eq (m : M unit) s : falls_through m -> m s = (Normal tt, snd (m s)).
Proof.
  intros H. destruct (H s) as [[] Ha]. destruct (m s) as [o s1]. simpl in *. subst o.
  reflexivity.
Qed.

Lemma from_on_error_eq s :
  from_on_error e s = (EXIT_FAILURE, snd (on_error_cleanup e s)).
Proof.
  unfold from_on_error, at_on_error, bind.
  destruct (on_error_cleanup_falls s) as [[] H].
  destruct (on_error_cleanup e s) as [o s1]. simpl in *. subst o. reflexivity.
Qed.

End Splits.

(** ** The trace after several events *)

Lemma trace_log_events evs s : trace (log_events evs s) = trace s ++ evs.
Proof. reflexivity. Qed.

Lemma trace_log_event ev s : trace (log_event ev s) = trace s ++ [ev].
Proof. reflexivity. Qed.

Lemma trace_set_error b s : trace (set_error b s) = trace s.
Proof. reflexivity. Qed.

Lemma log_events_nil s : log_events [] s = s.
Proof. destruct s. unfold log_events. simpl. rewrite app_nil_r. reflexivity. Qed.

Lemma log_events_cons ev evs s : log_events (ev :: evs) s = log_events evs (log_event ev s).
Proof. destruct s. unfold log_events, log_event. simpl. rewrite <- app_assoc. reflexivity. Qed.

Lemma fprintf_each_eq st texts s :
  fprintf_each st texts s = (Normal tt, log_events (map (Fprintf st) texts) s).
Proof.
  revert s. induction texts as [|t ts IH]; intros s.
  - simpl map. rewrite log_events_nil. reflexivity.
  - simpl map. rewrite log_events_cons. simpl fprintf_each.
    unfold bind, fprintf, assign. apply IH.
Qed.

Lemma usage_fprint_eq st s :
  usage_fprint (Some st) s = (Normal tt, log_events (usage_events st) s).
Proof. apply fprintf_each_eq. Qed.

Lemma filter_extends p s s' :
  extends (non p) s s' -> filter p (trace s') = filter p (trace s).
Proof.
  intros [new [E F]]. rewrite E, filter_app.
  replace (filter p new) with (@nil event); [apply app_nil_r|].
  clear E. induction new as [|ev new IH]; [reflexivity|].
  simpl in *. apply andb_true_iff in F. destruct F as [F1 F2].
  unfold non in F1. apply negb_true_iff in F1. rewrite F1. auto.
Qed.

Section NoFiles.

Variable e : env.

Lemma through_options_no_create :
  steps (extends (non is_create_or_open)) (main_through_options e).
Proof. frames harmless_non_create. Qed.

Lemma through_options_null :
  steps (keeps ewfverify_verification_handle null) (main_through_options e).
Proof. keeps_frames. Qed.

Lemma through_options_no_log :
  steps (keeps log_handle unset) (main_through_options e).
Proof. keeps_frames. Qed.

Lemma through_options_no_glob :
  steps (keeps glob unset) (main_through_options e).
Proof. keeps_frames. Qed.

Lemma files_check_missing s :
  remaining e = [] ->
  stage_files_check e s =
  (Goto on_error,
   log_events (usage_events stdout)
     (log_event (Fprintf stderr ("Missing EWF image file(s)." +++ nl)) s)).
Proof.
  intros H. unfold stage_files_check. rewrite H.
  unfold fprintf, assign, bind at 1. unfold bind. rewrite usage_fprint_eq. reflexivity.
Qed.

(** With no handle, log handle or glob to release, [on_error] only
    prints the pending error, if there is one. *)
Lemma cleanup_nothing_to_release s :
  ewfverify_verification_handle s = None -> log_handle s = false -> glob s = false ->
  snd (on_error_cleanup e s) =
  if error s
  then set_error false
         (log_events [Did libsystem_notify_print_error_backtrace; Did liberror_error_free] s)
  else s.
Proof.
  intros Hh Hl Hg. destruct s as [h a er g lh o fs r st t]. simpl in *. subst.
  unfold on_error_cleanup, release_error, release_log_handle,
    release_verification_handle, release_glob,
    print_backtrace_and_free, do, skip, read, assign, pure, bind.
  simpl. destruct er; destruct (LIBSYSTEM_HAVE_GLOB e); simpl;
    unfold log_events, set_error, log_event; simpl; rewrite <- ?app_assoc; reflexivity.
Qed.

End NoFiles.

(** C9: invoked with no segment file left after the option loop, the
    program prints an error and the usage text and exits with failure
    status; no verification handle is created and no file is opened in
    the whole run. *)
Theorem no_files_is_an_error (e : env) (s : state) :
  remaining e = [] ->
  main_through_options e initial_state = (Normal tt, s) ->
  exists s' tail,
    main e = (EXIT_FAILURE, s') /\
    trace s' =
      trace s ++ Fprintf stderr ("Missing EWF image file(s)." +++ nl)
              :: usage_events stdout ++ tail /\
    filter is_create_or_open (trace s') = [] /\
    ewfverify_verification_handle s' = None.
Proof.
  intros Hrem Hopt.
  pose proof (through_options_no_create e initial_state) as Hc.
  pose proof (through_options_null e initial_state) as Hh.
  pose proof (through_options_no_log e initial_state) as Hl.
  pose proof (through_options_no_glob e initial_state) as Hg.
  rewrite Hopt in Hc, Hh, Hl, Hg. simpl in Hc, Hh, Hl, Hg.
  apply filter_extends in Hc. simpl in Hc.
  specialize (Hh eq_refl). specialize (Hl eq_refl). specialize (Hg eq_refl).
  unfold null in Hh. unfold unset in Hl, Hg.
  set (s2 := log_events (usage_events stdout)
               (log_event (Fprintf stderr ("Missing EWF image file(s)." +++ nl)) s)).
  assert (Hmain : main e = (EXIT_FAILURE, snd (on_error_cleanup e s2))).
  { unfold main, main_body.
    rewrite (run_bind_normal e _ _ _ _ Hopt).
    unfold main_options_to_initialize.
    erewrite run_bind_goto.
    2:{ erewrite bind_goto; [reflexivity | apply files_check_missing; exact Hrem]. }
    apply from_on_error_eq. }
  rewrite cleanup_nothing_to_release in Hmain by assumption.
  change (error s2) with (error s) in Hmain.
  assert (Ht : trace s2 =
               trace s ++ Fprintf stderr ("Missing EWF image file(s)." +++ nl)
                       :: usage_events stdout ++ []).
  { unfold s2. rewrite trace_log_events, trace_log_event, <- app_assoc, app_nil_r.
    reflexivity. }
  assert (Hf : filter is_create_or_open (trace s2) = []).
  { unfold s2. rewrite trace_log_events, trace_log_event, !filter_app, Hc.
    unfold usage_events. clear. induction usage_text; simpl; auto. }
  destruct (error s).
  - eexists. exists [Did libsystem_notify_print_error_backtrace; Did liberror_error_free].
    split; [exact Hmain|].
    rewrite trace_set_error, trace_log_events.
    split; [|split; [|exact Hh]].
    + rewrite Ht, app_nil_r, <- app_assoc. reflexivity.
    + rewrite filter_app, Hf. reflexivity.
  - exists s2, []. split; [exact Hmain|]. split; [exact Ht|]. split; [exact Hf|exact Hh].
Qed.

(** ** Events of a whole run *)

Section RunFrames.

Variable e : env.
Variable p : event -> bool.
Hypothesis abort_frames : steps (extends p) (at_on_abort e).
Hypothesis error_frames : steps (extends p) (at_on_error e).

Lemma from_on_error_extends s : extends p s (snd (from_on_error e s)).
Proof.
  unfold from_on_error, finish. specialize (error_frames s).
  destruct (at_on_error e s) as [[[]|c|l] s1]; exact error_frames.
Qed.

Lemma from_on_abort_extends s : extends p s (snd (from_on_abort e s)).
Proof.
  unfold from_on_abort. specialize (abort_frames s).
  destruct (at_on_abort e s) as [[[]|c|l] s1]; simpl in *; try exact abort_frames;
    apply (pre_trans _ (extends_pre p) _ s1); try exact abort_frames;
    apply from_on_error_extends.
Qed.

Lemma run_extends (m : M unit) s :
  steps (extends p) m -> extends p s (snd (run e m s)).
Proof.
  intros Hm. unfold run. specialize (Hm s).
  destruct (m s) as [[[]|c|[]] s1]; simpl in *; try exact Hm;
    apply (pre_trans _ (extends_pre p) _ s1); try exact Hm;
    first [apply from_on_error_extends | apply from_on_abort_extends].
Qed.

(** A run whose first part does not end normally never enters the
    second part. *)
Lemma run_bind_exit (m k : M unit) s :
  fst (m s) <> Normal tt -> run e (m ;; k) s = run e m s.
Proof.
  intros H. unfold run, bind. destruct (m s) as [[[]|c|l] s1]; simpl in *;
    [congruence | reflexivity | reflexivity].
Qed.

End RunFrames.

(** ** The comparison of option arguments *)

Lemma char_code_inj c1 c2 : char_code c1 = char_code c2 -> c1 = c2.
Proof.
  unfold char_code. intros H. apply N2Z.inj in H.
  rewrite <- (ascii_N_embedding c1), <- (ascii_N_embedding c2), H. reflexivity.
Qed.

(** Against a literal without the character 0, the length-limited
    comparison over the length of the literal yields 0 exactly on the
    strings that start with the literal. *)
Lemma compare_literal_prefix (lit s : string) :
  (forall c, char_code c = 0 -> ~ In c (list_ascii_of_string lit)) ->
  strncmp s lit (String.length lit) = 0 <->
  String.prefix lit s = true.
Proof.
  revert s. induction lit as [|c lit IH]; intros s Hnz.
  - simpl. destruct s; split; reflexivity.
  - assert (Hc : char_code c <> 0).
    { intros H0. apply (Hnz c H0). simpl. left. reflexivity. }
    assert (Hl : forall c', char_code c' = 0 -> ~ In c' (list_ascii_of_string lit)).
    { intros c' H0 Hin. apply (Hnz c' H0). simpl. right. exact Hin. }
    destruct s as [|c1 r].
    + simpl. split; [intros H; lia | discriminate].
    + simpl String.length.
      change (strncmp (String c1 r) (String c lit) (S (String.length lit)))
        with (if Ascii.eqb c1 c
              then strncmp r lit (String.length lit)
              else char_code c1 - char_code c).
      simpl String.prefix. destruct (Ascii.eqb_spec c1 c) as [->|Hne].
      * destruct (ascii_dec c c) as [_|Hcc]; [|congruence]. apply IH. exact Hl.
      * destruct (ascii_dec c c1) as [Heq|_]; [congruence|].
        split; [|discriminate]. intros H. exfalso. apply Hne. apply char_code_inj. lia.
Qed.

Lemma compare_sha1 s :
  strncmp s "sha1" 4 = 0 <-> String.prefix "sha1" s = true.
Proof.
  apply (compare_literal_prefix "sha1").
  intros c Hc Hin. simpl in Hin.
  repeat (destruct Hin as [<-|Hin]; [discriminate Hc|]). exact Hin.
Qed.

Lemma compare_sha256 s :
  strncmp s "sha256" 6 = 0 <-> String.prefix "sha256" s = true.
Proof.
  apply (compare_literal_prefix "sha256").
  intros c Hc Hin. simpl in Hin.
  repeat (destruct Hin as [<-|Hin]; [discriminate Hc|]). exact Hin.
Qed.

(** A string that starts with "sha256" does not start with "sha1". *)
Lemma prefix_sha256_not_sha1 s :
  String.prefix "sha256" s = true -> String.prefix "sha1" s = false.
Proof.
  destruct s as [|c1 [|c2 [|c3 [|c4 r]]]]; simpl; try discriminate;
    repeat match goal with
           | |- context [ascii_dec ?a ?b] =>
               destruct (ascii_dec a b); subst; try discriminate
           end; auto.
Qed.

(** ** What the option loop leaves in the locals *)

Lemma option_case_fields e g s s' :
  option_case e g s = (Normal tt, s') ->
  calculate_md5 (opts s') = calculate_md5 (opts s) /\
  calculate_sha1 (opts s') = flag (selects_sha1 e g) (calculate_sha1 (opts s)) /\
  calculate_sha256 (opts s') = flag (selects_sha256 e g) (calculate_sha256 (opts s)) /\
  zero_chunk_on_error (opts s') = flag (option_is "w" g) (zero_chunk_on_error (opts s)) /\
  (option_is "p" g = false ->
   option_process_buffer_size (opts s') = option_process_buffer_size (opts s)).
Proof.
  unfold option_case, selects_sha1, selects_sha256, option_is, flag. intros H.
  destruct (opt g) as [[] [] [] [] [] [] [] []];
    repeat match type of H with
           | context [if ?b then _ else _] => destruct b
           end;
    cbv beta iota delta [bind fprintf do assign return_ goto set_option] in H;
    try (rewrite usage_fprint_eq in H; cbv beta iota in H);
    try discriminate H;
    inversion H; subst; clear H; simpl; repeat split; auto; discriminate.
Qed.

Lemma option_loop_fields e gs : forall s s',
  option_loop e gs s = (Normal tt, s') ->
  calculate_md5 (opts s') = calculate_md5 (opts s) /\
  calculate_sha1 (opts s') = flag (existsb (selects_sha1 e) gs) (calculate_sha1 (opts s)) /\
  calculate_sha256 (opts s') = flag (existsb (selects_sha256 e) gs) (calculate_sha256 (opts s)) /\
  zero_chunk_on_error (opts s') =
    flag (existsb (option_is "w") gs) (zero_chunk_on_error (opts s)) /\
  (existsb (option_is "p") gs = false ->
   option_process_buffer_size (opts s') = option_process_buffer_size (opts s)).
Proof.
  induction gs as [|g gs IH]; intros s s' H.
  - simpl in H. inversion H; subst. simpl. repeat split; auto.
  - simpl in H. apply bind_normal_inv in H. destruct H as [[] [s1 [H1 H2]]].
    apply option_case_fields in H1. apply IH in H2.
    destruct H1 as (A1 & A2 & A3 & A4 & A5). destruct H2 as (B1 & B2 & B3 & B4 & B5).
    simpl existsb. unfold flag in *.
    repeat split.
    + congruence.
    + rewrite B2, A2. destruct (selects_sha1 e g), (existsb (selects_sha1 e) gs); reflexivity.
    + rewrite B3, A3. destruct (selects_sha256 e g), (existsb (selects_sha256 e) gs); reflexivity.
    + rewrite B4, A4. destruct (option_is "w" g), (existsb (option_is "w") gs); reflexivity.
    + intros Hp. apply orb_false_iff in Hp. destruct Hp as [Hp1 Hp2].
      rewrite (B5 Hp2). apply A5. exact Hp1.
Qed.

(** ** External calls, step by step *)

Lemma harmless_non_initialize : harmless (non is_initialize).
Proof. harmless_tac. Qed.

Section Calls.

Variable e : env.

Lemma extcall_eq c s :
  extcall e c s = (Normal (ret (extern e c)), after_call e c s).
Proof.
  unfold extcall, after_call, bind, tick.
  destruct (signal_during e c); reflexivity.
Qed.

Lemma bind_extcall {B} c (k : Z -> M B) s :
  bind (extcall e c) k s = k (ret (extern e c)) (after_call e c s).
Proof. apply bind_normal. apply extcall_eq. Qed.

Lemma tick_extends p c : harmless p -> steps (extends p) (tick e c).
Proof.
  intros H. apply steps_tick; [apply extends_pre|].
  apply handler_extends; intros; apply H.
Qed.

Lemma trace_after_call c s :
  trace (after_call e c s) = trace (snd (tick e c s)) ++ [Called c (ret (extern e c))].
Proof. unfold after_call, raw_call. simpl. rewrite trace_pointer_effect. reflexivity. Qed.

(** Among the events of a class [q] that the handler does not produce,
    a call adds itself, if it is in the class, and nothing else. *)
Lemma filter_after_call q c s :
  harmless (non q) ->
  filter q (trace (after_call e c s)) =
  filter q (trace s) ++ filter q [Called c (ret (extern e c))].
Proof.
  intros H. rewrite trace_after_call, filter_app.
  rewrite (filter_extends q s (snd (tick e c s))); [reflexivity|].
  apply tick_extends. exact H.
Qed.

Lemma extends_after_call p c s :
  harmless p -> p (Called c (ret (extern e c))) = true -> extends p s (after_call e c s).
Proof.
  intros H Hc.
  pose proof (steps_bind _ (extends_pre p) (tick e c) (fun _ => raw_call e c)
                (tick_extends p c H) (fun _ => extends_raw_call e p c Hc) s) as Hs.
  fold (extcall e c) in Hs. rewrite extcall_eq in Hs. exact Hs.
Qed.

End Calls.

(** ** The option locals after the loop *)

Lemma normal_same {A} (f : state -> A) (m k : M unit) s s' :
  steps (same f) k ->
  (m ;; k) s = (Normal tt, s') ->
  exists s1, m s = (Normal tt, s1) /\ f s' = f s1.
Proof.
  intros Hk H. apply bind_normal_inv in H. destruct H as [[] [s1 [H1 H2]]].
  exists s1. split; [exact H1|]. specialize (Hk s1). rewrite H2 in Hk. exact Hk.
Qed.

Section Parsed.

Variable e : env.

Lemma stage_startup_opts : steps (same opts) (stage_startup e).
Proof. same_frames. Qed.

Lemma options_to_initialize_opts : steps (same opts) (main_options_to_initialize e).
Proof. same_frames. Qed.

Lemma initialize_to_open_opts : steps (same opts) (main_initialize_to_open e).
Proof. same_frames. Qed.

Lemma open_to_zero_opts : steps (same opts) (main_open_to_zero e).
Proof. same_frames. Qed.

Lemma stage_zero_opts : steps (same opts) (stage_zero_chunk_on_error e).
Proof. same_frames. Qed.

Lemma stage_size_opts : steps (same opts) (stage_process_buffer_size e).
Proof. same_frames. Qed.

Lemma stage_log_open_opts : steps (same opts) (stage_log_open e).
Proof. same_frames. Qed.

Lemma parsed_through_options s :
  main_through_options e initial_state = (Normal tt, s) -> parsed e (opts s).
Proof.
  intros H. unfold main_through_options in H.
  apply bind_normal_inv in H. destruct H as [[] [s0 [H0 H1]]].
  pose proof (stage_startup_opts initial_state) as Hs. rewrite H0 in Hs.
  unfold same in Hs. simpl in Hs.
  apply option_loop_fields in H1. rewrite Hs in H1. simpl in H1.
  destruct H1 as (A1 & A2 & A3 & A4 & A5). repeat split; assumption.
Qed.

Lemma parsed_at_initialize s :
  main_to_initialize e initial_state = (Normal tt, s) -> parsed e (opts s).
Proof.
  intros H. apply (normal_same opts) in H; [|apply options_to_initialize_opts].
  destruct H as [s1 [H1 E]]. rewrite E. apply parsed_through_options. exact H1.
Qed.

Lemma parsed_at_open s :
  main_to_open e initial_state = (Normal tt, s) -> parsed e (opts s).
Proof.
  intros H. apply (normal_same opts) in H; [|apply initialize_to_open_opts].
  destruct H as [s1 [H1 E]]. rewrite E. apply parsed_at_initialize. exact H1.
Qed.

Lemma parsed_at_zero s :
  main_to_zero e initial_state = (Normal tt, s) -> parsed e (opts s).
Proof.
  intros H. apply (normal_same opts) in H; [|apply open_to_zero_opts].
  destruct H as [s1 [H1 E]]. rewrite E. apply parsed_at_open. exact H1.
Qed.

Lemma parsed_at_size s :
  main_to_size e initial_state = (Normal tt, s) -> parsed e (opts s).
Proof.
  intros H. apply (normal_same opts) in H; [|apply stage_zero_opts].
  destruct H as [s1 [H1 E]]. rewrite E. apply parsed_at_zero. exact H1.
Qed.

End Parsed.

(** ** The creation of the handle *)

Section RunFilter.

Variable e : env.
Variable q : event -> bool.
Hypothesis abort_frames : steps (extends (non q)) (at_on_abort e).
Hypothesis error_frames : steps (extends (non q)) (at_on_error e).

(** When nothing after [m] produces an event of the class [q], the
    events of the class in the whole run are those [m] leaves. *)
Lemma run_bind_filter (m k : M unit) s :
  steps (extends (non q)) k ->
  filter q (trace (snd (run e (m ;; k) s))) = filter q (trace (snd (m s))).
Proof.
  intros Hk. unfold run, bind.
  destruct (m s) as [[[]|c|[]] s1]; simpl; try reflexivity; apply filter_extends.
  - apply (run_extends e (non q) abort_frames error_frames k s1 Hk).
  - apply from_on_error_extends. exact error_frames.
  - apply from_on_abort_extends; assumption.
Qed.

Lemma run_filter (m : M unit) s :
  steps (extends (non q)) m ->
  filter q (trace (snd (run e m s))) = filter q (trace s).
Proof.
  intros Hm. apply filter_extends.
  apply (run_extends e (non q) abort_frames error_frames m s Hm).
Qed.

End RunFilter.

Section Initialize.

Variable e : env.

Lemma to_initialize_no_initialize :
  steps (extends (non is_initialize)) (main_to_initialize e).
Proof. frames harmless_non_initialize. Qed.

Lemma after_initialize_no_initialize :
  steps (extends (non is_initialize)) (main_after_initialize e).
Proof. unfold main_after_initialize. frames harmless_non_initialize. Qed.

Lemma at_on_abort_no_initialize : steps (extends (non is_initialize)) (at_on_abort e).
Proof. frames harmless_non_initialize. Qed.

Lemma at_on_error_no_initialize : steps (extends (non is_initialize)) (at_on_error e).
Proof. frames harmless_non_initialize. Qed.

Lemma main_body_around_initialize s :
  main_body e s =
  (main_to_initialize e ;; stage_handle_initialize e ;; main_after_initialize e) s.
Proof.
  rewrite main_body_at_initialize.
  unfold main_initialize_to_open, main_after_initialize. reassociate.
Qed.

Lemma stage_handle_initialize_calls s :
  filter is_initialize (trace (snd (stage_handle_initialize e s))) =
  filter is_initialize (trace s) ++
  [Called (verification_handle_initialize
             (calculate_md5 (opts s)) (calculate_sha1 (opts s)) (calculate_sha256 (opts s)))
          (ret (extern e (verification_handle_initialize
             (calculate_md5 (opts s)) (calculate_sha1 (opts s)) (calculate_sha256 (opts s)))))].
Proof.
  unfold stage_handle_initialize. unfold bind at 1. unfold read.
  rewrite bind_extcall.
  match goal with |- context [if ?b then _ else _] => destruct b end.
  - unfold bind, fprintf, assign, goto. simpl snd.
    rewrite trace_log_event, filter_app.
    rewrite (filter_after_call e is_initialize _ _ harmless_non_initialize).
    simpl. rewrite app_nil_r. reflexivity.
  - unfold skip, pure. simpl snd.
    rewrite (filter_after_call e is_initialize _ _ harmless_non_initialize).
    reflexivity.
Qed.

(** The creations of the handle in a whole run: none when the run ends
    before line 317, else the one of that line. *)
Lemma initialize_calls_of_main :
  filter is_initialize (trace (snd (main e))) = [] \/
  exists s,
    main_to_initialize e initial_state = (Normal tt, s) /\
    filter is_initialize (trace (snd (main e))) =
    [Called (verification_handle_initialize
               (calculate_md5 (opts s)) (calculate_sha1 (opts s)) (calculate_sha256 (opts s)))
            (ret (extern e (verification_handle_initialize
               (calculate_md5 (opts s)) (calculate_sha1 (opts s))
               (calculate_sha256 (opts s)))))].
Proof.
  unfold main. rewrite (run_ext e _ _ _ main_body_around_initialize).
  destruct (main_to_initialize e initial_state) as [o s] eqn:E.
  assert (Hpre : filter is_initialize (trace s) = []).
  { pose proof (to_initialize_no_initialize initial_state) as H. rewrite E in H.
    apply filter_extends in H. exact H. }
  destruct o as [[]|c|l].
  - right. exists s. split; [reflexivity|].
    rewrite (run_bind_normal e _ _ _ _ E).
    rewrite (run_bind_filter e is_initialize at_on_abort_no_initialize
               at_on_error_no_initialize).
    + rewrite stage_handle_initialize_calls, Hpre. reflexivity.
    + apply after_initialize_no_initialize.
  - left. rewrite run_bind_exit by (rewrite E; discriminate).
    rewrite (run_filter e is_initialize at_on_abort_no_initialize at_on_error_no_initialize).
    + reflexivity.
    + apply to_initialize_no_initialize.
  - left. rewrite run_bind_exit by (rewrite E; discriminate).
    rewrite (run_filter e is_initialize at_on_abort_no_initialize at_on_error_no_initialize).
    + reflexivity.
    + apply to_initialize_no_initialize.
Qed.

End Initialize.

(** The [-d] options that select a digest are those whose argument
    starts with the name of the digest. *)
Lemma selects_sha1_iff e g :
  libc_strings e ->
  selects_sha1 e g = true <-> opt g = "d"%char /\ String.prefix "sha1" (optarg g) = true.
Proof.
  intros Hlibc.
  unfold selects_sha1, option_is. rewrite Hlibc, andb_true_iff, Z.eqb_eq, compare_sha1.
  destruct (Ascii.eqb_spec (opt g) "d"); split; intros [A B]; split; auto; discriminate.
Qed.

Lemma selects_sha256_iff e g :
  libc_strings e ->
  selects_sha256 e g = true <-> opt g = "d"%char /\ String.prefix "sha256" (optarg g) = true.
Proof.
  intros Hlibc.
  unfold selects_sha256, option_is.
  rewrite !Hlibc, !andb_true_iff, negb_true_iff, Z.eqb_eq, compare_sha256.
  destruct (Ascii.eqb_spec (opt g) "d"); split.
  - intros [[A B] C]. auto.
  - intros [A B]. repeat split; auto.
    apply prefix_sha256_not_sha1 in B.
    destruct (Z.eqb_spec (strncmp (optarg g) "sha1" 4) 0) as [E|E];
      [|reflexivity].
    apply compare_sha1 in E. congruence.
  - intros [[A B] C]. discriminate.
  - intros [A B]. congruence.
Qed.

Lemma flag_existsb {A} (f : A -> bool) (l : list A) (P : A -> Prop) :
  (forall x, f x = true <-> P x) ->
  (flag (existsb f l) 0 = 1 <-> exists x, In x l /\ P x) /\
  (flag (existsb f l) 0 = 0 \/ flag (existsb f l) 0 = 1).
Proof.
  intros H. unfold flag. destruct (existsb f l) eqn:E.
  - split; [|right; reflexivity]. split; [|reflexivity]. intros _.
    apply existsb_exists in E. destruct E as [x [Hin Hx]]. exists x. split; [exact Hin|].
    apply H. exact Hx.
  - split; [|left; reflexivity]. split; [discriminate|].
    intros [x [Hin Hx]]. apply H in Hx.
    assert (existsb f l = true) by (apply existsb_exists; eauto). congruence.
Qed.

(** C3 (amended): whenever the verification handle is created, MD5 is
    enabled, SHA-1 is enabled if and only if some [-d] option has an
    argument that starts with "sha1", and SHA-256 if and only if some
    [-d] option has an argument that starts with "sha256"; the call has
    no other digest flag.  The string compare macro is taken to be the
    length-limited comparison of the C library. *)
Theorem handle_digest_flags (e : env) (md5 sha1 sha256 r : Z) :
  libc_strings e ->
  In (Called (verification_handle_initialize md5 sha1 sha256) r) (trace (snd (main e))) ->
  md5 = 1 /\
  (sha1 = 1 <->
   exists g, In g (getopt e) /\ opt g = "d"%char /\ String.prefix "sha1" (optarg g) = true) /\
  (sha1 = 0 \/ sha1 = 1) /\
  (sha256 = 1 <->
   exists g, In g (getopt e) /\ opt g = "d"%char /\ String.prefix "sha256" (optarg g) = true) /\
  (sha256 = 0 \/ sha256 = 1).
Proof.
  intros Hlibc Hin.
  assert (Hf : In (Called (verification_handle_initialize md5 sha1 sha256) r)
                  (filter is_initialize (trace (snd (main e))))).
  { apply filter_In. split; [exact Hin | reflexivity]. }
  destruct (initialize_calls_of_main e) as [Hnone | [s [Hs Hone]]].
  - rewrite Hnone in Hf. destruct Hf.
  - rewrite Hone in Hf. destruct Hf as [Heq | []].
    inversion Heq; subst; clear Heq.
    destruct (parsed_at_initialize e s Hs) as (P1 & P2 & P3 & _).
    rewrite P2, P3.
    destruct (flag_existsb (selects_sha1 e) (getopt e) _
                (fun g => selects_sha1_iff e g Hlibc)) as [A1 A2].
    destruct (flag_existsb (selects_sha256 e) (getopt e) _
                (fun g => selects_sha256_iff e g Hlibc)) as [B1 B2].
    repeat split; try assumption; try apply A1; try apply B1.
Qed.

(** ** The handle between its creation and its release *)

Section Live.

Variable e : env.

Lemma handle_after_call c s :
  ewfverify_verification_handle (after_call e c s) =
  ewfverify_verification_handle
    (pointer_effect e c (ret (extern e c)) (snd (tick e c s))).
Proof. reflexivity. Qed.

Lemma tick_live c : steps (keeps ewfverify_verification_handle live) (tick e c).
Proof.
  apply steps_tick; [apply keeps_pre|]. unfold ewfverify_signal_handler. open_stages.
  field_struct (keeps_pre ewfverify_verification_handle live).
Qed.

Lemma initialize_to_open_live s s' :
  main_initialize_to_open e s = (Normal tt, s') -> live (ewfverify_verification_handle s').
Proof.
  unfold main_initialize_to_open. intros H.
  apply bind_normal_inv in H. destruct H as [[] [s1 [H1 H2]]].
  assert (L1 : live (ewfverify_verification_handle s1)).
  { revert H1. unfold stage_handle_initialize. unfold bind at 1. unfold read.
    rewrite bind_extcall.
    destruct (neqb _ 1) eqn:Er.
    - unfold bind, fprintf, assign, goto. discriminate.
    - apply neqb_false in Er. unfold skip, pure. intros H1. inversion H1; subst; clear H1.
      rewrite handle_after_call. unfold pointer_effect. rewrite Er. simpl. unfold live.
      discriminate. }
  assert (K : steps (keeps ewfverify_verification_handle live)
                (stage_signal_attach e ;; stage_open_input e)) by keeps_frames.
  specialize (K s1). rewrite H2 in K. apply K. exact L1.
Qed.

Lemma open_to_zero_live : steps (keeps ewfverify_verification_handle live) (main_open_to_zero e).
Proof. keeps_frames. Qed.

Lemma stage_zero_live :
  steps (keeps ewfverify_verification_handle live) (stage_zero_chunk_on_error e).
Proof. keeps_frames. Qed.

Lemma stage_size_live :
  steps (keeps ewfverify_verification_handle live) (stage_process_buffer_size e).
Proof. keeps_frames. Qed.

Lemma stage_log_open_live : steps (keeps ewfverify_verification_handle live) (stage_log_open e).
Proof. keeps_frames. Qed.

Lemma normal_keeps {A} (f : state -> A) P (m k : M unit) s s' :
  steps (keeps f P) k ->
  (forall s1, m s = (Normal tt, s1) -> P (f s1)) ->
  (m ;; k) s = (Normal tt, s') -> P (f s').
Proof.
  intros Hk Hm H. apply bind_normal_inv in H. destruct H as [[] [s1 [H1 H2]]].
  specialize (Hk s1). rewrite H2 in Hk. apply Hk. apply Hm. exact H1.
Qed.

Lemma live_at_open s :
  main_to_open e initial_state = (Normal tt, s) -> live (ewfverify_verification_handle s).
Proof.
  unfold main_to_open. intros H. apply bind_normal_inv in H.
  destruct H as [[] [s1 [_ H2]]]. apply (initialize_to_open_live _ _ H2).
Qed.

Lemma live_at_zero s :
  main_to_zero e initial_state = (Normal tt, s) -> live (ewfverify_verification_handle s).
Proof. apply normal_keeps; [apply open_to_zero_live | apply live_at_open]. Qed.

Lemma live_at_size s :
  main_to_size e initial_state = (Normal tt, s) -> live (ewfverify_verification_handle s).
Proof. apply normal_keeps; [apply stage_zero_live | apply live_at_zero]. Qed.

Lemma live_at_log s :
  main_to_log e initial_state = (Normal tt, s) -> live (ewfverify_verification_handle s).
Proof. apply normal_keeps; [apply stage_size_live | apply live_at_size]. Qed.

Lemma live_at_verify s :
  main_to_verify e initial_state = (Normal tt, s) -> live (ewfverify_verification_handle s).
Proof. apply normal_keeps; [apply stage_log_open_live | apply live_at_log]. Qed.

End Live.

(** ** The verification stage *)

Section Verify.

Variable e : env.

Lemma main_body_around_verify s :
  main_body e s = (main_to_verify e ;; stage_verify e ;; main_after_verify e) s.
Proof. rewrite main_body_at_verify. reflexivity. Qed.

Lemma after_verify_no_driver : steps (extends (non is_driver)) (main_after_verify e).
Proof. unfold main_after_verify. frames harmless_non_driver. Qed.

Lemma stage_verify_eq s :
  let c := chosen_driver e s in
  let r := ret (extern e c) in
  stage_verify e s =
  (Normal tt,
   if r != 1
   then set_error false
          (log_events [Fprintf stderr
                         (if input_format_is_files e s
                          then "Unable to verify single files." +++ nl
                          else "Unable to verify input." +++ nl);
                       Did libsystem_notify_print_error_backtrace;
                       Did liberror_error_free]
             (set_result r (after_call e c s)))
   else set_result r (after_call e c s)).
Proof.
  unfold chosen_driver, stage_verify. unfold bind at 1 2 3. unfold read.
  destruct (input_format_is_files e s); rewrite bind_extcall;
    unfold bind at 1; unfold assign at 1;
    match goal with |- context [neqb ?a 1] => destruct (neqb a 1) end;
    unfold print_backtrace_and_free, bind, fprintf, do, assign, skip, pure;
    try reflexivity;
    rewrite !log_events_cons, log_events_nil; reflexivity.
Qed.

Lemma stage_verify_calls s :
  filter is_driver (trace (snd (stage_verify e s))) =
  filter is_driver (trace s) ++
  [Called (chosen_driver e s) (ret (extern e (chosen_driver e s)))].
Proof.
  rewrite stage_verify_eq. cbv zeta.
  assert (H : filter is_driver (trace (after_call e (chosen_driver e s) s)) =
              filter is_driver (trace s) ++
              [Called (chosen_driver e s) (ret (extern e (chosen_driver e s)))]).
  { rewrite (filter_after_call e is_driver _ _ harmless_non_driver).
    unfold chosen_driver. destruct (input_format_is_files e s); reflexivity. }
  destruct (neqb _ 1); simpl snd.
  - rewrite trace_set_error, trace_log_events.
    change (trace (set_result ?r ?x)) with (trace x).
    rewrite filter_app, H. simpl. rewrite app_nil_r. reflexivity.
  - exact H.
Qed.

(** The driver calls of a whole run: none when the run ends before line
    478, else the one line 478 selects. *)
Lemma driver_calls_of_main :
  (fst (main_to_verify e initial_state) <> Normal tt /\
   filter is_driver (trace (snd (main e))) = []) \/
  exists s,
    main_to_verify e initial_state = (Normal tt, s) /\
    filter is_driver (trace s) = [] /\
    filter is_driver (trace (snd (main e))) =
    [Called (chosen_driver e s) (ret (extern e (chosen_driver e s)))].
Proof.
  unfold main. rewrite (run_ext e _ _ _ main_body_around_verify).
  destruct (main_to_verify e initial_state) as [o s] eqn:E.
  assert (Hpre : filter is_driver (trace s) = []).
  { pose proof (main_to_verify_no_driver e initial_state) as H. rewrite E in H.
    apply filter_extends in H. exact H. }
  destruct o as [[]|c|l].
  - right. exists s. split; [reflexivity|]. split; [exact Hpre|].
    rewrite (run_bind_normal e _ _ _ _ E).
    rewrite (run_bind_filter e is_driver (at_on_abort_no_driver e) (at_on_error_no_driver e)).
    + rewrite stage_verify_calls, Hpre. reflexivity.
    + apply after_verify_no_driver.
  - left. split; [simpl; discriminate|].
    rewrite run_bind_exit by (rewrite E; discriminate).
    rewrite (run_filter e is_driver (at_on_abort_no_driver e) (at_on_error_no_driver e)).
    + reflexivity.
    + apply main_to_verify_no_driver.
  - left. split; [simpl; discriminate|].
    rewrite run_bind_exit by (rewrite E; discriminate).
    rewrite (run_filter e is_driver (at_on_abort_no_driver e) (at_on_error_no_driver e)).
    + reflexivity.
    + apply main_to_verify_no_driver.
Qed.

End Verify.

(** No run calls a driver twice, or both drivers. *)
Lemma at_most_one_driver (e : env) :
  (List.length (filter is_driver (trace (snd (main e)))) <= 1)%nat.
Proof.
  destruct (driver_calls_of_main e) as [[_ H] | [s [_ [_ H]]]]; rewrite H; simpl; lia.
Qed.

(** C8: a run that reaches the verification stage calls exactly one
    driver in all: the single files driver if the input format of the
    handle is the files format, the media driver otherwise. *)
Theorem exactly_one_driver (e : env) (s : state) :
  main_to_verify e initial_state = (Normal tt, s) ->
  exists h,
    ewfverify_verification_handle s = Some h /\
    filter is_driver (trace s) = [] /\
    let c :=
      if input_format h =? VERIFICATION_HANDLE_INPUT_FORMAT_FILES e
      then verification_handle_verify_single_files
             (print_status_information (opts s)) (log_handle s)
      else verification_handle_verify_input
             (print_status_information (opts s)) (log_handle s) in
    filter is_driver (trace (snd (main e))) = [Called c (ret (extern e c))].
Proof.
  intros Hs.
  pose proof (live_at_verify e s Hs) as Hl. unfold live in Hl.
  destruct (ewfverify_verification_handle s) as [h|] eqn:Eh; [|congruence].
  exists h. split; [reflexivity|].
  destruct (driver_calls_of_main e) as [[Hn _] | [s0 [Hs0 [Hpre Hone]]]].
  - rewrite Hs in Hn. simpl in Hn. congruence.
  - rewrite Hs in Hs0. inversion Hs0; subst s0; clear Hs0.
    split; [exact Hpre|]. cbv zeta. rewrite Hone.
    unfold chosen_driver, input_format_is_files. rewrite Eh. reflexivity.
Qed.

(** ** The zero-on-error policy *)

Lemma harmless_non_set_zero : harmless (non is_set_zero).
Proof. harmless_tac. Qed.

Lemma normal_filter q (m : M unit) s s' :
  steps (extends (non q)) m -> m s = (Normal tt, s') ->
  filter q (trace s') = filter q (trace s).
Proof.
  intros Hm H. specialize (Hm s). rewrite H in Hm. apply filter_extends. exact Hm.
Qed.

Section ZeroPolicy.

Variable e : env.

Lemma to_zero_no_set_zero : steps (extends (non is_set_zero)) (main_to_zero e).
Proof. frames harmless_non_set_zero. Qed.

Lemma stage_size_no_set_zero : steps (extends (non is_set_zero)) (stage_process_buffer_size e).
Proof. frames harmless_non_set_zero. Qed.

Lemma stage_log_open_no_set_zero : steps (extends (non is_set_zero)) (stage_log_open e).
Proof. frames harmless_non_set_zero. Qed.

(** Lines 417-427 fall through only when the setter returns 1. *)
Lemma stage_zero_normal s s' :
  stage_zero_chunk_on_error e s = (Normal tt, s') ->
  let c := verification_handle_set_zero_chunk_on_error (zero_chunk_on_error (opts s)) in
  ret (extern e c) = 1 /\ s' = after_call e c s.
Proof.
  unfold stage_zero_chunk_on_error. unfold bind at 1. unfold read.
  rewrite bind_extcall. cbv zeta.
  destruct (neqb _ 1) eqn:Er.
  - unfold bind, fprintf, assign, goto. discriminate.
  - apply neqb_false in Er. unfold skip, pure. intros H. inversion H. split; [exact Er|reflexivity].
Qed.

Lemma at_on_abort_any : steps (extends any_event) (at_on_abort e).
Proof. frames harmless_any. Qed.

Lemma at_on_error_any : steps (extends any_event) (at_on_error e).
Proof. frames harmless_any. Qed.

Lemma main_from_verify_any : steps (extends any_event) (main_from_verify e).
Proof. frames harmless_any. Qed.

(** The trace of the whole run continues the trace at line 478. *)
Lemma main_continues_verify s :
  main_to_verify e initial_state = (Normal tt, s) ->
  exists t, trace (snd (main e)) = trace s ++ t.
Proof.
  intros Hs. unfold main. rewrite (run_ext e _ _ _ (main_body_at_verify e)).
  rewrite (run_bind_normal e _ _ _ _ Hs).
  destruct (run_extends e any_event at_on_abort_any at_on_error_any
              (main_from_verify e) s main_from_verify_any) as [t [Ht _]].
  exists t. exact Ht.
Qed.

End ZeroPolicy.

(** C6: when a run reaches the verification stage, the zero-on-error
    policy has been installed on the handle, with success, and no driver
    has been called yet: the one driver call of the run comes later.  The
    value installed is 1 if a [-w] option was given and 0, the default,
    otherwise. *)
Theorem zero_policy_installed (e : env) (s : state) :
  main_to_verify e initial_state = (Normal tt, s) ->
  exists z t c r,
    (z = 1 <-> exists g, In g (getopt e) /\ opt g = "w"%char) /\
    (z = 0 \/ z = 1) /\
    filter is_set_zero (trace s) =
      [Called (verification_handle_set_zero_chunk_on_error z) 1] /\
    filter is_driver (trace s) = [] /\
    trace (snd (main e)) = trace s ++ t /\
    filter is_driver t = [Called c r].
Proof.
  intros Hs.
  destruct (main_continues_verify e s Hs) as [t Ht].
  pose proof (normal_filter _ _ _ _ (main_to_verify_no_driver e) Hs) as Hnone.
  simpl in Hnone.
  exists (flag (existsb (option_is "w") (getopt e)) 0), t,
         (chosen_driver e s), (ret (extern e (chosen_driver e s))).
  assert (Hw : forall g, option_is "w" g = true <-> opt g = "w"%char).
  { intros g. unfold option_is. destruct (Ascii.eqb_spec (opt g) "w"); split; congruence. }
  destruct (flag_existsb (option_is "w") (getopt e) _ Hw) as [A1 A2].
  split; [exact A1|]. split; [exact A2|].
  split; [|split; [exact Hnone|split; [exact Ht|]]].
  2:{ destruct (driver_calls_of_main e) as [[Hn _] | [s0 [Hs0 [_ Hone]]]].
      - rewrite Hs in Hn. simpl in Hn. congruence.
      - rewrite Hs in Hs0. inversion Hs0; subst s0; clear Hs0.
        rewrite Ht, filter_app, Hnone in Hone. exact Hone. }
  - unfold main_to_verify, main_to_log, main_to_size in Hs.
    apply bind_normal_inv in Hs. destruct Hs as [[] [s3 [Hs3 Hlog]]].
    apply bind_normal_inv in Hs3. destruct Hs3 as [[] [s2 [Hs2 Hsize]]].
    apply bind_normal_inv in Hs2. destruct Hs2 as [[] [s1 [Hs1 Hzero]]].
    rewrite (normal_filter _ _ _ _ (stage_log_open_no_set_zero e) Hlog).
    rewrite (normal_filter _ _ _ _ (stage_size_no_set_zero e) Hsize).
    apply stage_zero_normal in Hzero. cbv zeta in Hzero. destruct Hzero as [Hr ->].
    rewrite (filter_after_call e is_set_zero _ _ harmless_non_set_zero).
    rewrite (normal_filter _ _ _ _ (to_zero_no_set_zero e) Hs1).
    destruct (parsed_at_zero e s1 Hs1) as (_ & _ & _ & P4 & _).
    rewrite P4 in *. rewrite Hr. reflexivity.
Qed.

(** ** The process buffer size *)

Section BufferSize.

Variable e : env.

Lemma to_size_no_set_size :
  steps (extends (non is_set_process_buffer_size)) (main_to_size e).
Proof. frames harmless_non_set_size. Qed.

Lemma after_size_no_set_size :
  steps (extends (non is_set_process_buffer_size)) (main_after_size e).
Proof. unfold main_after_size. frames harmless_non_set_size. Qed.

Lemma at_on_abort_no_set_size :
  steps (extends (non is_set_process_buffer_size)) (at_on_abort e).
Proof. frames harmless_non_set_size. Qed.

Lemma at_on_error_no_set_size :
  steps (extends (non is_set_process_buffer_size)) (at_on_error e).
Proof. frames harmless_non_set_size. Qed.

Lemma main_body_around_size s :
  main_body e s = (main_to_size e ;; stage_process_buffer_size e ;; main_after_size e) s.
Proof. rewrite main_body_at_size. reflexivity. Qed.

(** Without a [-p] option, lines 428-452 do nothing. *)
Lemma stage_size_unset s :
  option_process_buffer_size (opts s) = None ->
  stage_process_buffer_size e s = (Normal tt, s).
Proof.
  intros H. unfold stage_process_buffer_size. unfold bind, read. rewrite H. reflexivity.
Qed.

Lemma after_call_live c s :
  (forall b, c <> verification_handle_free b) ->
  live (ewfverify_verification_handle s) ->
  live (ewfverify_verification_handle (after_call e c s)).
Proof.
  intros Hc Hl. rewrite handle_after_call.
  pose proof (tick_live e c s Hl) as Ht. simpl in Ht.
  destruct (snd (tick e c s)) as [h a er g lh o fs r st t]. simpl in *.
  unfold live in *.
  destruct c; simpl; try exact Ht;
    try (destruct (_ =? 1); simpl; first [exact Ht | discriminate]);
    try (destruct h; simpl; [discriminate | congruence]).
  exfalso. apply (Hc with_error). reflexivity.
Qed.

(** The three ways lines 428-452 deal with a [-p] option. *)
Lemma stage_size_set s size :
  option_process_buffer_size (opts s) = Some size ->
  let c := verification_handle_set_process_buffer_size size in
  let r := ret (extern e c) in
  let s1 := set_result r (after_call e c s) in
  stage_process_buffer_size e s =
  if r =? -1 then
    (Goto on_error, log_event (Fprintf stderr ("Unable to set process buffer size." +++ nl)) s1)
  else if (r =? 0) || process_buffer_size_too_large e s1 then
    (Normal tt,
     log_event
       (Fprintf stderr ("Unsupported process buffer size defaulting to: chunk size." +++ nl))
       (store_process_buffer_size 0 s1))
  else (Normal tt, s1).
Proof.
  intros H. cbv zeta. unfold stage_process_buffer_size. unfold bind at 1. unfold read.
  rewrite H. rewrite bind_extcall. unfold bind at 1. unfold assign at 1.
  destruct (_ =? -1).
  - reflexivity.
  - unfold bind at 1. unfold read.
    destruct (_ || _); reflexivity.
Qed.

Lemma after_size_any : steps (extends any_event) (main_after_size e).
Proof. unfold main_after_size. frames harmless_any. Qed.

End BufferSize.

(** C7: at line 428, without a [-p] option the handle is left alone, and
    the whole run never sets a process buffer size, so that the default
    of the chunk size stays.  With a [-p] option whose value the setter
    cannot parse (result 0), or accepts (a result other than -1) while
    the size it leaves in the handle is above SSIZE_MAX, the size of the
    handle is reset to 0, the warning is printed and the run goes on to
    line 453 and beyond; with a value the setter accepts and a size of
    at most SSIZE_MAX the run goes on to line 453 with the handle as the
    setter left it and without the warning. *)
Theorem process_buffer_size_default (e : env) (s : state) :
  main_to_size e initial_state = (Normal tt, s) ->
  (existsb (option_is "p") (getopt e) = false ->
   stage_process_buffer_size e s = (Normal tt, s) /\
   filter is_set_process_buffer_size (trace (snd (main e))) = []) /\
  (forall size,
     option_process_buffer_size (opts s) = Some size ->
     let c := verification_handle_set_process_buffer_size size in
     let r := ret (extern e c) in
     let s1 := set_result r (after_call e c s) in
     exists h,
       ewfverify_verification_handle s1 = Some h /\
       (r = 0 \/ (r <> -1 /\ process_buffer_size h > SSIZE_MAX e) ->
        let s2 :=
          log_event
            (Fprintf stderr
               ("Unsupported process buffer size defaulting to: chunk size." +++ nl))
            (set_handle (Some (mk_handle (input_format h) 0)) s1) in
        main_to_log e initial_state = (Normal tt, s2) /\
        exists t, trace (snd (main e)) = trace s2 ++ t) /\
       (r <> 0 -> r <> -1 -> process_buffer_size h <= SSIZE_MAX e ->
        main_to_log e initial_state = (Normal tt, s1))).
Proof.
  intros Hs. split.
  - intros Hp.
    destruct (parsed_at_size e s Hs) as (_ & _ & _ & _ & P5). specialize (P5 Hp).
    pose proof (stage_size_unset e s P5) as Hstage.
    split; [exact Hstage|].
    unfold main. rewrite (run_ext e _ _ _ (main_body_around_size e)).
    rewrite (run_bind_normal e _ _ _ _ Hs).
    rewrite (run_bind_filter e _ (at_on_abort_no_set_size e) (at_on_error_no_set_size e));
      [|apply after_size_no_set_size].
    rewrite Hstage. simpl snd.
    apply (normal_filter _ _ _ _ (to_size_no_set_size e) Hs).
  - intros size Hsize c r s1.
    assert (Hl : live (ewfverify_verification_handle s1)).
    { unfold s1. change (ewfverify_verification_handle (set_result r ?x))
        with (ewfverify_verification_handle x).
      apply after_call_live; [intros b; discriminate|]. apply (live_at_size e s Hs). }
    unfold live in Hl.
    destruct (ewfverify_verification_handle s1) as [h|] eqn:Eh; [|congruence].
    exists h. split; [reflexivity|].
    pose proof (stage_size_set e s size Hsize) as Hstage. cbv zeta in Hstage.
    fold c in Hstage. fold r in Hstage. fold s1 in Hstage.
    assert (Hlarge : process_buffer_size_too_large e s1 =
                     (process_buffer_size h >? SSIZE_MAX e)).
    { unfold process_buffer_size_too_large. rewrite Eh. reflexivity. }
    rewrite Hlarge in Hstage.
    split.
    + intros Hcase s2.
      assert (Hr : (r =? -1) = false).
      { destruct Hcase as [H0 | [Hn _]]; apply Z.eqb_neq; lia. }
      assert (Hc : (r =? 0) || (process_buffer_size h >? SSIZE_MAX e) = true).
      { destruct Hcase as [H0 | [_ Hb]].
        - rewrite H0. reflexivity.
        - apply Z.gtb_gt in Hb. rewrite Hb. apply orb_true_r. }
      rewrite Hr, Hc in Hstage. unfold store_process_buffer_size in Hstage.
      rewrite Eh in Hstage. simpl option_map in Hstage.
      assert (Hlog : main_to_log e initial_state = (Normal tt, s2)).
      { unfold main_to_log. rewrite (bind_normal _ _ _ _ _ Hs). exact Hstage. }
      split; [exact Hlog|].
      unfold main. rewrite (run_ext e _ _ _ (main_body_at_log e)).
      rewrite (run_bind_normal e _ _ _ _ Hlog).
      destruct (run_extends e any_event (at_on_abort_any e) (at_on_error_any e)
                  _ s2 (after_size_any e)) as [t [Ht _]].
      exists t. exact Ht.
    + intros H0 H1 Hle.
      assert (Hr : (r =? -1) = false) by (apply Z.eqb_neq; exact H1).
      assert (Hz : (r =? 0) = false) by (apply Z.eqb_neq; exact H0).
      assert (Hb : (process_buffer_size h >? SSIZE_MAX e) = false).
      { destruct (process_buffer_size h >? SSIZE_MAX e) eqn:E; [|reflexivity].
        apply Z.gtb_gt in E. lia. }
      rewrite Hr, Hz, Hb in Hstage.
      unfold main_to_log. rewrite (bind_normal _ _ _ _ _ Hs). exact Hstage.
Qed.

(** ** Unsupported option values *)

Section Degrade.

Variable e : env.

Lemma option_case_unsupported_digest g s :
  libc_strings e ->
  opt g = "d"%char ->
  String.prefix "sha1" (optarg g) = false ->
  String.prefix "sha256" (optarg g) = false ->
  option_case e g s =
  (Normal tt, log_event (Fprintf stderr ("Unsupported digest type." +++ nl)) s).
Proof.
  intros Hlibc Hd H1 H256. unfold option_case. rewrite Hd, !Hlibc.
  destruct (Z.eqb_spec (strncmp (optarg g) "sha1" 4) 0) as [E|_].
  { apply compare_sha1 in E. congruence. }
  destruct (Z.eqb_spec (strncmp (optarg g) "sha256" 6) 0) as [E|_].
  { apply compare_sha256 in E. congruence. }
  reflexivity.
Qed.

Lemma stage_header_codepage_set s codepage :
  option_header_codepage (opts s) = Some codepage ->
  let c := verification_handle_set_header_codepage codepage in
  let r := ret (extern e c) in
  let s1 := set_result r (after_call e c s) in
  stage_header_codepage e s =
  if r =? -1 then
    (Goto on_error, log_event (Fprintf stderr ("Unable to set header codepage." +++ nl)) s1)
  else if r =? 0 then
    (Normal tt,
     log_event (Fprintf stderr ("Unsupported header codepage defaulting to: ascii." +++ nl)) s1)
  else (Normal tt, s1).
Proof.
  intros H. cbv zeta. unfold stage_header_codepage. unfold bind at 1. unfold read.
  rewrite H. rewrite bind_extcall. unfold bind at 1. unfold assign at 1.
  destruct (_ =? -1); [reflexivity|]. destruct (_ =? 0); reflexivity.
Qed.

Lemma stage_format_set s format :
  option_format (opts s) = Some format ->
  let c := verification_handle_set_format format in
  let r := ret (extern e c) in
  let s1 := set_result r (after_call e c s) in
  stage_format e s =
  if r =? -1 then
    (Goto on_error, log_event (Fprintf stderr ("Unable to set format." +++ nl)) s1)
  else if r =? 0 then
    (Normal tt,
     log_event (Fprintf stderr ("Unsupported input format defaulting to: raw." +++ nl)) s1)
  else (Normal tt, s1).
Proof.
  intros H. cbv zeta. unfold stage_format. unfold bind at 1. unfold read.
  rewrite H. rewrite bind_extcall. unfold bind at 1. unfold assign at 1.
  destruct (_ =? -1); [reflexivity|]. destruct (_ =? 0); reflexivity.
Qed.

Lemma existsb_false {A} (f : A -> bool) (l : list A) :
  (forall x, In x l -> f x = false) -> existsb f l = false.
Proof.
  intros H. destruct (existsb f l) eqn:E; [|reflexivity].
  apply existsb_exists in E. destruct E as [x [Hin Hx]]. rewrite (H x Hin) in Hx. discriminate.
Qed.

End Degrade.

(** ** A failed open *)

Section OpenFailure.

Variable e : env.

Lemma tick_trace c s : exists hs, trace (snd (tick e c s)) = trace s ++ hs.
Proof.
  destruct (tick_extends e any_event c harmless_any s) as [hs [H _]]. exists hs. exact H.
Qed.

Lemma release_verification_handle_trace s :
  live (ewfverify_verification_handle s) ->
  exists h1 h2 r1 r2,
    trace (snd (release_verification_handle e s)) =
    trace s ++ h1 ++ Called (verification_handle_close false) r1
            :: h2 ++ [Called (verification_handle_free false) r2].
Proof.
  intros Hl. unfold release_verification_handle. unfold bind at 1. unfold read.
  unfold live in Hl. destruct (ewfverify_verification_handle s); [|congruence].
  rewrite !bind_extcall. unfold skip, pure. simpl snd.
  rewrite !trace_after_call.
  destruct (tick_trace (verification_handle_close false) s) as [h1 H1].
  destruct (tick_trace (verification_handle_free false)
              (after_call e (verification_handle_close false) s)) as [h2 H2].
  rewrite H2, trace_after_call, H1.
  exists h1, h2. do 2 eexists. rewrite <- !app_assoc. reflexivity.
Qed.

Lemma release_error_live : steps (keeps ewfverify_verification_handle live) (release_error).
Proof. unfold release_error. keeps_frames. Qed.

Lemma release_log_handle_live :
  steps (keeps ewfverify_verification_handle live) (release_log_handle e).
Proof. unfold release_log_handle. keeps_frames. Qed.

Lemma release_error_any : steps (extends any_event) (release_error).
Proof. unfold release_error. frames harmless_any. Qed.

Lemma release_log_handle_any : steps (extends any_event) (release_log_handle e).
Proof. unfold release_log_handle. frames harmless_any. Qed.

Lemma release_glob_any : steps (extends any_event) (release_glob e).
Proof. unfold release_glob. frames harmless_any. Qed.

Lemma extends_any_trace s s' : extends any_event s s' -> exists t, trace s' = trace s ++ t.
Proof. intros [t [H _]]. exists t. exact H. Qed.

(** With a live handle, [on_error] closes it and frees it. *)
Lemma cleanup_releases s :
  live (ewfverify_verification_handle s) ->
  exists t1 t2 t3 r1 r2,
    trace (snd (on_error_cleanup e s)) =
    trace s ++ t1 ++ Called (verification_handle_close false) r1
            :: t2 ++ Called (verification_handle_free false) r2 :: t3.
Proof.
  intros Hl. unfold on_error_cleanup.
  pose proof (falls_eq _ s release_error_falls) as Ea.
  set (sa := snd (release_error s)) in *.
  pose proof (falls_eq _ sa (release_log_handle_falls e)) as Eb.
  set (sb := snd (release_log_handle e sa)) in *.
  pose proof (falls_eq _ sb (release_verification_handle_falls e)) as Ec.
  set (sc := snd (release_verification_handle e sb)) in *.
  rewrite (bind_normal _ _ _ _ _ Ea), (bind_normal _ _ _ _ _ Eb), (bind_normal _ _ _ _ _ Ec).
  pose proof (release_error_live s Hl) as La. fold sa in La.
  pose proof (release_log_handle_live sa La) as Lb. fold sb in Lb.
  destruct (extends_any_trace _ _ (release_error_any s)) as [ta Ta]. fold sa in Ta.
  destruct (extends_any_trace _ _ (release_log_handle_any sa)) as [tb Tb]. fold sb in Tb.
  destruct (release_verification_handle_trace sb Lb) as (h1 & h2 & r1 & r2 & Tc). fold sc in Tc.
  destruct (extends_any_trace _ _ (release_glob_any sc)) as [td Td].
  exists (ta ++ tb ++ h1), h2, td, r1, r2.
  rewrite Td, Tc, Tb, Ta. rewrite <- !app_assoc. simpl. rewrite <- !app_assoc. reflexivity.
Qed.

End OpenFailure.

Section OpenFailed.

Variable e : env.

Lemma tick_argv c : steps (same argv_filenames) (tick e c).
Proof.
  apply steps_tick; [apply same_pre|]. unfold ewfverify_signal_handler. open_stages.
  field_struct (same_pre argv_filenames).
Qed.

Lemma argv_after_call c s : argv_filenames (after_call e c s) = argv_filenames s.
Proof.
  unfold after_call, raw_call. simpl.
  transitivity (argv_filenames (snd (tick e c s))); [|apply tick_argv].
  destruct (snd (tick e c s)) as [h a er g lh o fs r st t].
  destruct c; simpl; try reflexivity; destruct (_ =? 1); reflexivity.
Qed.

Lemma stage_open_input_eq s :
  let c := verification_handle_open_input (argv_filenames s) in
  stage_open_input e s = (Normal tt, set_result (ret (extern e c)) (after_call e c s)).
Proof.
  cbv zeta. unfold stage_open_input. unfold bind at 1. unfold read.
  rewrite bind_extcall. reflexivity.
Qed.

(** At line 349, [result] holds what [verification_handle_open_input]
    returned. *)
Lemma result_at_open s :
  main_to_open e initial_state = (Normal tt, s) ->
  result s = ret (extern e (verification_handle_open_input (argv_filenames s))).
Proof.
  unfold main_to_open, main_initialize_to_open. intros H.
  apply bind_normal_inv in H. destruct H as [[] [s0 [_ H]]].
  apply bind_normal_inv in H. destruct H as [[] [s1 [_ H]]].
  apply bind_normal_inv in H. destruct H as [[] [s2 [_ H]]].
  rewrite stage_open_input_eq in H. inversion H; subst; clear H.
  change (argv_filenames (set_result ?r ?x)) with (argv_filenames x).
  rewrite argv_after_call. reflexivity.
Qed.

Lemma main_to_open_no_driver : steps (extends (non is_driver)) (main_to_open e).
Proof. frames harmless_non_driver. Qed.

(** Lines 349-360 when the flag is clear and the open failed. *)
Lemma open_to_zero_failure s :
  ewfverify_abort s = 0 -> result s <> 1 ->
  main_open_to_zero e s =
  (Goto on_error, log_event (Fprintf stderr ("Unable to open EWF image file(s)." +++ nl)) s).
Proof.
  intros Ha Hr. unfold main_open_to_zero, stage_abort_check, stage_open_check.
  unfold bind, read. rewrite Ha. simpl.
  apply neqb_true in Hr. rewrite Hr. reflexivity.
Qed.

End OpenFailed.

(** C2: when [verification_handle_open_input] does not return 1 and the
    abort flag is clear at line 349, the program prints that it cannot
    open the files, closes and frees the handle, and returns
    EXIT_FAILURE; no driver is called in the whole run. *)
Theorem open_failure_is_fatal (e : env) (s : state) :
  main_to_open e initial_state = (Normal tt, s) ->
  ret (extern e (verification_handle_open_input (argv_filenames s))) <> 1 ->
  ewfverify_abort s = 0 ->
  exists s' t1 t2 t3 r1 r2,
    main e = (EXIT_FAILURE, s') /\
    filter is_driver (trace s') = [] /\
    trace s' =
      trace s ++ Fprintf stderr ("Unable to open EWF image file(s)." +++ nl)
              :: t1 ++ Called (verification_handle_close false) r1
              :: t2 ++ Called (verification_handle_free false) r2 :: t3.
Proof.
  intros Hs Hret Habort.
  rewrite <- (result_at_open e s Hs) in Hret.
  set (s2 := log_event (Fprintf stderr ("Unable to open EWF image file(s)." +++ nl)) s).
  assert (Hmain : main e = (EXIT_FAILURE, snd (on_error_cleanup e s2))).
  { unfold main. rewrite (run_ext e _ _ _ (main_body_at_open e)).
    rewrite (run_bind_normal e _ _ _ _ Hs).
    erewrite run_bind_goto; [|apply open_to_zero_failure; assumption].
    apply from_on_error_eq. }
  assert (Hl : live (ewfverify_verification_handle s2)) by apply (live_at_open e s Hs).
  destruct (cleanup_releases e s2 Hl) as (t1 & t2 & t3 & r1 & r2 & Ht).
  exists (snd (on_error_cleanup e s2)), t1, t2, t3, r1, r2.
  split; [exact Hmain|]. split.
  - pose proof (from_on_error_extends e _ (at_on_error_no_driver e) s2) as Hx.
    rewrite from_on_error_eq in Hx. simpl in Hx.
    rewrite (filter_extends _ _ _ Hx). unfold s2.
    rewrite trace_log_event, filter_app.
    rewrite (normal_filter _ _ _ _ (main_to_open_no_driver e) Hs). reflexivity.
  - rewrite Ht. unfold s2. rewrite trace_log_event, <- app_assoc. reflexivity.
Qed.

(** ** Jumps to [on_abort] *)

Lemma no_abort_bind {A B} (m : M A) (k : A -> M B) :
  no_abort_jump m -> (forall a, no_abort_jump (k a)) -> no_abort_jump (bind m k).
Proof.
  intros Hm Hk s. unfold bind. specialize (Hm s).
  destruct (m s) as [[a|c|l] s1]; simpl in *.
  - apply Hk.
  - discriminate.
  - congruence.
Qed.

Lemma no_abort_falls {A} (m : M A) : falls_through m -> no_abort_jump m.
Proof. intros H s. destruct (H s) as [a Ha]. rewrite Ha. discriminate. Qed.

Lemma no_abort_return c : no_abort_jump (return_ c).
Proof. intros s. discriminate. Qed.

Lemma no_abort_goto_on_error : no_abort_jump (goto on_error).
Proof. intros s. discriminate. Qed.

Lemma falls_pure {A} (a : A) : falls_through (pure a).
Proof. intros s. exists a. reflexivity. Qed.

Lemma falls_read {A} (f : state -> A) : falls_through (read f).
Proof. intros s. exists (f s). reflexivity. Qed.

Lemma falls_assign f : falls_through (assign f).
Proof. intros s. exists tt. reflexivity. Qed.

Lemma falls_fprintf_each st texts : falls_through (fprintf_each st texts).
Proof. intros s. exists tt. rewrite fprintf_each_eq. reflexivity. Qed.

Ltac no_abort_struct :=
  repeat match goal with
    | |- no_abort_jump (bind _ _) => apply no_abort_bind; [ | intro ]
    | |- no_abort_jump (extcall _ _) => apply no_abort_falls; apply falls_extcall
    | |- no_abort_jump (tick _ _) => apply no_abort_falls; apply falls_tick
    | |- no_abort_jump (raw_call _ _) => apply no_abort_falls; apply falls_raw_call
    | |- no_abort_jump (pure _) => apply no_abort_falls; apply falls_pure
    | |- no_abort_jump (read _) => apply no_abort_falls; apply falls_read
    | |- no_abort_jump (assign _) => apply no_abort_falls; apply falls_assign
    | |- no_abort_jump (fprintf_each _ _) => apply no_abort_falls; apply falls_fprintf_each
    | |- no_abort_jump (usage_fprint (Some _)) => apply no_abort_falls; apply falls_fprintf_each
    | |- no_abort_jump (return_ _) => apply no_abort_return
    | |- no_abort_jump (goto on_error) => apply no_abort_goto_on_error
    | |- no_abort_jump (if ?b then _ else _) => destruct b
    | |- no_abort_jump (match ?o with Some _ => _ | None => _ end) => destruct o
    | |- no_abort_jump (match ?l with nil => _ | cons _ _ => _ end) => destruct l
    end.

Lemma option_loop_no_abort e gs : no_abort_jump (option_loop e gs).
Proof.
  induction gs as [|g gs IH]; simpl.
  - apply no_abort_falls. apply falls_pure.
  - apply no_abort_bind; [|intro; exact IH].
    unfold option_case.
    destruct (opt g) as [[] [] [] [] [] [] [] []];
      unfold usage_fprint; open_stages; no_abort_struct.
Qed.

Section AbortJump.

Variable e : env.

Lemma main_body_around_abort_check s :
  main_body e s = (main_to_open e ;; stage_abort_check ;; main_after_abort_check e) s.
Proof.
  rewrite main_body_at_open. unfold main_open_to_zero, main_after_abort_check. reassociate.
Qed.

Lemma main_to_open_no_abort : no_abort_jump (main_to_open e).
Proof.
  open_blocks. open_stages.
  no_abort_struct; try apply option_loop_no_abort.
Qed.

Lemma after_abort_check_no_abort : no_abort_jump (main_after_abort_check e).
Proof.
  unfold main_after_abort_check. open_blocks. open_stages. no_abort_struct.
Qed.

(** The only jump to [on_abort] is that of line 351, taken with the flag
    set. *)
Lemma main_body_abort_jump s :
  main_body e initial_state = (Goto on_abort, s) ->
  main_to_open e initial_state = (Normal tt, s) /\ ewfverify_abort s <> 0.
Proof.
  rewrite main_body_around_abort_check. unfold bind at 1.
  pose proof (main_to_open_no_abort initial_state) as H1.
  destruct (main_to_open e initial_state) as [[[]|c|l] s1]; simpl in H1.
  - unfold bind at 1. unfold stage_abort_check at 1. unfold bind at 1, read at 1.
    destruct (neqb (ewfverify_abort s1) 0) eqn:Ea.
    + unfold goto. intros H. inversion H; subst. split; [reflexivity|].
      apply neqb_true. exact Ea.
    + unfold skip, pure. intros H. exfalso.
      apply (after_abort_check_no_abort s1). rewrite H. reflexivity.
  - discriminate.
  - intros H. inversion H; subst. congruence.
Qed.

End AbortJump.

(** ** The releases at [on_abort] and the report *)

Lemma harmless_non_success : harmless (non is_success).
Proof. harmless_tac. Qed.

Section OnAbort.

Variable e : env.

Lemma on_abort_cleanup_eq s :
  let rc := ret (extern e (verification_handle_close true)) in
  let rf := ret (extern e (verification_handle_free true)) in
  let s2 := after_call e (verification_handle_close true) (after_detach e s) in
  let s3 := after_call e (verification_handle_free true) s2 in
  on_abort_cleanup e s =
  if rc != 0 then
    (Goto on_error, log_event (Fprintf stderr ("Unable to close EWF file(s)." +++ nl)) s2)
  else if rf != 1 then
    (Goto on_error, log_event (Fprintf stderr ("Unable to free verification handle." +++ nl)) s3)
  else (Normal tt, s3).
Proof.
  cbv zeta. unfold on_abort_cleanup, after_detach.
  rewrite bind_extcall. unfold bind at 1.
  assert (Hd : forall s1,
    (if ret (extern e libsystem_signal_detach) != 1
     then fprintf stderr ("Unable to detach signal handler." +++ nl) ;; print_backtrace_and_free
     else skip) s1 =
    (Normal tt,
     if ret (extern e libsystem_signal_detach) != 1
     then set_error false
            (log_events [Fprintf stderr ("Unable to detach signal handler." +++ nl);
                         Did libsystem_notify_print_error_backtrace;
                         Did liberror_error_free] s1)
     else s1)).
  { intros s1. destruct (neqb _ 1); [|reflexivity].
    unfold print_backtrace_and_free, bind, fprintf, do, assign.
    rewrite !log_events_cons, log_events_nil. reflexivity. }
  rewrite Hd. rewrite bind_extcall. unfold bind at 1.
  destruct (neqb (ret (extern e (verification_handle_close true))) 0).
  - reflexivity.
  - unfold skip at 1, pure at 1. rewrite bind_extcall.
    destruct (neqb (ret (extern e (verification_handle_free true))) 1); reflexivity.
Qed.

Lemma stage_report_eq s :
  stage_report e s =
  if ewfverify_abort s != 0 then (Return EXIT_FAILURE, log_event ABORTED_line s)
  else if status s != PROCESS_STATUS_COMPLETED e
       then (Return EXIT_FAILURE, log_event FAILURE_line s)
       else (Return EXIT_SUCCESS, log_event SUCCESS_line s).
Proof.
  unfold stage_report. unfold bind at 1. unfold read at 1.
  destruct (neqb (ewfverify_abort s) 0); [reflexivity|].
  unfold bind at 1. unfold read.
  destruct (neqb (status s) _); reflexivity.
Qed.

Lemma on_abort_cleanup_no_driver : steps (extends (non is_driver)) (on_abort_cleanup e).
Proof. frames harmless_non_driver. Qed.

Lemma on_abort_cleanup_no_success : steps (extends (non is_success)) (on_abort_cleanup e).
Proof. frames harmless_non_success. Qed.

Lemma at_on_error_no_success : steps (extends (non is_success)) (at_on_error e).
Proof. frames harmless_non_success. Qed.

Lemma main_to_open_no_success : steps (extends (non is_success)) (main_to_open e).
Proof. frames harmless_non_success. Qed.

Lemma on_abort_cleanup_abort : steps (keeps ewfverify_abort nonzero) (on_abort_cleanup e).
Proof. keeps_frames. Qed.

Lemma on_abort_cleanup_status : steps (same status) (on_abort_cleanup e).
Proof. same_frames. Qed.

Lemma on_abort_cleanup_any : steps (extends any_event) (on_abort_cleanup e).
Proof. frames harmless_any. Qed.

Lemma at_on_error_no_final_free : steps (extends (non is_final_free)) (at_on_error e).
Proof. frames harmless_non_final_free. Qed.

Lemma main_body_no_final_free : steps (extends (non is_final_free)) (main_body e).
Proof. frames harmless_non_final_free. Qed.

Lemma filter_single (q : event -> bool) ev : filter q [ev] = if q ev then [ev] else [].
Proof. reflexivity. Qed.

Lemma not_final_free r :
  r <> 1 -> is_final_free (Called (verification_handle_free true) r) = false.
Proof.
  intros H. destruct r as [|p|p]; try reflexivity.
  destruct p; try reflexivity. congruence.
Qed.

(** When the releases at [on_abort] jump to [on_error], the handle has
    not been freed with success. *)
Lemma on_abort_cleanup_jump s l s1 :
  on_abort_cleanup e s = (Goto l, s1) ->
  filter is_final_free (trace s1) = filter is_final_free (trace s).
Proof.
  rewrite on_abort_cleanup_eq. cbv zeta.
  assert (Hd : filter is_final_free (trace (after_detach e s)) = filter is_final_free (trace s)).
  { unfold after_detach. destruct (neqb _ 1).
    - rewrite trace_set_error, trace_log_events, filter_app.
      rewrite (filter_after_call e _ _ _ harmless_non_final_free). simpl.
      rewrite !app_nil_r. reflexivity.
    - rewrite (filter_after_call e _ _ _ harmless_non_final_free). simpl.
      rewrite app_nil_r. reflexivity. }
  destruct (neqb _ 0).
  - intros H. inversion H; subst; clear H.
    rewrite trace_log_event, filter_app.
    rewrite (filter_after_call e _ _ _ harmless_non_final_free), Hd. simpl.
    rewrite !app_nil_r. reflexivity.
  - destruct (neqb _ 1) eqn:Ef; [|discriminate].
    apply neqb_true in Ef.
    intros H. inversion H; subst; clear H.
    rewrite trace_log_event, filter_app.
    rewrite (filter_after_call e _ _ _ harmless_non_final_free).
    rewrite (filter_after_call e _ _ _ harmless_non_final_free), Hd.
    rewrite !filter_single, (not_final_free _ Ef). simpl.
    rewrite !app_nil_r. reflexivity.
Qed.

Lemma on_abort_cleanup_outcome s :
  fst (on_abort_cleanup e s) = Normal tt \/ fst (on_abort_cleanup e s) = Goto on_error.
Proof.
  rewrite on_abort_cleanup_eq. cbv zeta.
  destruct (neqb _ 0); [right; reflexivity|].
  destruct (neqb _ 1); [right|left]; reflexivity.
Qed.

End OnAbort.

Section FromOnAbort.

Variable e : env.

(** From [on_abort]: the report when the releases succeed, [on_error]
    when one fails. *)
Lemma from_on_abort_eq s :
  from_on_abort e s =
  match on_abort_cleanup e s with
  | (Normal _, sc) =>
      if ewfverify_abort sc != 0 then (EXIT_FAILURE, log_event ABORTED_line sc)
      else if status sc != PROCESS_STATUS_COMPLETED e
           then (EXIT_FAILURE, log_event FAILURE_line sc)
           else (EXIT_SUCCESS, log_event SUCCESS_line sc)
  | (_, sc) => from_on_error e sc
  end.
Proof.
  unfold from_on_abort, at_on_abort, bind.
  pose proof (on_abort_cleanup_outcome e s) as Ho.
  destruct (on_abort_cleanup e s) as [[[]|c|l] sc]; simpl in Ho.
  - rewrite stage_report_eq.
    destruct (neqb (ewfverify_abort sc) 0); [reflexivity|].
    destruct (neqb (status sc) _); reflexivity.
  - destruct Ho; discriminate.
  - reflexivity.
Qed.

Lemma handler_effect s :
  ewfverify_abort (snd (ewfverify_signal_handler e s)) = 1 /\
  filter is_signal_abort (trace (snd (ewfverify_signal_handler e s))) =
  filter is_signal_abort (trace s) ++
  match ewfverify_verification_handle s with
  | Some _ => [Called verification_handle_signal_abort
                 (ret (extern e verification_handle_signal_abort))]
  | None => []
  end.
Proof.
  destruct s as [h a er g lh o fs r st t].
  unfold ewfverify_signal_handler, bind, assign, read, raw_call, do, skip, pure.
  simpl. destruct h as [h|]; simpl;
    repeat match goal with
           | |- context [neqb ?x ?y] => destruct (neqb x y); simpl
           end;
    (split; [reflexivity|]);
    rewrite ?filter_app; simpl; rewrite ?app_nil_r; reflexivity.
Qed.

(** Line 351 is taken when the flag is set at line 349. *)
Lemma main_aborted s :
  main_to_open e initial_state = (Normal tt, s) ->
  ewfverify_abort s <> 0 ->
  main e = from_on_abort e s.
Proof.
  intros Hs Ha. unfold main.
  rewrite (run_ext e _ _ _ (main_body_around_abort_check e)).
  rewrite (run_bind_normal e _ _ _ _ Hs).
  rewrite (run_bind_goto e _ _ s on_abort s); [reflexivity|].
  unfold stage_abort_check, bind, read. apply neqb_true in Ha. rewrite Ha. reflexivity.
Qed.

End FromOnAbort.

(** C5 (amended): the signal handler sets the abort flag and, when a
    verification handle exists, signals it to abort.  When the flag is
    set at line 349, where [verification_handle_open_input] has returned,
    no verification driver is called in the whole run, the program
    returns EXIT_FAILURE and never reports SUCCESS; it reports ABORTED
    when closing and freeing the handle succeed. *)
Theorem cancellation_honoured (e : env) :
  (forall s,
     ewfverify_abort (snd (ewfverify_signal_handler e s)) = 1 /\
     filter is_signal_abort (trace (snd (ewfverify_signal_handler e s))) =
     filter is_signal_abort (trace s) ++
     match ewfverify_verification_handle s with
     | Some _ => [Called verification_handle_signal_abort
                    (ret (extern e verification_handle_signal_abort))]
     | None => []
     end) /\
  (forall s,
     main_to_open e initial_state = (Normal tt, s) ->
     ewfverify_abort s <> 0 ->
     fst (main e) = EXIT_FAILURE /\
     filter is_driver (trace (snd (main e))) = [] /\
     filter is_success (trace (snd (main e))) = [] /\
     (ret (extern e (verification_handle_close true)) = 0 ->
      ret (extern e (verification_handle_free true)) = 1 ->
      exists t, trace (snd (main e)) = trace s ++ t ++ [ABORTED_line])).
Proof.
  split; [apply handler_effect|].
  intros s Hs Ha.
  rewrite (main_aborted e s Hs Ha), from_on_abort_eq.
  pose proof (on_abort_cleanup_no_driver e s) as Fd.
  pose proof (on_abort_cleanup_no_success e s) as Fs.
  pose proof (on_abort_cleanup_abort e s Ha) as Fa.
  destruct (extends_any_trace _ _ (on_abort_cleanup_any e s)) as [tc Tc].
  pose proof (on_abort_cleanup_eq e s) as Heq. cbv zeta in Heq.
  apply filter_extends in Fd, Fs.
  rewrite (normal_filter _ _ _ _ (main_to_open_no_driver e) Hs) in Fd.
  rewrite (normal_filter _ _ _ _ (main_to_open_no_success e) Hs) in Fs.
  simpl in Fd, Fs.
  destruct (on_abort_cleanup e s) as [[[]|c|l] sc]; simpl in Fd, Fs, Fa, Tc.
  - unfold nonzero in Fa. apply neqb_true in Fa. rewrite Fa. simpl.
    rewrite !filter_app, Fd, Fs. repeat split; try reflexivity.
    intros _ _. exists tc. rewrite Tc, app_assoc. reflexivity.
  - rewrite from_on_error_eq. simpl.
    pose proof (from_on_error_extends e _ (at_on_error_no_driver e) sc) as Xd.
    pose proof (from_on_error_extends e _ (at_on_error_no_success e) sc) as Xs.
    rewrite from_on_error_eq in Xd, Xs. simpl in Xd, Xs.
    apply filter_extends in Xd, Xs. rewrite Xd, Xs, Fd, Fs.
    repeat split; try reflexivity.
    intros Hc Hf. rewrite Hc, Hf in Heq. simpl in Heq. discriminate.
  - rewrite from_on_error_eq. simpl.
    pose proof (from_on_error_extends e _ (at_on_error_no_driver e) sc) as Xd.
    pose proof (from_on_error_extends e _ (at_on_error_no_success e) sc) as Xs.
    rewrite from_on_error_eq in Xd, Xs. simpl in Xd, Xs.
    apply filter_extends in Xd, Xs. rewrite Xd, Xs, Fd, Fs.
    repeat split; try reflexivity.
    intros Hc Hf. rewrite Hc, Hf in Heq. simpl in Heq. discriminate.
Qed.

(** ** The exit status *)

Section ExitStatus.

Variable e : env.

Lemma stage_log_close_status : steps (same status) (stage_log_close e).
Proof. same_frames. Qed.

Lemma stage_status_eq s :
  stage_status e s =
  (Normal tt,
   set_status (if result s != 1 then PROCESS_STATUS_FAILED e
               else PROCESS_STATUS_COMPLETED e) s).
Proof.
  unfold stage_status, bind, read. destruct (neqb (result s) 1); reflexivity.
Qed.

Lemma result_after_verify s :
  result (snd (stage_verify e s)) = ret (extern e (chosen_driver e s)).
Proof.
  rewrite stage_verify_eq. cbv zeta. destruct (neqb _ 1); reflexivity.
Qed.

(** When [main] falls through to [on_abort], one driver has run and
    [status] tells whether it returned 1. *)
Lemma main_body_normal sb :
  main_body e initial_state = (Normal tt, sb) ->
  exists sv,
    main_to_verify e initial_state = (Normal tt, sv) /\
    let r := ret (extern e (chosen_driver e sv)) in
    filter is_driver (trace sb) = [Called (chosen_driver e sv) r] /\
    status sb = if r != 1 then PROCESS_STATUS_FAILED e else PROCESS_STATUS_COMPLETED e.
Proof.
  rewrite main_body_around_verify. intros H.
  apply bind_normal_inv in H. destruct H as [[] [sv [Hv H]]].
  apply bind_normal_inv in H. destruct H as [[] [s1 [H1 H]]].
  exists sv. split; [exact Hv|]. cbv zeta.
  assert (E1 : s1 = snd (stage_verify e sv)) by (rewrite H1; reflexivity).
  split.
  - rewrite (normal_filter _ _ _ _ (after_verify_no_driver e) H).
    rewrite E1, stage_verify_calls.
    rewrite (normal_filter _ _ _ _ (main_to_verify_no_driver e) Hv). reflexivity.
  - unfold main_after_verify in H.
    apply bind_normal_inv in H. destruct H as [[] [s2 [H2 H3]]].
    pose proof (stage_log_close_status s2) as Hst. rewrite H3 in Hst.
    unfold same in Hst. simpl in Hst. rewrite Hst.
    rewrite stage_status_eq in H2. inversion H2; subst s2; clear H2.
    simpl. rewrite E1, result_after_verify. reflexivity.
Qed.

End ExitStatus.

(** C1 (amended): in every run that reaches the report, that is, in
    which the handle was closed and freed at [on_abort], the last thing
    printed is one of three lines.  With the abort flag set it is
    ABORTED and the program returns EXIT_FAILURE.  With the flag clear,
    exactly one driver has run; if it did not return 1 the line is
    FAILURE and the program returns EXIT_FAILURE, the same status as for
    an aborted run, and if it returned 1 the line is SUCCESS and the
    program returns EXIT_SUCCESS. *)
Theorem exit_status_mapping (e : env) :
  PROCESS_STATUS_COMPLETED e <> PROCESS_STATUS_FAILED e ->
  In (Called (verification_handle_free true) 1) (trace (snd (main e))) ->
  (ewfverify_abort (snd (main e)) <> 0 ->
   fst (main e) = EXIT_FAILURE /\
   exists t, trace (snd (main e)) = t ++ [ABORTED_line]) /\
  (ewfverify_abort (snd (main e)) = 0 ->
   exists c r,
     filter is_driver (trace (snd (main e))) = [Called c r] /\
     (r <> 1 ->
      fst (main e) = EXIT_FAILURE /\
      exists t, trace (snd (main e)) = t ++ [FAILURE_line]) /\
     (r = 1 ->
      fst (main e) = EXIT_SUCCESS /\
      exists t, trace (snd (main e)) = t ++ [SUCCESS_line])).
Proof.
  intros Hne Hin.
  assert (Hf : filter is_final_free (trace (snd (main e))) <> []).
  { intros E. assert (H : In (Called (verification_handle_free true) 1)
                           (filter is_final_free (trace (snd (main e))))).
    { apply filter_In. split; [exact Hin|reflexivity]. }
    rewrite E in H. destruct H. }
  clear Hin. revert Hf. unfold main, run.
  pose proof (main_body_no_final_free e initial_state) as Fb.
  apply filter_extends in Fb. simpl in Fb.
  pose proof (main_body_abort_jump e) as Hj.
  pose proof (main_body_normal e) as Hn.
  destruct (main_body e initial_state) as [[[]|c|[]] sb]; simpl in Fb.
  2:{ simpl. intros Hf. rewrite Fb in Hf. congruence. }
  2:{ intros Hf. exfalso. apply Hf.
      rewrite (filter_extends _ _ _ (from_on_error_extends e _ (at_on_error_no_final_free e) sb)).
      exact Fb. }
  - (* fell through to on_abort *)
    clear Hj. destruct (Hn sb eq_refl) as [sv [Hv Hrs]]. cbv zeta in Hrs.
    destruct Hrs as [Hd Hst]. clear Hn.
    rewrite from_on_abort_eq.
    pose proof (on_abort_cleanup_no_driver e sb) as Fd. apply filter_extends in Fd.
    pose proof (on_abort_cleanup_status e sb) as Fs. unfold same in Fs.
    pose proof (on_abort_cleanup_jump e sb) as Fj.
    pose proof (on_abort_cleanup_outcome e sb) as Fo.
    destruct (on_abort_cleanup e sb) as [[[]|c|l] sc]; simpl in Fd, Fs, Fo.
    + intros _.
      destruct (neqb (ewfverify_abort sc) 0) eqn:Ea.
      * apply neqb_true in Ea. simpl. split.
        -- intros _. split; [reflexivity|]. exists (trace sc). reflexivity.
        -- intros H0. congruence.
      * apply neqb_false in Ea. rewrite Fs, Hst.
        set (r := ret (extern e (chosen_driver e sv))) in *.
        destruct (neqb r 1) eqn:Er.
        -- apply neqb_true in Er.
           assert (Hs : neqb (PROCESS_STATUS_FAILED e) (PROCESS_STATUS_COMPLETED e) = true)
             by (apply neqb_true; congruence).
           rewrite Hs. simpl. split; [intros H; congruence|].
           intros _. exists (chosen_driver e sv), r. split.
           ++ rewrite filter_app, Fd, Hd. reflexivity.
           ++ split; [|intros H1; congruence].
              intros _. split; [reflexivity|]. exists (trace sc). reflexivity.
        -- apply neqb_false in Er.
           assert (Hs : neqb (PROCESS_STATUS_COMPLETED e) (PROCESS_STATUS_COMPLETED e) = false)
             by (apply neqb_false; reflexivity).
           rewrite Hs. simpl. split; [intros H; congruence|].
           intros _. exists (chosen_driver e sv), r. split.
           ++ rewrite filter_app, Fd, Hd. reflexivity.
           ++ split; [intros H1; congruence|].
              intros _. split; [reflexivity|]. exists (trace sc). reflexivity.
    + destruct Fo; discriminate.
    + intros Hf. exfalso. apply Hf.
      rewrite (filter_extends _ _ _ (from_on_error_extends e _ (at_on_error_no_final_free e) sc)).
      rewrite (Fj l sc eq_refl). exact Fb.
  - (* jumped to on_abort from line 351 *)
    clear Hn. destruct (Hj sb eq_refl) as [_ Ha]. clear Hj.
    rewrite from_on_abort_eq.
    pose proof (on_abort_cleanup_abort e sb Ha) as Fa. unfold nonzero in Fa.
    pose proof (on_abort_cleanup_jump e sb) as Fj.
    pose proof (on_abort_cleanup_outcome e sb) as Fo.
    destruct (on_abort_cleanup e sb) as [[[]|c|l] sc]; simpl in Fa, Fo.
    + intros _. apply neqb_true in Fa. rewrite Fa. simpl. apply neqb_true in Fa. split.
      * intros _. split; [reflexivity|]. exists (trace sc). reflexivity.
      * intros H0. congruence.
    + destruct Fo; discriminate.
    + intros Hf. exfalso. apply Hf.
      rewrite (filter_extends _ _ _ (from_on_error_extends e _ (at_on_error_no_final_free e) sc)).
      rewrite (Fj l sc eq_refl). exact Fb.
Qed.

(** * The claims on sample runs *)

Ltac pick_member := repeat first [ left; reflexivity | right ].

Lemma no_files_is_an_error_witness :
  remaining env_no_files = [] /\
  main_through_options env_no_files initial_state =
    (Normal tt, snd (main_through_options env_no_files initial_state)) /\
  exists s' tail,
    main env_no_files = (EXIT_FAILURE, s') /\
    trace s' =
      trace (snd (main_through_options env_no_files initial_state))
      ++ Fprintf stderr ("Missing EWF image file(s)." +++ nl)
      :: usage_events stdout ++ tail /\
    filter is_create_or_open (trace s') = [] /\
    ewfverify_verification_handle s' = None.
Proof.
  split; [reflexivity|]. split; [vm_compute; reflexivity|].
  apply (no_files_is_an_error env_no_files); [reflexivity | vm_compute; reflexivity].
Defined.

(** Counterexample to C1 as stated: an aborted run and a failed run
    return the same exit status; only the printed line tells them
    apart. *)
Lemma aborted_and_failed_share_the_exit_status :
  ewfverify_abort (snd (main env_aborted)) = 1 /\
  In ABORTED_line (trace (snd (main env_aborted))) /\
  ewfverify_abort (snd (main env_failed)) = 0 /\
  In FAILURE_line (trace (snd (main env_failed))) /\
  ~ fst (main env_aborted) <> fst (main env_failed).
Proof.
  vm_compute. repeat split; try pick_member. intros H. apply H. reflexivity.
Qed.

(** The three lines of the report differ. *)
Lemma report_lines_differ :
  ABORTED_line <> FAILURE_line /\ ABORTED_line <> SUCCESS_line /\
  FAILURE_line <> SUCCESS_line.
Proof. repeat split; intros H; vm_compute in H; discriminate H. Qed.

(** A run whose driver completed with errors (result 0) and a run whose
    driver could not complete (result -1) return the same status and
    print the same lines. *)
Lemma failed_and_incomplete_look_alike :
  fst (main env_failed) = fst (main env_incomplete) /\
  filter is_fprintf (trace (snd (main env_failed))) =
  filter is_fprintf (trace (snd (main env_incomplete))).
Proof. vm_compute. split; reflexivity. Qed.

Lemma exit_status_mapping_witness :
  PROCESS_STATUS_COMPLETED env_clean <> PROCESS_STATUS_FAILED env_clean /\
  In (Called (verification_handle_free true) 1) (trace (snd (main env_clean))) /\
  (ewfverify_abort (snd (main env_clean)) <> 0 ->
   fst (main env_clean) = EXIT_FAILURE /\
   exists t, trace (snd (main env_clean)) = t ++ [ABORTED_line]) /\
  (ewfverify_abort (snd (main env_clean)) = 0 ->
   exists c r,
     filter is_driver (trace (snd (main env_clean))) = [Called c r] /\
     (r <> 1 ->
      fst (main env_clean) = EXIT_FAILURE /\
      exists t, trace (snd (main env_clean)) = t ++ [FAILURE_line]) /\
     (r = 1 ->
      fst (main env_clean) = EXIT_SUCCESS /\
      exists t, trace (snd (main env_clean)) = t ++ [SUCCESS_line])).
Proof.
  assert (H1 : PROCESS_STATUS_COMPLETED env_clean <> PROCESS_STATUS_FAILED env_clean)
    by (simpl; lia).
  assert (H2 : In (Called (verification_handle_free true) 1) (trace (snd (main env_clean))))
    by (vm_compute; pick_member).
  split; [exact H1|]. split; [exact H2|].
  exact (exit_status_mapping env_clean H1 H2).
Defined.

Lemma open_failure_is_fatal_witness :
  main_to_open env_open_fails initial_state =
    (Normal tt, snd (main_to_open env_open_fails initial_state)) /\
  ret (extern env_open_fails
         (verification_handle_open_input
            (argv_filenames (snd (main_to_open env_open_fails initial_state))))) <> 1 /\
  ewfverify_abort (snd (main_to_open env_open_fails initial_state)) = 0 /\
  exists s' t1 t2 t3 r1 r2,
    main env_open_fails = (EXIT_FAILURE, s') /\
    filter is_driver (trace s') = [] /\
    trace s' =
      trace (snd (main_to_open env_open_fails initial_state))
      ++ Fprintf stderr ("Unable to open EWF image file(s)." +++ nl)
      :: t1 ++ Called (verification_handle_close false) r1
      :: t2 ++ Called (verification_handle_free false) r2 :: t3.
Proof.
  assert (H1 : main_to_open env_open_fails initial_state =
               (Normal tt, snd (main_to_open env_open_fails initial_state)))
    by (vm_compute; reflexivity).
  assert (H2 : ret (extern env_open_fails
                      (verification_handle_open_input
                         (argv_filenames (snd (main_to_open env_open_fails initial_state)))))
               <> 1) by (vm_compute; discriminate).
  assert (H3 : ewfverify_abort (snd (main_to_open env_open_fails initial_state)) = 0)
    by (vm_compute; reflexivity).
  split; [exact H1|]. split; [exact H2|]. split; [exact H3|].
  exact (open_failure_is_fatal env_open_fails _ H1 H2 H3).
Defined.

(** Counterexample to C3 as stated: [-d sha1x] enables SHA-1 although no
    [-d sha1] option was given. *)
Lemma sha1_enabled_by_longer_argument :
  In (Called (verification_handle_initialize 1 1 0) 1) (trace (snd (main env_sha1x))) /\
  ~ (exists g, In g (getopt env_sha1x) /\ opt g = "d"%char /\ optarg g = "sha1").
Proof.
  split.
  - vm_compute. pick_member.
  - intros [g [[<-|[]] [_ H]]]. discriminate H.
Qed.

Lemma handle_digest_flags_witness :
  In (Called (verification_handle_initialize 1 1 0) 1) (trace (snd (main env_sha1x))) /\
  1 = 1 /\
  (1 = 1 <->
   exists g, In g (getopt env_sha1x) /\ opt g = "d"%char /\
             String.prefix "sha1" (optarg g) = true) /\
  (1 = 0 \/ 1 = 1) /\
  (0 = 1 <->
   exists g, In g (getopt env_sha1x) /\ opt g = "d"%char /\
             String.prefix "sha256" (optarg g) = true) /\
  (0 = 0 \/ 0 = 1).
Proof.
  assert (H : In (Called (verification_handle_initialize 1 1 0) 1)
                (trace (snd (main env_sha1x)))) by (vm_compute; pick_member).
  split; [exact H|].
  exact (handle_digest_flags env_sha1x 1 1 0 1 (fun _ _ _ => eq_refl) H).
Defined.

(** Counterexample to C5 as stated: the abort flag is set when
    [verification_handle_open_input] returns, but closing the handle
    fails and the program ends through [on_error] without reporting
    ABORTED. *)
Lemma aborted_run_without_report :
  main_to_open env_aborted_close_fails initial_state =
    (Normal tt, snd (main_to_open env_aborted_close_fails initial_state)) /\
  ewfverify_abort (snd (main_to_open env_aborted_close_fails initial_state)) = 1 /\
  ~ In ABORTED_line (trace (snd (main env_aborted_close_fails))).
Proof.
  split; [vm_compute; reflexivity|]. split; [vm_compute; reflexivity|].
  vm_compute. intros H.
  repeat (destruct H as [H|H]; [discriminate H|]). exact H.
Qed.

Lemma cancellation_honoured_witness :
  main_to_open env_aborted initial_state =
    (Normal tt, snd (main_to_open env_aborted initial_state)) /\
  ewfverify_abort (snd (main_to_open env_aborted initial_state)) <> 0 /\
  fst (main env_aborted) = EXIT_FAILURE /\
  filter is_driver (trace (snd (main env_aborted))) = [] /\
  filter is_success (trace (snd (main env_aborted))) = [] /\
  exists t,
    trace (snd (main env_aborted)) =
    trace (snd (main_to_open env_aborted initial_state)) ++ t ++ [ABORTED_line].
Proof.
  assert (H1 : main_to_open env_aborted initial_state =
               (Normal tt, snd (main_to_open env_aborted initial_state)))
    by (vm_compute; reflexivity).
  assert (H2 : ewfverify_abort (snd (main_to_open env_aborted initial_state)) <> 0)
    by (vm_compute; discriminate).
  split; [exact H1|]. split; [exact H2|].
  destruct (proj2 (cancellation_honoured env_aborted) _ H1 H2) as (A & B & C & D).
  split; [exact A|]. split; [exact B|]. split; [exact C|].
  apply D; reflexivity.
Defined.

Lemma zero_policy_installed_witness :
  main_to_verify env_zero initial_state =
    (Normal tt, snd (main_to_verify env_zero initial_state)) /\
  exists z t c r,
    (z = 1 <-> exists g, In g (getopt env_zero) /\ opt g = "w"%char) /\
    (z = 0 \/ z = 1) /\
    filter is_set_zero (trace (snd (main_to_verify env_zero initial_state))) =
      [Called (verification_handle_set_zero_chunk_on_error z) 1] /\
    filter is_driver (trace (snd (main_to_verify env_zero initial_state))) = [] /\
    trace (snd (main env_zero)) =
      trace (snd (main_to_verify env_zero initial_state)) ++ t /\
    filter is_driver t = [Called c r].
Proof.
  assert (H1 : main_to_verify env_zero initial_state =
               (Normal tt, snd (main_to_verify env_zero initial_state)))
    by (vm_compute; reflexivity).
  split; [exact H1|].
  exact (zero_policy_installed env_zero _ H1).
Defined.

Lemma process_buffer_size_default_witness :
  (main_to_size env_huge_size initial_state =
     (Normal tt, snd (main_to_size env_huge_size initial_state)) /\
   option_process_buffer_size (opts (snd (main_to_size env_huge_size initial_state))) =
     Some "18446744073709551615" /\
   ret (extern env_huge_size
          (verification_handle_set_process_buffer_size "18446744073709551615")) <> -1 /\
   18446744073709551615 > SSIZE_MAX env_huge_size /\
   ewfverify_verification_handle (snd (main_to_log env_huge_size initial_state)) =
     Some (mk_handle 114 0) /\
   In (Fprintf stderr ("Unsupported process buffer size defaulting to: chunk size." +++ nl))
      (trace (snd (main env_huge_size)))) /\
  (main_to_size env_bad_size initial_state =
     (Normal tt, snd (main_to_size env_bad_size initial_state)) /\
   option_process_buffer_size (opts (snd (main_to_size env_bad_size initial_state))) =
     Some "junk" /\
   ret (extern env_bad_size (verification_handle_set_process_buffer_size "junk")) = 0 /\
   ewfverify_verification_handle (snd (main_to_log env_bad_size initial_state)) =
     Some (mk_handle 114 0) /\
   In (Fprintf stderr ("Unsupported process buffer size defaulting to: chunk size." +++ nl))
      (trace (snd (main env_bad_size)))).
Proof.
  split.
  - assert (H1 : main_to_size env_huge_size initial_state =
                 (Normal tt, snd (main_to_size env_huge_size initial_state)))
      by (vm_compute; reflexivity).
    assert (H2 : option_process_buffer_size
                   (opts (snd (main_to_size env_huge_size initial_state))) =
                 Some "18446744073709551615") by (vm_compute; reflexivity).
    assert (H3 : ret (extern env_huge_size
                        (verification_handle_set_process_buffer_size
                           "18446744073709551615")) <> -1)
      by (vm_compute; discriminate).
    assert (H4 : 18446744073709551615 > SSIZE_MAX env_huge_size)
      by (vm_compute; reflexivity).
    split; [exact H1|]. split; [exact H2|]. split; [exact H3|]. split; [exact H4|].
    destruct (proj2 (process_buffer_size_default env_huge_size _ H1) _ H2)
      as [h [Hh [Hreset _]]].
    assert (Eh : h = mk_handle 114 18446744073709551615).
    { vm_compute in Hh. injection Hh as Hh. symmetry. exact Hh. }
    subst h.
    destruct (Hreset (or_intror (conj H3 H4))) as [Hlog [t Ht]].
    rewrite Hlog, Ht. split; [reflexivity|].
    apply in_or_app. left. rewrite trace_log_event. apply in_or_app. right.
    left. reflexivity.
  - assert (H1 : main_to_size env_bad_size initial_state =
                 (Normal tt, snd (main_to_size env_bad_size initial_state)))
      by (vm_compute; reflexivity).
    assert (H2 : option_process_buffer_size
                   (opts (snd (main_to_size env_bad_size initial_state))) = Some "junk")
      by (vm_compute; reflexivity).
    assert (H3 : ret (extern env_bad_size
                        (verification_handle_set_process_buffer_size "junk")) = 0)
      by reflexivity.
    split; [exact H1|]. split; [exact H2|]. split; [exact H3|].
    destruct (proj2 (process_buffer_size_default env_bad_size _ H1) _ H2)
      as [h [Hh [Hreset _]]].
    assert (Eh : h = mk_handle 114 0).
    { vm_compute in Hh. injection Hh as Hh. symmetry. exact Hh. }
    subst h.
    destruct (Hreset (or_introl H3)) as [Hlog [t Ht]].
    rewrite Hlog, Ht. split; [reflexivity|].
    apply in_or_app. left. rewrite trace_log_event. apply in_or_app. right.
    left. reflexivity.
Defined.

Lemma exactly_one_driver_witness :
  main_to_verify env_clean initial_state =
    (Normal tt, snd (main_to_verify env_clean initial_state)) /\
  exists h,
    ewfverify_verification_handle (snd (main_to_verify env_clean initial_state)) = Some h /\
    filter is_driver (trace (snd (main_to_verify env_clean initial_state))) = [] /\
    let c :=
      if input_format h =? VERIFICATION_HANDLE_INPUT_FORMAT_FILES env_clean
      then verification_handle_verify_single_files
             (print_status_information (opts (snd (main_to_verify env_clean initial_state))))
             (log_handle (snd (main_to_verify env_clean initial_state)))
      else verification_handle_verify_input
             (print_status_information (opts (snd (main_to_verify env_clean initial_state))))
             (log_handle (snd (main_to_verify env_clean initial_state))) in
    filter is_driver (trace (snd (main env_clean))) = [Called c (ret (extern env_clean c))].
Proof.
  assert (H1 : main_to_verify env_clean initial_state =
               (Normal tt, snd (main_to_verify env_clean initial_state)))
    by (vm_compute; reflexivity).
  split; [exact H1|].
  exact (exactly_one_driver env_clean _ H1).
Defined.

(** * The verification engine: one corrupted chunk *)

Module EngineFacts.

Import Stdlib.Init.Byte.
Import Engine.

Local Open Scope nat_scope.

Section WithPrimitives.

Variable inflate : list byte -> option (list byte).
Variable checksum : list byte -> Z.
Variable context : Type.
Variable digest : Type.
Variable hash_init : algorithm -> context.
Variable hash_update : algorithm -> context -> list byte -> context.
Variable hash_finalize : algorithm -> context -> digest.

Local Abbreviation read_chunk := (Engine.read_chunk inflate checksum).
Local Abbreviation start := (Engine.start context hash_init).
Local Abbreviation update := (Engine.update context hash_update).
Local Abbreviation finalize := (Engine.finalize context digest hash_finalize).
Local Abbreviation drive :=
  (Engine.drive inflate checksum context digest hash_update hash_finalize).
Local Abbreviation run :=
  (Engine.run inflate checksum context digest hash_init hash_update hash_finalize).
Local Abbreviation chunk_plaintext := (Engine.chunk_plaintext inflate checksum).
Local Abbreviation zeroed_stream_from := (Engine.zeroed_stream_from inflate checksum).
Local Abbreviation zeroed_stream := (Engine.zeroed_stream inflate checksum).
Local Abbreviation reference_digests :=
  (Engine.reference_digests context digest hash_init hash_update hash_finalize).

(** The hashers are incremental: feeding a stream in pieces is feeding
    it at once. *)
Hypothesis hash_update_nil : forall a c, hash_update a c [] = c.
Hypothesis hash_update_app :
  forall a c x y, hash_update a (hash_update a c x) y = hash_update a c (x ++ y).

Lemma update_nil p : update p [] = p.
Proof.
  unfold update. induction p as [|[a c] p IH]; simpl; [reflexivity|].
  rewrite hash_update_nil, IH. reflexivity.
Qed.

Lemma update_app p x y : update (update p x) y = update p (x ++ y).
Proof.
  unfold update. rewrite map_map. apply map_ext. intros [a c]. simpl.
  rewrite hash_update_app. reflexivity.
Qed.

Lemma finalize_start algs stream :
  finalize (update (start algs) stream) = reference_digests algs stream.
Proof.
  unfold finalize, update, start, reference_digests. rewrite !map_map. reflexivity.
Qed.

Lemma resolve_in_bound files : forall first index d,
  resolve_in files first index = Some d ->
  index < List.length (List.concat (map entries files)).
Proof.
  induction files as [|f fs IH]; intros first index d H; simpl in *.
  - discriminate.
  - rewrite length_app.
    destruct (nth_error (entries f) index) eqn:E.
    + assert (index < List.length (entries f)) by (apply nth_error_Some; congruence). lia.
    + apply nth_error_None in E. apply IH in H. lia.
Qed.

Lemma resolve_bound es index d : resolve es index = Some d -> index < total_chunks es.
Proof. apply resolve_in_bound. Qed.

Lemma resolve_in_some files : forall first index,
  index < List.length (List.concat (map entries files)) ->
  exists d, resolve_in files first index = Some d.
Proof.
  induction files as [|f fs IH]; intros first index H; simpl in *.
  - lia.
  - rewrite length_app in H.
    destruct (nth_error (entries f) index) eqn:E.
    + eexists. reflexivity.
    + apply nth_error_None in E. apply IH. lia.
Qed.

(** Every index below the total chunk count resolves. *)
Lemma resolve_some es index : index < total_chunks es -> exists d, resolve es index = Some d.
Proof. apply resolve_in_some. Qed.

Section OneCorruptChunk.

Variable ss : session.
Variable k : nat.

Let es := evidence ss.
Let the_error := mk_error k (k * chunk_size es) ChecksumMismatch.

Hypothesis zero_fill : zero_chunk_on_error ss = true.
Hypothesis not_cancelled : forall i, cancelled ss i = false.
Hypothesis others_sound :
  forall i d, resolve es i = Some d -> i <> k -> exists p, read_chunk d = ReadOk p.
Hypothesis one_corrupt :
  exists d p, resolve es k = Some d /\
              read_chunk d = ReadCorrupt ChecksumMismatch (Some p) /\
              List.length p = nominal_size es k.

Lemma zeroed_stream_from_step count first :
  zeroed_stream_from es k (S count) first =
  (if first =? k then repeat x00 (List.length (chunk_plaintext es first))
   else chunk_plaintext es first) ++ zeroed_stream_from es k count (S first).
Proof. reflexivity. Qed.

Lemma drive_from : forall count index p errors,
  index + count = total_chunks es ->
  drive ss count index p errors =
  Completed (finalize (update p (zeroed_stream_from es k count index)))
            (errors ++ (if index <=? k then [the_error] else [])).
Proof.
  induction count as [|n IH]; intros index p errors Hsum.
  - simpl. unfold zeroed_stream_from. simpl. rewrite update_nil.
    destruct one_corrupt as (d & q & Hr & _ & _).
    assert (Hk : k < total_chunks es) by apply (resolve_bound _ _ _ Hr).
    destruct (Nat.leb_spec index k); [lia|]. rewrite app_nil_r. reflexivity.
  - simpl drive. fold es. rewrite not_cancelled, zeroed_stream_from_step.
    destruct (Nat.eqb_spec index k) as [->|Hne].
    + destruct one_corrupt as (d & q & Hr & Hread & Hlen).
      rewrite Hr, Hread, zero_fill.
      rewrite IH by lia. rewrite update_app.
      unfold chunk_plaintext. rewrite Hr, Hread, Hlen.
      rewrite <- app_assoc. rewrite Nat.leb_refl.
      destruct (Nat.leb_spec (S k) k); [lia|]. reflexivity.
    + destruct (resolve_some es index) as [d Hr]; [lia|].
      destruct (others_sound index d Hr Hne) as [q Hread].
      rewrite Hr, Hread. rewrite IH by lia. rewrite update_app.
      unfold chunk_plaintext. rewrite Hr, Hread.
      destruct (Nat.leb_spec index k), (Nat.leb_spec (S index) k); try lia; reflexivity.
Qed.


End OneCorruptChunk.

End WithPrimitives.

End EngineFacts.



(** * Further properties of the program *)

(** ** The cases of the switch *)

Section Switch.

Variable e : env.

Lemma option_case_help g s :
  opt g = "h"%char ->
  option_case e g s = (Return EXIT_SUCCESS, log_events (usage_events stdout) s).
Proof.
  intros H. unfold option_case. rewrite H. cbv iota.
  unfold bind. rewrite usage_fprint_eq. reflexivity.
Qed.

Lemma option_case_version g s :
  opt g = "V"%char ->
  option_case e g s = (Return EXIT_SUCCESS, log_event (Did ewfoutput_copyright_fprint) s).
Proof.
  intros H. unfold option_case. rewrite H. reflexivity.
Qed.

Lemma option_case_invalid g s :
  is_known_option g = false ->
  option_case e g s =
  (Goto on_error,
   log_events (usage_events stdout)
     (log_event (Fprintf stderr ("Invalid argument: " +++ last_arg g +++ nl)) s)).
Proof.
  unfold is_known_option, is_plain_option, option_is, option_case. intros H.
  destruct (opt g) as [[] [] [] [] [] [] [] []]; simpl in H; try discriminate H;
    cbv iota; unfold fprintf, assign, bind at 1; unfold bind; rewrite usage_fprint_eq;
    reflexivity.
Qed.

Lemma option_case_plain g s :
  is_plain_option g = true -> fst (option_case e g s) = Normal tt.
Proof.
  unfold is_plain_option, option_is, option_case. intros H.
  destruct (opt g) as [[] [] [] [] [] [] [] []]; simpl in H; try discriminate H;
    cbv iota; try reflexivity.
  destruct (_ =? 0); [reflexivity|]. destruct (_ =? 0); reflexivity.
Qed.

Lemma option_loop_app gs1 gs2 s :
  option_loop e (gs1 ++ gs2) s = (option_loop e gs1 ;; option_loop e gs2) s.
Proof.
  revert s. induction gs1 as [|g gs1 IH]; intros s; simpl.
  - reflexivity.
  - rewrite bind_assoc. apply bind_ext. intros _ s1. apply IH.
Qed.

Lemma option_loop_plain gs : forall s,
  forallb is_plain_option gs = true ->
  option_loop e gs s = (Normal tt, snd (option_loop e gs s)).
Proof.
  induction gs as [|g gs IH]; simpl; intros s H.
  - reflexivity.
  - apply andb_true_iff in H. destruct H as [Hg Hgs].
    pose proof (option_case_plain g s Hg) as Hc.
    unfold bind. destruct (option_case e g s) as [[[]|c|l] s1]; simpl in Hc; try discriminate.
    apply IH. exact Hgs.
Qed.

(** The loop stops at the first option that is not plain. *)
Lemma option_loop_stops pre g post s :
  forallb is_plain_option pre = true ->
  fst (option_case e g (snd (option_loop e pre s))) <> Normal tt ->
  option_loop e (pre ++ g :: post) s = option_case e g (snd (option_loop e pre s)).
Proof.
  intros Hpre Hg. rewrite option_loop_app.
  rewrite (bind_normal _ _ _ _ _ (option_loop_plain pre s Hpre)).
  simpl. unfold bind.
  destruct (option_case e g _) as [[[]|c|l] s1]; simpl in *; congruence.
Qed.

End Switch.

(** ** How statements exit *)

Lemma exits_bind {A B} Q (m : M A) (k : A -> M B) :
  exits_with Q m -> (forall a, exits_with Q (k a)) -> exits_with Q (bind m k).
Proof.
  intros Hm Hk s. specialize (Hm s). unfold bind.
  destruct (m s) as [[a|c|l] s1]; simpl in *; try exact Hm. apply Hk.
Qed.

Lemma exits_falls {A} Q (m : M A) : falls_through m -> exits_with Q m.
Proof. intros H s. destruct (H s) as [a Ha]. rewrite Ha. exact I. Qed.

Lemma exits_return Q c : Q (Returned c) -> exits_with Q (return_ c).
Proof. intros H s. exact H. Qed.

Lemma exits_goto Q l : Q (Jumped l) -> exits_with Q (goto l).
Proof. intros H s. exact H. Qed.

(** Decomposes a statement along its structure; [prim] closes the goals
    about the returns and jumps. *)
Ltac exits_struct prim :=
  repeat match goal with
    | |- exits_with _ (bind _ _) => apply exits_bind; [ | intro ]
    | |- exits_with _ (extcall _ _) => apply exits_falls; apply falls_extcall
    | |- exits_with _ (tick _ _) => apply exits_falls; apply falls_tick
    | |- exits_with _ (raw_call _ _) => apply exits_falls; apply falls_raw_call
    | |- exits_with _ (pure _) => apply exits_falls; apply falls_pure
    | |- exits_with _ (read _) => apply exits_falls; apply falls_read
    | |- exits_with _ (assign _) => apply exits_falls; apply falls_assign
    | |- exits_with _ (fprintf_each _ _) => apply exits_falls; apply falls_fprintf_each
    | |- exits_with _ (usage_fprint (Some _)) => apply exits_falls; apply falls_fprintf_each
    | |- exits_with _ (return_ _) => apply exits_return; prim
    | |- exits_with _ (goto _) => apply exits_goto; prim
    | |- exits_with _ (if ?b then _ else _) => destruct b
    | |- exits_with _ (match ?o with Some _ => _ | None => _ end) => destruct o
    | |- exits_with _ (match ?l with nil => _ | cons _ _ => _ end) => destruct l
    | |- exits_with _ _ => prim
    end.

Section Exits.

Variable e : env.

Lemma option_case_returns_success g : exits_with returns_success (option_case e g).
Proof.
  unfold option_case.
  destruct (opt g) as [[] [] [] [] [] [] [] []];
    open_stages; exits_struct ltac:(first [reflexivity | exact I]).
Qed.

Lemma option_loop_returns_success gs : exits_with returns_success (option_loop e gs).
Proof.
  induction gs as [|g gs IH]; simpl.
  - apply exits_falls, falls_pure.
  - apply exits_bind; [apply option_case_returns_success | intro; exact IH].
Qed.

(** Every [return] before the label [on_abort] returns EXIT_SUCCESS. *)
Lemma main_body_returns_success : exits_with returns_success (main_body e).
Proof.
  open_blocks. open_stages.
  exits_struct ltac:(first [apply option_loop_returns_success | reflexivity | exact I]).
Qed.

(** There is no [return] between the option loop and the label
    [on_abort]. *)
Lemma startup_never_returns : exits_with never_returns (stage_startup e).
Proof. open_stages. exits_struct ltac:(exact I). Qed.

Lemma after_options_never_returns :
  exits_with never_returns
    (main_options_to_initialize e ;; main_initialize_to_open e ;; main_open_to_zero e ;;
     stage_zero_chunk_on_error e ;; stage_process_buffer_size e ;; stage_log_open e ;;
     main_from_verify e).
Proof. open_blocks. open_stages. exits_struct ltac:(exact I). Qed.

Lemma after_initialize_never_returns : exits_with never_returns (main_after_initialize e).
Proof. unfold main_after_initialize. open_blocks. open_stages. exits_struct ltac:(exact I). Qed.

End Exits.

(** ** Runs that end in or before the option loop *)

Section EarlyExits.

Variable e : env.

Lemma stage_startup_eq s :
  stage_startup e s =
  if ret (extern e libsystem_initialize) != 1
  then (Goto on_error,
        log_event (Fprintf stderr ("Unable to initialize system values." +++ nl))
          (after_startup_call e s))
  else (Normal tt,
        log_event (Did (ewfoutput_version_fprint program)) (after_startup_call e s)).
Proof.
  unfold stage_startup, after_startup_call.
  unfold do at 1 2. unfold bind at 1, assign at 1. unfold bind at 1, assign at 1.
  rewrite bind_extcall. unfold bind at 1.
  destruct (neqb _ 1); reflexivity.
Qed.

Lemma through_options_stops pre g post :
  ret (extern e libsystem_initialize) = 1 ->
  getopt e = pre ++ g :: post ->
  forallb is_plain_option pre = true ->
  fst (option_case e g (snd (option_loop e pre (at_option_loop e)))) <> Normal tt ->
  main_through_options e initial_state =
  option_case e g (snd (option_loop e pre (at_option_loop e))).
Proof.
  intros Hr Hg Hpre Hstop. unfold main_through_options.
  erewrite bind_normal.
  2:{ rewrite stage_startup_eq. apply neqb_false in Hr. rewrite Hr. reflexivity. }
  unfold stage_options. rewrite Hg. apply option_loop_stops; assumption.
Qed.

Lemma through_options_trace_null :
  filter is_create_or_open (trace (snd (main_through_options e initial_state))) = [] /\
  ewfverify_verification_handle (snd (main_through_options e initial_state)) = None /\
  log_handle (snd (main_through_options e initial_state)) = false /\
  glob (snd (main_through_options e initial_state)) = false.
Proof.
  split; [|split; [|split]].
  - rewrite (filter_extends _ _ _ (through_options_no_create e initial_state)). reflexivity.
  - apply (through_options_null e initial_state). reflexivity.
  - apply (through_options_no_log e initial_state). reflexivity.
  - apply (through_options_no_glob e initial_state). reflexivity.
Qed.

Lemma main_returns_in_options c s :
  main_through_options e initial_state = (Return c, s) -> main e = (c, s).
Proof. intros H. unfold main, main_body. apply run_bind_return. exact H. Qed.

Lemma main_fails_in_options s :
  main_through_options e initial_state = (Goto on_error, s) ->
  main e =
  (EXIT_FAILURE,
   if error s
   then set_error false
          (log_events [Did libsystem_notify_print_error_backtrace; Did liberror_error_free] s)
   else s).
Proof.
  intros H. destruct through_options_trace_null as [_ [Hh [Hl Hg]]].
  rewrite H in Hh, Hl, Hg. simpl in Hh, Hl, Hg.
  unfold main, main_body. rewrite (run_bind_goto e _ _ _ _ _ H).
  rewrite from_on_error_eq, cleanup_nothing_to_release by assumption. reflexivity.
Qed.

End EarlyExits.

(** X1: when the first option that is not a plain setting is [-h], and the
    system values were initialized, the program prints the usage text on
    stdout as the last thing it does and returns EXIT_SUCCESS; it has
    created no handle and opened no file, whatever options and file
    arguments follow. *)
Theorem help_prints_usage_and_succeeds (e : env) (pre post : list getopt_result)
    (g : getopt_result) :
  ret (extern e libsystem_initialize) = 1 ->
  getopt e = pre ++ g :: post ->
  forallb is_plain_option pre = true ->
  opt g = "h"%char ->
  fst (main e) = EXIT_SUCCESS /\
  (exists t, trace (snd (main e)) = t ++ usage_events stdout) /\
  filter is_create_or_open (trace (snd (main e))) = [] /\
  ewfverify_verification_handle (snd (main e)) = None.
Proof.
  intros Hr Hg Hpre Hh.
  assert (H : main_through_options e initial_state =
              (Return EXIT_SUCCESS,
               log_events (usage_events stdout) (snd (option_loop e pre (at_option_loop e))))).
  { rewrite (through_options_stops e pre g post Hr Hg Hpre).
    - apply option_case_help. exact Hh.
    - rewrite option_case_help by exact Hh. discriminate. }
  destruct (through_options_trace_null e) as [Hc [Hn _]].
  rewrite H in Hc, Hn. rewrite (main_returns_in_options e _ _ H).
  split; [reflexivity|]. split; [|split; assumption].
  eexists. apply trace_log_events.
Qed.

(** X2: when the first option that is not a plain setting is [-V], and
    the system values were initialized, the program prints the copyright
    notice as the last thing it does and returns EXIT_SUCCESS; it has
    created no handle and opened no file. *)
Theorem version_prints_copyright_and_succeeds (e : env) (pre post : list getopt_result)
    (g : getopt_result) :
  ret (extern e libsystem_initialize) = 1 ->
  getopt e = pre ++ g :: post ->
  forallb is_plain_option pre = true ->
  opt g = "V"%char ->
  fst (main e) = EXIT_SUCCESS /\
  (exists t, trace (snd (main e)) = t ++ [Did ewfoutput_copyright_fprint]) /\
  filter is_create_or_open (trace (snd (main e))) = [] /\
  ewfverify_verification_handle (snd (main e)) = None.
Proof.
  intros Hr Hg Hpre Hv.
  assert (H : main_through_options e initial_state =
              (Return EXIT_SUCCESS,
               log_event (Did ewfoutput_copyright_fprint)
                 (snd (option_loop e pre (at_option_loop e))))).
  { rewrite (through_options_stops e pre g post Hr Hg Hpre).
    - apply option_case_version. exact Hv.
    - rewrite option_case_version by exact Hv. discriminate. }
  destruct (through_options_trace_null e) as [Hc [Hn _]].
  rewrite H in Hc, Hn. rewrite (main_returns_in_options e _ _ H).
  split; [reflexivity|]. split; [|split; assumption].
  eexists. apply trace_log_event.
Qed.


(** ** Events the signal handler does not produce *)

Section HandlerFree.

Variable e : env.
Variable q : event -> bool.
Hypothesis Hq : handler_free q.

Lemma filter_tick c s : filter q (trace (snd (tick e c s))) = filter q (trace s).
Proof.
  apply filter_extends. apply steps_tick; [apply extends_pre|].
  apply handler_extends; intros; unfold non.
  - rewrite (handler_free_signal_abort _ Hq). reflexivity.
  - rewrite (handler_free_close_stdin _ Hq). reflexivity.
  - rewrite (handler_free_did _ Hq). reflexivity.
Qed.

Lemma filter_after_call_free c s :
  filter q (trace (after_call e c s)) =
  filter q (trace s) ++ filter q [Called c (ret (extern e c))].
Proof. rewrite trace_after_call, filter_app, filter_tick. reflexivity. Qed.

End HandlerFree.

Lemma handler_free_fprintf : handler_free is_fprintf.
Proof. split; intros; reflexivity. Qed.

Lemma handler_no_version e : steps (extends (non is_version)) (ewfverify_signal_handler e).
Proof.
  unfold ewfverify_signal_handler. open_stages.
  steps_struct (extends_pre (non is_version)) ltac:(extends_prim).
Qed.

Lemma tick_error e c : steps (same error) (tick e c).
Proof.
  intros s. unfold same, tick. destruct (signal_during e c); [|reflexivity].
  destruct s as [h a er g lh o fs r st t].
  unfold ewfverify_signal_handler, bind, assign, read, raw_call, do, skip, pure.
  simpl. destruct h as [h|]; simpl;
    repeat match goal with
           | |- context [neqb ?x ?y] => destruct (neqb x y); simpl
           end;
    rewrite ?andb_false_r, ?orb_false_r; reflexivity.
Qed.

Lemma error_pointer_effect e c r s : error (pointer_effect e c r s) = error s.
Proof. destruct c; simpl; try reflexivity; destruct (r =? 1); reflexivity. Qed.

(** A call leaves an error in [main] when it is given [&error] and
    stores one there. *)
Lemma error_after_call e c s :
  error (after_call e c s) = error s || (passes_error c && err (extern e c)).
Proof.
  unfold after_call, raw_call. cbn [snd]. simpl error.
  rewrite error_pointer_effect, (tick_error e c s). reflexivity.
Qed.

(** X4: when [libsystem_initialize] fails, the program prints, right
    after the call, that it cannot initialize the system values, then at
    [on_error] the backtrace of the error if the call has left one, and
    returns EXIT_FAILURE.  The message is the only thing it prints with
    [fprintf]; the version banner is not shown, the options are not
    looked at, and no handle is created. *)
Theorem startup_failure_is_fatal (e : env) :
  ret (extern e libsystem_initialize) <> 1 ->
  fst (main e) = EXIT_FAILURE /\
  (exists t,
     trace (snd (main e)) =
     t ++ Called libsystem_initialize (ret (extern e libsystem_initialize))
       :: Fprintf stderr ("Unable to initialize system values." +++ nl)
       :: (if err (extern e libsystem_initialize)
           then [Did libsystem_notify_print_error_backtrace; Did liberror_error_free]
           else [])) /\
  filter is_fprintf (trace (snd (main e))) =
    [Fprintf stderr ("Unable to initialize system values." +++ nl)] /\
  filter is_version (trace (snd (main e))) = [] /\
  filter is_create_or_open (trace (snd (main e))) = [] /\
  ewfverify_verification_handle (snd (main e)) = None.
Proof.
  intros Hr.
  set (s2 := log_event (Fprintf stderr ("Unable to initialize system values." +++ nl))
               (after_startup_call e initial_state)).
  assert (H : main_through_options e initial_state = (Goto on_error, s2)).
  { unfold main_through_options. apply bind_goto. rewrite stage_startup_eq.
    apply neqb_true in Hr. rewrite Hr. reflexivity. }
  destruct (through_options_trace_null e) as [Hc [Hn _]].
  rewrite H in Hc, Hn. cbn [snd] in Hc, Hn.
  rewrite (main_fails_in_options e _ H).
  assert (Hf : filter is_fprintf (trace s2) =
               [Fprintf stderr ("Unable to initialize system values." +++ nl)]).
  { unfold s2, after_startup_call.
    rewrite trace_log_event, filter_app, (filter_after_call_free e _ handler_free_fprintf).
    reflexivity. }
  assert (Hv : filter is_version (trace s2) = []).
  { unfold s2, after_startup_call.
    rewrite trace_log_event, filter_app, trace_after_call, filter_app.
    rewrite (filter_extends is_version _ _
               (steps_tick e _ libsystem_initialize (extends_pre _)
                  (handler_no_version e) _)).
    reflexivity. }
  assert (He : error s2 = err (extern e libsystem_initialize)).
  { unfold s2, after_startup_call.
    change (error (log_event ?ev ?x)) with (error x).
    rewrite error_after_call. reflexivity. }
  assert (Ht : exists t,
             trace s2 =
             t ++ [Called libsystem_initialize (ret (extern e libsystem_initialize));
                   Fprintf stderr ("Unable to initialize system values." +++ nl)]).
  { eexists. unfold s2, after_startup_call.
    rewrite trace_log_event, trace_after_call, <- app_assoc. reflexivity. }
  destruct Ht as [t Ht].
  split; [reflexivity|].
  rewrite He. destruct (err (extern e libsystem_initialize)); cbn [snd].
  - rewrite trace_set_error, trace_log_events.
    split; [|split; [|split; [|split; [|exact Hn]]]].
    + exists t. rewrite Ht, <- app_assoc. reflexivity.
    + rewrite filter_app, Hf. reflexivity.
    + rewrite filter_app, Hv. reflexivity.
    + rewrite filter_app, Hc. reflexivity.
  - split; [exists t; exact Ht|]. repeat split; assumption.
Qed.

(** ** The exit status *)

Lemma bind_return_inv {A B} (m : M A) (k : A -> M B) s c s' :
  bind m k s = (Return c, s') ->
  m s = (Return c, s') \/ exists a s1, m s = (Normal a, s1) /\ k a s1 = (Return c, s').
Proof.
  unfold bind. destruct (m s) as [[a|c1|l] s1]; intros H; try discriminate.
  - right. exists a, s1. split; [reflexivity | exact H].
  - left. inversion H. reflexivity.
Qed.

Section ExitCodes.

Variable e : env.

Lemma option_case_return g s c s' :
  option_case e g s = (Return c, s') ->
  s' = log_events (usage_events stdout) s \/
  s' = log_event (Did ewfoutput_copyright_fprint) s.
Proof.
  intros H.
  destruct (is_plain_option g) eqn:Ep.
  { pose proof (option_case_plain e g s Ep) as Hn. rewrite H in Hn. discriminate. }
  destruct (option_is "h" g) eqn:Eh.
  { apply Ascii.eqb_eq in Eh. rewrite (option_case_help e g s Eh) in H.
    inversion H. left. reflexivity. }
  destruct (option_is "V" g) eqn:Ev.
  { apply Ascii.eqb_eq in Ev. rewrite (option_case_version e g s Ev) in H.
    inversion H. right. reflexivity. }
  rewrite option_case_invalid in H; [discriminate|].
  unfold is_known_option. rewrite Ep, Eh, Ev. reflexivity.
Qed.

Lemma option_loop_return gs : forall s c s',
  option_loop e gs s = (Return c, s') ->
  exists s0,
    s' = log_events (usage_events stdout) s0 \/
    s' = log_event (Did ewfoutput_copyright_fprint) s0.
Proof.
  induction gs as [|g gs IH]; simpl; intros s c s' H.
  - discriminate.
  - apply bind_return_inv in H. destruct H as [H | [[] [s1 [_ H]]]].
    + exists s. eapply option_case_return. exact H.
    + eapply IH. exact H.
Qed.

(** A [return] before the label [on_abort] is that of [-h] or [-V]. *)
Lemma main_body_return s c s' :
  main_body e s = (Return c, s') ->
  c = EXIT_SUCCESS /\
  exists s0,
    s' = log_events (usage_events stdout) s0 \/
    s' = log_event (Did ewfoutput_copyright_fprint) s0.
Proof.
  intros H. split.
  { pose proof (main_body_returns_success e s) as Hc. rewrite H in Hc. exact Hc. }
  unfold main_body, main_through_options in H. rewrite bind_assoc in H.
  apply bind_return_inv in H. destruct H as [H | [[] [s1 [_ H]]]].
  { pose proof (startup_never_returns e s) as Hc. rewrite H in Hc. destruct Hc. }
  apply bind_return_inv in H. destruct H as [H | [[] [s2 [_ H]]]].
  { eapply option_loop_return. exact H. }
  pose proof (after_options_never_returns e s2) as Hc. rewrite H in Hc. destruct Hc.
Qed.

End ExitCodes.

(** X5: [main] returns EXIT_SUCCESS or EXIT_FAILURE and nothing else; and
    it returns EXIT_SUCCESS only when the last thing it did was to print
    the SUCCESS line of the report, the usage text asked for by [-h], or
    the copyright notice asked for by [-V]. *)
Theorem exit_status_is_binary (e : env) :
  (fst (main e) = EXIT_SUCCESS \/ fst (main e) = EXIT_FAILURE) /\
  (fst (main e) = EXIT_SUCCESS ->
   exists t,
     trace (snd (main e)) = t ++ [SUCCESS_line] \/
     trace (snd (main e)) = t ++ usage_events stdout \/
     trace (snd (main e)) = t ++ [Did ewfoutput_copyright_fprint]).
Proof.
  assert (Ha : forall s,
    (fst (from_on_abort e s) = EXIT_SUCCESS \/ fst (from_on_abort e s) = EXIT_FAILURE) /\
    (fst (from_on_abort e s) = EXIT_SUCCESS ->
     exists t, trace (snd (from_on_abort e s)) = t ++ [SUCCESS_line])).
  { intros s. rewrite from_on_abort_eq.
    destruct (on_abort_cleanup e s) as [[[]|c|l] sc];
      try (rewrite from_on_error_eq; split; [right; reflexivity | discriminate]).
    destruct (neqb (ewfverify_abort sc) 0);
      [split; [right; reflexivity | discriminate]|].
    destruct (neqb (status sc) _);
      [split; [right; reflexivity | discriminate]|].
    split; [left; reflexivity|]. intros _. exists (trace sc). apply trace_log_event. }
  unfold main, run.
  destruct (main_body e initial_state) as [[[]|c|[]] sb] eqn:Hb.
  - destruct (Ha sb) as [H1 H2]. split; [exact H1|].
    intros H. destruct (H2 H) as [t Ht]. exists t. left. exact Ht.
  - destruct (main_body_return e _ _ _ Hb) as [Hc [s0 Hs]]. subst c.
    split; [left; reflexivity|]. intros _. exists (trace s0).
    destruct Hs as [Hs | Hs]; subst sb; cbn [snd].
    + right. left. apply trace_log_events.
    + right. right. apply trace_log_event.
  - rewrite from_on_error_eq. split; [right; reflexivity | discriminate].
  - destruct (Ha sb) as [H1 H2]. split; [exact H1|].
    intros H. destruct (H2 H) as [t Ht]. exists t. left. exact Ht.
Qed.

Section Success.

Variable e : env.

Lemma main_body_no_success : steps (extends (non is_success)) (main_body e).
Proof. frames harmless_non_success. Qed.

Lemma from_on_error_no_success s :
  filter is_success (trace (snd (from_on_error e s))) = filter is_success (trace s).
Proof.
  apply filter_extends. apply from_on_error_extends. apply at_on_error_no_success.
Qed.

(** The releases before the report, when they succeed. *)
Lemma on_abort_cleanup_normal s sc :
  on_abort_cleanup e s = (Normal tt, sc) ->
  In (Called (verification_handle_close true) 0) (trace sc) /\
  In (Called (verification_handle_free true) 1) (trace sc) /\
  ewfverify_verification_handle sc = None.
Proof.
  rewrite on_abort_cleanup_eq. cbv zeta.
  destruct (neqb (ret (extern e (verification_handle_close true))) 0) eqn:Ec;
    [discriminate|].
  destruct (neqb (ret (extern e (verification_handle_free true))) 1) eqn:Ef;
    [discriminate|].
  apply neqb_false in Ec, Ef. intros H. inversion H; clear H.
  rewrite handle_after_call. rewrite trace_after_call, Ef.
  destruct (tick_trace e (verification_handle_free true)
              (after_call e (verification_handle_close true) (after_detach e s)))
    as [hs Hhs].
  rewrite Hhs, trace_after_call, Ec.
  split; [|split].
  - rewrite !in_app_iff. left. left. right. left. reflexivity.
  - rewrite !in_app_iff. right. left. reflexivity.
  - unfold pointer_effect. simpl. reflexivity.
Qed.

End Success.

(** X6: the SUCCESS line is never printed for a run that was aborted,
    whose driver did not return 1, or whose handle could not be closed
    and freed: when it appears in the output, it is the last event, the
    program returns EXIT_SUCCESS, the abort flag is clear, the one driver
    call of the run returned 1, and the handle was closed and freed with
    success. *)
Theorem success_is_never_reported_falsely (e : env) :
  PROCESS_STATUS_COMPLETED e <> PROCESS_STATUS_FAILED e ->
  In SUCCESS_line (trace (snd (main e))) ->
  fst (main e) = EXIT_SUCCESS /\
  ewfverify_abort (snd (main e)) = 0 /\
  (exists c, filter is_driver (trace (snd (main e))) = [Called c 1]) /\
  In (Called (verification_handle_close true) 0) (trace (snd (main e))) /\
  In (Called (verification_handle_free true) 1) (trace (snd (main e))) /\
  ewfverify_verification_handle (snd (main e)) = None /\
  exists t, trace (snd (main e)) = t ++ [SUCCESS_line].
Proof.
  intros Hst Hin.
  assert (Hs : filter is_success (trace (snd (main e))) <> []).
  { intros E. assert (Hf : In SUCCESS_line (filter is_success (trace (snd (main e))))).
    { apply filter_In. split; [exact Hin | reflexivity]. }
    rewrite E in Hf. destruct Hf. }
  clear Hin. revert Hs. unfold main, run.
  pose proof (main_body_no_success e initial_state) as Hb0.
  apply filter_extends in Hb0. simpl in Hb0.
  assert (Herr : forall s, filter is_success (trace s) = [] ->
                           filter is_success (trace (snd (from_on_error e s))) <> [] -> False).
  { intros s Hs H. apply H. rewrite from_on_error_no_success. exact Hs. }
  assert (Hab : forall sb,
    filter is_success (trace sb) = [] ->
    filter is_success (trace (snd (from_on_abort e sb))) <> [] ->
    exists sc,
      on_abort_cleanup e sb = (Normal tt, sc) /\
      ewfverify_abort sc = 0 /\ status sc = PROCESS_STATUS_COMPLETED e /\
      from_on_abort e sb = (EXIT_SUCCESS, log_event SUCCESS_line sc)).
  { intros sb Hsb. rewrite from_on_abort_eq.
    pose proof (on_abort_cleanup_no_success e sb) as Hc.
    apply filter_extends in Hc. rewrite Hsb in Hc.
    destruct (on_abort_cleanup e sb) as [[[]|c|l] sc]; cbn [snd] in Hc;
      try (intros H; exfalso; exact (Herr _ Hc H)).
    destruct (neqb (ewfverify_abort sc) 0) eqn:Ea.
    { cbn [snd]. rewrite trace_log_event, filter_app, Hc. intros H. exfalso. apply H.
      reflexivity. }
    destruct (neqb (status sc) _) eqn:Es.
    { cbn [snd]. rewrite trace_log_event, filter_app, Hc. intros H. exfalso. apply H.
      reflexivity. }
    intros _. apply neqb_false in Ea, Es. exists sc. repeat split; assumption. }
  assert (Hfin : forall sb sc c,
    on_abort_cleanup e sb = (Normal tt, sc) ->
    ewfverify_abort sc = 0 ->
    filter is_driver (trace sb) = [Called c 1] ->
    fst (EXIT_SUCCESS, log_event SUCCESS_line sc) = EXIT_SUCCESS /\
    ewfverify_abort (snd (EXIT_SUCCESS, log_event SUCCESS_line sc)) = 0 /\
    (exists c, filter is_driver (trace (snd (EXIT_SUCCESS, log_event SUCCESS_line sc))) =
               [Called c 1]) /\
    In (Called (verification_handle_close true) 0)
       (trace (snd (EXIT_SUCCESS, log_event SUCCESS_line sc))) /\
    In (Called (verification_handle_free true) 1)
       (trace (snd (EXIT_SUCCESS, log_event SUCCESS_line sc))) /\
    ewfverify_verification_handle (snd (EXIT_SUCCESS, log_event SUCCESS_line sc)) = None /\
    exists t, trace (snd (EXIT_SUCCESS, log_event SUCCESS_line sc)) = t ++ [SUCCESS_line]).
  { intros sb sc c Hc Ha Hd. cbn [fst snd].
    destruct (on_abort_cleanup_normal e _ _ Hc) as [Hcl [Hfr Hnone]].
    pose proof (on_abort_cleanup_no_driver e sb) as Hnd.
    apply filter_extends in Hnd. rewrite Hc in Hnd. cbn [snd] in Hnd.
    rewrite trace_log_event.
    split; [reflexivity|]. split; [exact Ha|].
    split; [exists c; rewrite filter_app, Hnd, Hd; reflexivity|].
    split; [apply in_or_app; left; exact Hcl|].
    split; [apply in_or_app; left; exact Hfr|].
    split; [exact Hnone|]. exists (trace sc). reflexivity. }
  destruct (main_body e initial_state) as [[[]|c|[]] sb] eqn:Hb; cbn [snd] in Hb0.
  - intros Hs. destruct (Hab sb Hb0 Hs) as [sc [Hc [Ha [Hstat Heq]]]].
    rewrite Heq.
    destruct (main_body_normal e _ Hb) as [sv [_ Hv]]. cbv zeta in Hv.
    destruct Hv as [Hd Hstatus].
    pose proof (on_abort_cleanup_status e sb) as Hsame. rewrite Hc in Hsame.
    unfold same in Hsame. cbn [snd] in Hsame.
    destruct (neqb (ret (extern e (chosen_driver e sv))) 1) eqn:Er.
    { exfalso. apply Hst. congruence. }
    apply neqb_false in Er. rewrite Er in Hd.
    exact (Hfin sb sc _ Hc Ha Hd).
  - cbn [snd]. intros Hs. exfalso. apply Hs. exact Hb0.
  - intros Hs. exfalso. exact (Herr _ Hb0 Hs).
  - intros Hs. destruct (Hab sb Hb0 Hs) as [sc [Hc [Ha _]]].
    exfalso. destruct (main_body_abort_jump e _ Hb) as [_ Hnz].
    pose proof (on_abort_cleanup_abort e sb Hnz) as Hk. rewrite Hc in Hk.
    apply Hk. exact Ha.
Qed.

(** ** The string options *)

Lemma option_case_strings e g s s' :
  option_case e g s = (Normal tt, s') ->
  option_header_codepage (opts s') =
    (if option_is "A" g then Some (optarg g) else option_header_codepage (opts s)) /\
  option_format (opts s') =
    (if option_is "f" g then Some (optarg g) else option_format (opts s)) /\
  log_filename (opts s') =
    (if option_is "l" g then Some (optarg g) else log_filename (opts s)) /\
  option_process_buffer_size (opts s') =
    (if option_is "p" g then Some (optarg g) else option_process_buffer_size (opts s)) /\
  print_status_information (opts s') =
    (if option_is "q" g then 0 else print_status_information (opts s)) /\
  verbose (opts s') = flag (option_is "v" g) (verbose (opts s)).
Proof.
  unfold option_case, option_is, flag. intros H.
  destruct (opt g) as [[] [] [] [] [] [] [] []];
    repeat match type of H with
           | context [if ?b then _ else _] => destruct b
           end;
    cbv beta iota delta [bind fprintf do assign return_ goto set_option] in H;
    try (rewrite usage_fprint_eq in H; cbv beta iota in H);
    try discriminate H;
    inversion H; subst; clear H; simpl; repeat split; reflexivity.
Qed.

Lemma option_loop_strings e gs : forall s s',
  option_loop e gs s = (Normal tt, s') ->
  option_header_codepage (opts s') =
    last_optarg "A" gs (option_header_codepage (opts s)) /\
  option_format (opts s') = last_optarg "f" gs (option_format (opts s)) /\
  log_filename (opts s') = last_optarg "l" gs (log_filename (opts s)) /\
  option_process_buffer_size (opts s') =
    last_optarg "p" gs (option_process_buffer_size (opts s)) /\
  print_status_information (opts s') =
    (if existsb (option_is "q") gs then 0 else print_status_information (opts s)) /\
  verbose (opts s') = flag (existsb (option_is "v") gs) (verbose (opts s)).
Proof.
  induction gs as [|g gs IH]; intros s s' H.
  - simpl in H. inversion H; subst. simpl. repeat split; reflexivity.
  - simpl in H. apply bind_normal_inv in H. destruct H as [[] [s1 [H1 H2]]].
    apply option_case_strings in H1. apply IH in H2.
    destruct H1 as (A1 & A2 & A3 & A4 & A5 & A6).
    destruct H2 as (B1 & B2 & B3 & B4 & B5 & B6).
    unfold last_optarg in *. simpl fold_left. simpl existsb.
    rewrite B1, B2, B3, B4, B5, B6, A1, A2, A3, A4, A5, A6.
    repeat split; try reflexivity.
    + destruct (option_is "q" g), (existsb (option_is "q") gs); reflexivity.
    + unfold flag. destruct (option_is "v" g), (existsb (option_is "v") gs); reflexivity.
Qed.

(** The last option of a kind is the one no later option of the kind
    follows. *)
Lemma last_optarg_some c gs : forall d a,
  last_optarg c gs d = Some a <->
  (exists pre g post,
     gs = pre ++ g :: post /\ opt g = c /\ optarg g = a /\
     existsb (option_is c) post = false) \/
  (existsb (option_is c) gs = false /\ d = Some a).
Proof.
  unfold last_optarg.
  induction gs as [|g gs IH]; intros d a; simpl.
  - split.
    + intros H. right. split; [reflexivity | exact H].
    + intros [[pre [g [post [H _]]]] | [_ H]]; [destruct pre; discriminate | exact H].
  - rewrite IH. destruct (option_is c g) eqn:Eg; simpl; split.
    + intros [[pre [g' [post [H1 [H2 [H3 H4]]]]]] | [H1 H2]].
      * left. exists (g :: pre), g', post. subst gs. repeat split; assumption.
      * left. exists [], g, gs. inversion H2.
        repeat split; try assumption. apply Ascii.eqb_eq. exact Eg.
    + intros [[pre [g' [post [H1 [H2 [H3 H4]]]]]] | [H _]]; [|discriminate].
      destruct pre as [|g0 pre]; simpl in H1; inversion H1; subst.
      * right. split; [exact H4 | reflexivity].
      * left. exists pre, g', post. repeat split; assumption.
    + intros [[pre [g' [post [H1 [H2 [H3 H4]]]]]] | [H1 H2]].
      * left. exists (g :: pre), g', post. subst gs. repeat split; assumption.
      * right. split; assumption.
    + intros [[pre [g' [post [H1 [H2 [H3 H4]]]]]] | [H1 H2]].
      * destruct pre as [|g0 pre]; simpl in H1; inversion H1; subst.
        { unfold option_is in Eg. rewrite Ascii.eqb_refl in Eg. discriminate. }
        left. exists pre, g', post. repeat split; assumption.
      * right. split; assumption.
Qed.

Lemma last_optarg_none c gs : forall d,
  last_optarg c gs d = None <-> existsb (option_is c) gs = false /\ d = None.
Proof.
  unfold last_optarg.
  induction gs as [|g gs IH]; intros d; simpl.
  - split; [intros H; split; [reflexivity | exact H] | intros [_ H]; exact H].
  - rewrite IH. destruct (option_is c g); simpl; split.
    + intros [_ H]. discriminate.
    + intros [H _]. discriminate.
    + intros H. exact H.
    + intros H. exact H.
Qed.

Section Settled.

Variable e : env.

Lemma settled_through_options s :
  main_through_options e initial_state = (Normal tt, s) -> settled e (opts s).
Proof.
  intros H. unfold main_through_options in H.
  apply bind_normal_inv in H. destruct H as [[] [s0 [H0 H1]]].
  pose proof (stage_startup_opts e initial_state) as Hs. rewrite H0 in Hs.
  unfold same in Hs. simpl in Hs.
  apply option_loop_strings in H1. rewrite Hs in H1. exact H1.
Qed.

Lemma opts_at_initialize s :
  main_to_initialize e initial_state = (Normal tt, s) ->
  exists s0, main_through_options e initial_state = (Normal tt, s0) /\ opts s = opts s0.
Proof.
  intros H. apply (normal_same opts) in H; [|apply options_to_initialize_opts].
  exact H.
Qed.

Lemma opts_at_open s :
  main_to_open e initial_state = (Normal tt, s) ->
  exists s0, main_through_options e initial_state = (Normal tt, s0) /\ opts s = opts s0.
Proof.
  intros H. apply (normal_same opts) in H; [|apply initialize_to_open_opts].
  destruct H as [s1 [H1 E]]. rewrite E. apply opts_at_initialize. exact H1.
Qed.

Lemma opts_at_zero s :
  main_to_zero e initial_state = (Normal tt, s) ->
  exists s0, main_through_options e initial_state = (Normal tt, s0) /\ opts s = opts s0.
Proof.
  intros H. apply (normal_same opts) in H; [|apply open_to_zero_opts].
  destruct H as [s1 [H1 E]]. rewrite E. apply opts_at_open. exact H1.
Qed.

Lemma opts_at_size s :
  main_to_size e initial_state = (Normal tt, s) ->
  exists s0, main_through_options e initial_state = (Normal tt, s0) /\ opts s = opts s0.
Proof.
  intros H. apply (normal_same opts) in H; [|apply stage_zero_opts].
  destruct H as [s1 [H1 E]]. rewrite E. apply opts_at_zero. exact H1.
Qed.

Lemma opts_at_log s :
  main_to_log e initial_state = (Normal tt, s) ->
  exists s0, main_through_options e initial_state = (Normal tt, s0) /\ opts s = opts s0.
Proof.
  intros H. apply (normal_same opts) in H; [|apply stage_size_opts].
  destruct H as [s1 [H1 E]]. rewrite E. apply opts_at_size. exact H1.
Qed.

Lemma opts_at_verify s :
  main_to_verify e initial_state = (Normal tt, s) ->
  exists s0, main_through_options e initial_state = (Normal tt, s0) /\ opts s = opts s0.
Proof.
  intros H. apply (normal_same opts) in H; [|apply stage_log_open_opts].
  destruct H as [s1 [H1 E]]. rewrite E. apply opts_at_log. exact H1.
Qed.

Lemma settled_at_log s :
  main_to_log e initial_state = (Normal tt, s) -> settled e (opts s).
Proof.
  intros H. destruct (opts_at_log s H) as [s0 [H0 E]]. rewrite E.
  apply settled_through_options. exact H0.
Qed.

Lemma settled_at_verify s :
  main_to_verify e initial_state = (Normal tt, s) -> settled e (opts s).
Proof.
  intros H. destruct (opts_at_verify s H) as [s0 [H0 E]]. rewrite E.
  apply settled_through_options. exact H0.
Qed.

End Settled.

(** X7: when the option loop ends at line 267, each of the string locals
    of [-A], [-f], [-l] and [-p] holds the argument of the last option of
    its kind, that is, of the one no later option of the kind follows,
    and is NULL when there was none; status information is off exactly
    when a [-q] was given, and the verbosity is 1 exactly when a [-v]
    was given. *)
Theorem last_option_wins (e : env) (s : state) :
  main_through_options e initial_state = (Normal tt, s) ->
  settled e (opts s) /\
  (forall c a,
     last_optarg c (getopt e) None = Some a <->
     exists pre g post,
       getopt e = pre ++ g :: post /\ opt g = c /\ optarg g = a /\
       existsb (option_is c) post = false) /\
  (forall c, last_optarg c (getopt e) None = None <->
             existsb (option_is c) (getopt e) = false).
Proof.
  intros H. split; [apply settled_through_options; exact H|]. split.
  - intros c a. rewrite last_optarg_some. split.
    + intros [H1 | [_ H1]]; [exact H1 | discriminate].
    + intros H1. left. exact H1.
  - intros c. rewrite last_optarg_none. split.
    + intros [H1 _]. exact H1.
    + intros H1. split; [exact H1 | reflexivity].
Qed.

(** ** The log file *)

Lemma harmless_non_log_open : harmless (non is_log_open).
Proof. harmless_tac. Qed.

Section LogFile.

Variable e : env.

Lemma main_to_log_unset : steps (keeps log_handle unset) (main_to_log e).
Proof. keeps_frames. Qed.

Lemma main_to_log_no_log_open : steps (extends (non is_log_open)) (main_to_log e).
Proof. frames harmless_non_log_open. Qed.

Lemma main_from_verify_no_log_open : steps (extends (non is_log_open)) (main_from_verify e).
Proof. frames harmless_non_log_open. Qed.

Lemma at_on_abort_no_log_open : steps (extends (non is_log_open)) (at_on_abort e).
Proof. frames harmless_non_log_open. Qed.

Lemma at_on_error_no_log_open : steps (extends (non is_log_open)) (at_on_error e).
Proof. frames harmless_non_log_open. Qed.

Lemma tick_log_handle c : steps (same log_handle) (tick e c).
Proof.
  apply steps_tick; [apply same_pre|].
  unfold ewfverify_signal_handler. same_frames.
Qed.

Lemma log_handle_after_call c s :
  log_handle (after_call e c s) =
  match c with
  | log_handle_initialize => if ret (extern e c) =? 1 then true else log_handle s
  | log_handle_free _ => if ret (extern e c) =? 1 then false else log_handle s
  | _ => log_handle s
  end.
Proof.
  unfold after_call, raw_call. cbn [snd].
  pose proof (tick_log_handle c s) as H. unfold same in H.
  destruct c; simpl; try exact H;
    try (destruct (ewfverify_verification_handle _); exact H);
    destruct (_ =? 1); simpl; first [exact H | reflexivity].
Qed.

Lemma stage_log_open_unset s :
  log_filename (opts s) = None -> stage_log_open e s = (Normal tt, s).
Proof.
  intros H. unfold stage_log_open. unfold bind at 1. unfold read. rewrite H. reflexivity.
Qed.

Lemma stage_log_open_set s filename :
  log_filename (opts s) = Some filename ->
  let s1 := after_call e log_handle_initialize s in
  let s2 := after_call e (log_handle_open filename) s1 in
  stage_log_open e s =
  if ret (extern e log_handle_initialize) != 1 then
    (Goto on_error, log_event (Fprintf stderr ("Unable to create log handle." +++ nl)) s1)
  else if ret (extern e (log_handle_open filename)) != 1 then
    (Goto on_error,
     log_event (Fprintf stderr ("Unable to open log file: " +++ filename +++ "." +++ nl)) s2)
  else (Normal tt, s2).
Proof.
  intros H. cbv zeta. unfold stage_log_open. unfold bind at 1. unfold read.
  rewrite H. rewrite bind_extcall. unfold bind at 1.
  destruct (neqb (ret (extern e log_handle_initialize)) 1); [reflexivity|].
  unfold skip at 1, pure at 1. rewrite bind_extcall.
  destruct (neqb (ret (extern e (log_handle_open filename))) 1); reflexivity.
Qed.

(** The log handle and the calls of [log_handle_open] at line 478. *)
Lemma log_at_verify s :
  main_to_verify e initial_state = (Normal tt, s) ->
  log_handle s = existsb (option_is "l") (getopt e) /\
  filter is_log_open (trace s) =
    match last_optarg "l" (getopt e) None with
    | Some filename => [Called (log_handle_open filename) 1]
    | None => []
    end.
Proof.
  intros H. unfold main_to_verify in H.
  apply bind_normal_inv in H. destruct H as [[] [s3 [H3 H]]].
  destruct (settled_at_log e s3 H3) as (_ & _ & Hl & _).
  pose proof (main_to_log_unset initial_state) as Hu. rewrite H3 in Hu.
  specialize (Hu eq_refl). unfold unset in Hu. cbn [snd] in Hu.
  pose proof (normal_filter _ _ _ _ main_to_log_no_log_open H3) as Hf. simpl in Hf.
  destruct (last_optarg "l" (getopt e) None) as [filename|] eqn:El.
  - assert (Ex : existsb (option_is "l") (getopt e) = true).
    { destruct (existsb (option_is "l") (getopt e)) eqn:Ex; [reflexivity|].
      assert (Hn : last_optarg "l" (getopt e) None = None)
        by (apply last_optarg_none; split; [exact Ex | reflexivity]).
      congruence. }
    rewrite (stage_log_open_set s3 filename Hl) in H. cbv zeta in H.
    destruct (neqb (ret (extern e log_handle_initialize)) 1) eqn:E1; [discriminate|].
    destruct (neqb (ret (extern e (log_handle_open filename))) 1) eqn:E2; [discriminate|].
    apply neqb_false in E1, E2. inversion H; clear H. split.
    + rewrite !log_handle_after_call, E1, Ex. reflexivity.
    + rewrite !(filter_after_call e _ _ _ harmless_non_log_open), Hf, E2. reflexivity.
  - rewrite (stage_log_open_unset s3 Hl) in H. inversion H; subst s3.
    apply last_optarg_none in El. destruct El as [Ex _]. rewrite Ex.
    split; assumption.
Qed.

End LogFile.

(** X8: when a run reaches the verification stage, the driver is called
    with status information switched off exactly when a [-q] option was
    given, and with a log handle exactly when a [-l] option was given,
    NULL otherwise.  The log file has then been opened with success under
    the name of the last [-l] option; in no run is a log file opened
    anywhere else. *)
Theorem driver_arguments (e : env) (s : state) :
  main_to_verify e initial_state = (Normal tt, s) ->
  let psi := if existsb (option_is "q") (getopt e) then 0 else 1 in
  let lg := existsb (option_is "l") (getopt e) in
  (exists r,
     filter is_driver (trace (snd (main e))) =
     [Called (if input_format_is_files e s
              then verification_handle_verify_single_files psi lg
              else verification_handle_verify_input psi lg) r]) /\
  filter is_log_open (trace (snd (main e))) =
    match last_optarg "l" (getopt e) None with
    | Some filename => [Called (log_handle_open filename) 1]
    | None => []
    end.
Proof.
  intros H. cbv zeta.
  destruct (log_at_verify e s H) as [Hlg Hlo].
  destruct (settled_at_verify e s H) as (_ & _ & _ & _ & Hq & _).
  split.
  - destruct (driver_calls_of_main e) as [[Hn _] | [s' [H' [_ Hd]]]].
    { rewrite H in Hn. exfalso. apply Hn. reflexivity. }
    rewrite H in H'. inversion H'; subst s'.
    eexists. rewrite Hd. unfold chosen_driver. rewrite Hq, Hlg. reflexivity.
  - unfold main. rewrite (run_ext e _ _ _ (main_body_at_verify e)).
    rewrite (run_bind_filter e is_log_open (at_on_abort_no_log_open e)
               (at_on_error_no_log_open e) _ _ _ (main_from_verify_no_log_open e)).
    rewrite H. exact Hlo.
Qed.

Section LogFailure.

Variable e : env.

Lemma release_log_handle_trace s :
  log_handle s = true ->
  exists h1 h2 r1 r2,
    trace (snd (release_log_handle e s)) =
    trace s ++ h1 ++ Called (log_handle_close false) r1
            :: h2 ++ [Called (log_handle_free false) r2].
Proof.
  intros Hl. unfold release_log_handle. unfold bind at 1. unfold read. rewrite Hl.
  rewrite !bind_extcall. unfold skip, pure. simpl snd.
  rewrite !trace_after_call.
  destruct (tick_trace e (log_handle_close false) s) as [h1 H1].
  destruct (tick_trace e (log_handle_free false)
              (after_call e (log_handle_close false) s)) as [h2 H2].
  rewrite H2, trace_after_call, H1.
  exists h1, h2. do 2 eexists. rewrite <- !app_assoc. reflexivity.
Qed.

Lemma release_error_log_handle : steps (same log_handle) release_error.
Proof. unfold release_error. same_frames. Qed.

(** With a log handle and a live verification handle, [on_error]
    releases the one and then the other. *)
Lemma cleanup_releases_both s :
  log_handle s = true ->
  live (ewfverify_verification_handle s) ->
  exists t1 t2 t3 t4 t5 r1 r2 r3 r4,
    trace (snd (on_error_cleanup e s)) =
    trace s ++ t1 ++ Called (log_handle_close false) r1
            :: t2 ++ Called (log_handle_free false) r2
            :: t3 ++ Called (verification_handle_close false) r3
            :: t4 ++ Called (verification_handle_free false) r4 :: t5.
Proof.
  intros Hlog Hl. unfold on_error_cleanup.
  pose proof (falls_eq _ s release_error_falls) as Ea.
  set (sa := snd (release_error s)) in *.
  pose proof (falls_eq _ sa (release_log_handle_falls e)) as Eb.
  set (sb := snd (release_log_handle e sa)) in *.
  pose proof (falls_eq _ sb (release_verification_handle_falls e)) as Ec.
  set (sc := snd (release_verification_handle e sb)) in *.
  rewrite (bind_normal _ _ _ _ _ Ea), (bind_normal _ _ _ _ _ Eb), (bind_normal _ _ _ _ _ Ec).
  pose proof (release_error_live s Hl) as La. fold sa in La.
  pose proof (release_log_handle_live e sa La) as Lb. fold sb in Lb.
  pose proof (release_error_log_handle s) as Ga. unfold same in Ga. fold sa in Ga.
  rewrite Hlog in Ga.
  destruct (extends_any_trace _ _ (release_error_any s)) as [ta Ta]. fold sa in Ta.
  destruct (release_log_handle_trace sa Ga) as (g1 & g2 & q1 & q2 & Tb). fold sb in Tb.
  destruct (release_verification_handle_trace e sb Lb) as (h1 & h2 & r1 & r2 & Tc).
  fold sc in Tc.
  destruct (extends_any_trace _ _ (release_glob_any e sc)) as [td Td].
  exists (ta ++ g1), g2, h1, h2, td, q1, q2, r1, r2.
  rewrite Td, Tc, Tb, Ta. rewrite <- !app_assoc. simpl. rewrite <- !app_assoc. simpl.
  reflexivity.
Qed.

Lemma main_to_log_no_driver : steps (extends (non is_driver)) (main_to_log e).
Proof. frames harmless_non_driver. Qed.

End LogFailure.

(** X9: when a [-l] option was given, the log handle was created and the
    log file cannot be opened, the program prints that it cannot open the
    log file, with its name, closes and frees the log handle, then closes
    and frees the verification handle, and returns EXIT_FAILURE; no
    driver is called in the whole run. *)
Theorem log_open_failure_is_fatal (e : env) (s : state) (filename : string) :
  main_to_log e initial_state = (Normal tt, s) ->
  log_filename (opts s) = Some filename ->
  ret (extern e log_handle_initialize) = 1 ->
  ret (extern e (log_handle_open filename)) <> 1 ->
  fst (main e) = EXIT_FAILURE /\
  filter is_driver (trace (snd (main e))) = [] /\
  exists t0 t1 t2 t3 t4 t5 r1 r2 r3 r4,
    trace (snd (main e)) =
    trace s ++ t0
      ++ Fprintf stderr ("Unable to open log file: " +++ filename +++ "." +++ nl)
      :: t1 ++ Called (log_handle_close false) r1
      :: t2 ++ Called (log_handle_free false) r2
      :: t3 ++ Called (verification_handle_close false) r3
      :: t4 ++ Called (verification_handle_free false) r4 :: t5.
Proof.
  intros Hs Hf Hi Ho.
  set (s1 := after_call e log_handle_initialize s).
  set (s2 := after_call e (log_handle_open filename) s1).
  set (s3 := log_event
               (Fprintf stderr ("Unable to open log file: " +++ filename +++ "." +++ nl)) s2).
  assert (Hstage : stage_log_open e s = (Goto on_error, s3)).
  { rewrite (stage_log_open_set e s filename Hf). cbv zeta.
    apply neqb_false in Hi. apply neqb_true in Ho. rewrite Hi, Ho. reflexivity. }
  assert (Hmain : main e = (EXIT_FAILURE, snd (on_error_cleanup e s3))).
  { unfold main. rewrite (run_ext e _ _ _ (main_body_at_log e)).
    rewrite (run_bind_normal e _ _ _ _ Hs).
    rewrite (run_bind_goto e _ _ _ _ _ Hstage).
    apply from_on_error_eq. }
  assert (Hlive : live (ewfverify_verification_handle s3)).
  { unfold s3, s2, s1. change (ewfverify_verification_handle (log_event ?ev ?x))
      with (ewfverify_verification_handle x).
    apply after_call_live; [discriminate|].
    apply after_call_live; [discriminate|].
    apply (live_at_log e s Hs). }
  assert (Hlog : log_handle s3 = true).
  { unfold s3, s2, s1. change (log_handle (log_event ?ev ?x)) with (log_handle x).
    rewrite !log_handle_after_call, Hi. reflexivity. }
  destruct (cleanup_releases_both e s3 Hlog Hlive)
    as (t1 & t2 & t3 & t4 & t5 & r1 & r2 & r3 & r4 & Ht).
  assert (Hx : extends (non is_driver) s s2).
  { apply (pre_trans _ (extends_pre _) _ s1);
      apply extends_after_call; first [exact harmless_non_driver | reflexivity]. }
  rewrite Hmain. cbn [fst snd]. split; [reflexivity|]. split.
  - pose proof (from_on_error_extends e _ (at_on_error_no_driver e) s3) as Hy.
    rewrite from_on_error_eq in Hy. cbn [snd] in Hy.
    rewrite (filter_extends _ _ _ Hy). unfold s3.
    rewrite trace_log_event, filter_app, (filter_extends _ _ _ Hx).
    rewrite (normal_filter _ _ _ _ (main_to_log_no_driver e) Hs). reflexivity.
  - destruct Hx as [t0 [Hx _]].
    exists t0, t1, t2, t3, t4, t5, r1, r2, r3, r4.
    rewrite Ht. unfold s3. rewrite trace_log_event, Hx, <- !app_assoc. reflexivity.
Qed.

(** ** The release of the verification handle *)

Section Release.

Variable e : env.

Lemma after_initialize_live :
  steps (keeps ewfverify_verification_handle live) (main_after_initialize e).
Proof. unfold main_after_initialize. keeps_frames. Qed.

Lemma after_initialize_any : steps (extends any_event) (main_after_initialize e).
Proof. unfold main_after_initialize. frames harmless_any. Qed.

Lemma after_detach_live s :
  live (ewfverify_verification_handle s) ->
  live (ewfverify_verification_handle (after_detach e s)).
Proof.
  intros H. unfold after_detach.
  assert (H1 : live (ewfverify_verification_handle (after_call e libsystem_signal_detach s)))
    by (apply after_call_live; [discriminate | exact H]).
  destruct (neqb _ 1); exact H1.
Qed.

Lemma after_detach_any s : exists t, trace (after_detach e s) = trace s ++ t.
Proof.
  unfold after_detach.
  destruct (extends_any_trace _ _
              (extends_after_call e any_event libsystem_signal_detach s harmless_any eq_refl))
    as [t Ht].
  destruct (neqb _ 1).
  - eexists. rewrite trace_set_error, trace_log_events, Ht, <- app_assoc. reflexivity.
  - exists t. exact Ht.
Qed.

Lemma from_on_error_releases s :
  live (ewfverify_verification_handle s) ->
  exists t1 t2 t3 b rc rf,
    trace (snd (from_on_error e s)) =
    trace s ++ t1 ++ Called (verification_handle_close b) rc
            :: t2 ++ Called (verification_handle_free b) rf :: t3.
Proof.
  intros H. rewrite from_on_error_eq. cbn [snd].
  destruct (cleanup_releases e s H) as (t1 & t2 & t3 & r1 & r2 & Ht).
  exists t1, t2, t3, false, r1, r2. exact Ht.
Qed.

(** From [on_abort] with a live handle: the handle is closed and then
    freed, at [on_abort] or, when closing fails there, at [on_error]. *)
Lemma from_on_abort_releases s :
  live (ewfverify_verification_handle s) ->
  exists t1 t2 t3 b rc rf,
    trace (snd (from_on_abort e s)) =
    trace s ++ t1 ++ Called (verification_handle_close b) rc
            :: t2 ++ Called (verification_handle_free b) rf :: t3.
Proof.
  intros H. rewrite from_on_abort_eq, on_abort_cleanup_eq. cbv zeta.
  set (s2 := after_call e (verification_handle_close true) (after_detach e s)).
  set (s3 := after_call e (verification_handle_free true) s2).
  destruct (after_detach_any s) as [td Td].
  destruct (tick_trace e (verification_handle_close true) (after_detach e s)) as [h1 H1].
  destruct (tick_trace e (verification_handle_free true) s2) as [h2 H2].
  assert (T2 : trace s2 =
               trace s ++ (td ++ h1)
               ++ [Called (verification_handle_close true)
                     (ret (extern e (verification_handle_close true)))]).
  { unfold s2. rewrite trace_after_call, H1, Td, <- !app_assoc. reflexivity. }
  assert (T3 : trace s3 =
               trace s ++ (td ++ h1)
               ++ Called (verification_handle_close true)
                    (ret (extern e (verification_handle_close true)))
               :: h2 ++ [Called (verification_handle_free true)
                           (ret (extern e (verification_handle_free true)))]).
  { unfold s3. rewrite trace_after_call, H2, T2, <- !app_assoc. reflexivity. }
  destruct (neqb (ret (extern e (verification_handle_close true))) 0).
  - assert (Hl : live (ewfverify_verification_handle
                         (log_event (Fprintf stderr ("Unable to close EWF file(s)." +++ nl)) s2))).
    { change (live (ewfverify_verification_handle s2)). unfold s2.
      apply after_call_live; [discriminate|]. apply after_detach_live. exact H. }
    destruct (from_on_error_releases _ Hl) as (t1 & t2 & t3 & b & rc & rf & Ht).
    rewrite Ht, trace_log_event, T2.
    exists ((td ++ h1)
            ++ [Called (verification_handle_close true)
                  (ret (extern e (verification_handle_close true)));
                Fprintf stderr ("Unable to close EWF file(s)." +++ nl)] ++ t1),
      t2, t3, b, rc, rf.
    rewrite <- !app_assoc. reflexivity.
  - destruct (neqb (ret (extern e (verification_handle_free true))) 1).
    + destruct (extends_any_trace _ _
                  (from_on_error_extends e any_event (at_on_error_any e)
                     (log_event (Fprintf stderr ("Unable to free verification handle." +++ nl))
                        s3))) as [t Ht].
      rewrite Ht, trace_log_event, T3.
      exists (td ++ h1), h2,
        (Fprintf stderr ("Unable to free verification handle." +++ nl) :: t), true,
        (ret (extern e (verification_handle_close true))),
        (ret (extern e (verification_handle_free true))).
      rewrite <- !app_assoc. simpl. rewrite <- !app_assoc. reflexivity.
    + assert (Hfin : forall (code : Z) ev,
                exists t1 t2 t3 b rc rf,
                  trace (snd (code, log_event ev s3)) =
                  trace s ++ t1 ++ Called (verification_handle_close b) rc
                          :: t2 ++ Called (verification_handle_free b) rf :: t3).
      { intros code ev. cbn [snd]. rewrite trace_log_event, T3.
        exists (td ++ h1), h2, [ev], true,
          (ret (extern e (verification_handle_close true))),
          (ret (extern e (verification_handle_free true))).
        rewrite <- !app_assoc. simpl. rewrite <- !app_assoc. reflexivity. }
      destruct (neqb (ewfverify_abort s3) 0); [apply Hfin|].
      destruct (neqb (status s3) _); apply Hfin.
Qed.

(** A run from a state with a live handle, of statements that neither
    return nor free the handle. *)
Lemma run_releases (m : M unit) s :
  exits_with never_returns m ->
  steps (keeps ewfverify_verification_handle live) m ->
  steps (extends any_event) m ->
  live (ewfverify_verification_handle s) ->
  exists t1 t2 t3 b rc rf,
    trace (snd (run e m s)) =
    trace s ++ t1 ++ Called (verification_handle_close b) rc
            :: t2 ++ Called (verification_handle_free b) rf :: t3.
Proof.
  intros Hx Hk Ha Hl. unfold run.
  specialize (Hx s). specialize (Hk s Hl).
  destruct (extends_any_trace _ _ (Ha s)) as [t0 T0].
  destruct (m s) as [[[]|c|[]] s1]; cbn [fst snd] in *;
    try (destruct Hx);
    [ destruct (from_on_abort_releases s1 Hk) as (t1 & t2 & t3 & b & rc & rf & Ht)
    | destruct (from_on_error_releases s1 Hk) as (t1 & t2 & t3 & b & rc & rf & Ht)
    | destruct (from_on_abort_releases s1 Hk) as (t1 & t2 & t3 & b & rc & rf & Ht) ];
    exists (t0 ++ t1), t2, t3, b, rc, rf;
    rewrite Ht, T0, <- !app_assoc; reflexivity.
Qed.

Lemma stage_handle_initialize_eq s :
  let c := verification_handle_initialize
             (calculate_md5 (opts s)) (calculate_sha1 (opts s)) (calculate_sha256 (opts s)) in
  stage_handle_initialize e s =
  if ret (extern e c) != 1
  then (Goto on_error,
        log_event (Fprintf stderr ("Unable to create verification handle." +++ nl))
          (after_call e c s))
  else (Normal tt, after_call e c s).
Proof.
  cbv zeta. unfold stage_handle_initialize. unfold bind at 1. unfold read.
  rewrite bind_extcall. destruct (neqb _ 1); reflexivity.
Qed.

End Release.

(** X10: the verification handle is never leaked.  In every run in which
    [verification_handle_initialize] returned 1, the handle is afterwards
    closed and then freed, at the label [on_abort] or at the label
    [on_error], whichever way the run ends. *)
Theorem handle_is_always_released (e : env) (s : state) :
  main_to_initialize e initial_state = (Normal tt, s) ->
  let c := verification_handle_initialize
             (calculate_md5 (opts s)) (calculate_sha1 (opts s)) (calculate_sha256 (opts s)) in
  ret (extern e c) = 1 ->
  exists t0 t1 t2 t3 b rc rf,
    trace (snd (main e)) =
    trace s ++ t0 ++ Called c 1
            :: t1 ++ Called (verification_handle_close b) rc
            :: t2 ++ Called (verification_handle_free b) rf :: t3.
Proof.
  intros Hs c Hr.
  assert (Hi : stage_handle_initialize e s = (Normal tt, after_call e c s)).
  { rewrite stage_handle_initialize_eq. cbv zeta. fold c.
    apply neqb_false in Hr. rewrite Hr. reflexivity. }
  assert (Hl : live (ewfverify_verification_handle (after_call e c s))).
  { unfold live. rewrite handle_after_call. unfold c, pointer_effect. fold c.
    rewrite Hr. simpl. discriminate. }
  unfold main. rewrite (run_ext e _ _ _ (main_body_around_initialize e)).
  rewrite (run_bind_normal e _ _ _ _ Hs), (run_bind_normal e _ _ _ _ Hi).
  destruct (run_releases e _ _ (after_initialize_never_returns e)
              (after_initialize_live e) (after_initialize_any e) Hl)
    as (t1 & t2 & t3 & b & rc & rf & Ht).
  destruct (tick_trace e c s) as [t0 T0].
  exists t0, t1, t2, t3, b, rc, rf.
  rewrite Ht, trace_after_call, T0, Hr, <- !app_assoc. reflexivity.
Qed.

(** ** When the handle cannot be created *)

Lemma harmless_non_handle_use : harmless (non is_handle_use).
Proof. harmless_tac. Qed.

Lemma harmless_non_open_input : harmless (non is_open_input).
Proof. harmless_tac. Qed.

Section NoHandle.

Variable e : env.

Lemma to_initialize_no_handle_use :
  steps (extends (non is_handle_use)) (main_to_initialize e).
Proof. frames harmless_non_handle_use. Qed.

Lemma to_initialize_null :
  steps (keeps ewfverify_verification_handle null) (main_to_initialize e).
Proof. keeps_frames. Qed.

Lemma release_error_no_handle_use : steps (extends (non is_handle_use)) release_error.
Proof. unfold release_error. frames harmless_non_handle_use. Qed.

Lemma release_log_handle_no_handle_use :
  steps (extends (non is_handle_use)) (release_log_handle e).
Proof. unfold release_log_handle. frames harmless_non_handle_use. Qed.

Lemma release_glob_no_handle_use : steps (extends (non is_handle_use)) (release_glob e).
Proof. unfold release_glob. frames harmless_non_handle_use. Qed.

Lemma release_error_null : steps (keeps ewfverify_verification_handle null) release_error.
Proof. unfold release_error. keeps_frames. Qed.

Lemma release_log_handle_null :
  steps (keeps ewfverify_verification_handle null) (release_log_handle e).
Proof. unfold release_log_handle. keeps_frames. Qed.

Lemma release_glob_null :
  steps (keeps ewfverify_verification_handle null) (release_glob e).
Proof. unfold release_glob. keeps_frames. Qed.

Lemma release_verification_handle_null s :
  ewfverify_verification_handle s = None ->
  release_verification_handle e s = (Normal tt, s).
Proof.
  intros H. unfold release_verification_handle. unfold bind at 1. unfold read.
  rewrite H. reflexivity.
Qed.

(** From [on_error] without a handle: no call is made on the handle. *)
Lemma from_on_error_null s :
  ewfverify_verification_handle s = None ->
  fst (from_on_error e s) = EXIT_FAILURE /\
  extends (non is_handle_use) s (snd (from_on_error e s)) /\
  ewfverify_verification_handle (snd (from_on_error e s)) = None.
Proof.
  intros Hn. rewrite from_on_error_eq. cbn [fst snd]. split; [reflexivity|].
  unfold on_error_cleanup.
  pose proof (falls_eq _ s release_error_falls) as Ea.
  set (sa := snd (release_error s)) in *.
  pose proof (falls_eq _ sa (release_log_handle_falls e)) as Eb.
  set (sb := snd (release_log_handle e sa)) in *.
  pose proof (release_error_null s Hn) as Na. fold sa in Na.
  pose proof (release_log_handle_null sa Na) as Nb. fold sb in Nb.
  pose proof (release_verification_handle_null sb Nb) as Ec.
  rewrite (bind_normal _ _ _ _ _ Ea), (bind_normal _ _ _ _ _ Eb), (bind_normal _ _ _ _ _ Ec).
  split.
  - apply (pre_trans _ (extends_pre _) _ sa); [apply release_error_no_handle_use|].
    apply (pre_trans _ (extends_pre _) _ sb); [apply release_log_handle_no_handle_use|].
    apply release_glob_no_handle_use.
  - apply (release_glob_null sb Nb).
Qed.

Lemma tick_null c : steps (keeps ewfverify_verification_handle null) (tick e c).
Proof.
  apply steps_tick; [apply keeps_pre|].
  unfold ewfverify_signal_handler. keeps_frames.
Qed.

End NoHandle.

(** X11: when [verification_handle_initialize] does not return 1, the
    program prints that it cannot create the verification handle and
    returns EXIT_FAILURE; the handle stays NULL and [main] makes no call
    on it in the whole run: it is not opened, configured, verified,
    closed or freed. *)
Theorem handle_creation_failure_is_fatal (e : env) (s : state) :
  main_to_initialize e initial_state = (Normal tt, s) ->
  let c := verification_handle_initialize
             (calculate_md5 (opts s)) (calculate_sha1 (opts s)) (calculate_sha256 (opts s)) in
  ret (extern e c) <> 1 ->
  fst (main e) = EXIT_FAILURE /\
  (exists t0 t1,
     trace (snd (main e)) =
     trace s ++ t0 ++ Called c (ret (extern e c))
             :: Fprintf stderr ("Unable to create verification handle." +++ nl) :: t1) /\
  filter is_handle_use (trace (snd (main e))) = [] /\
  ewfverify_verification_handle (snd (main e)) = None.
Proof.
  intros Hs c Hr.
  set (s1 := after_call e c s).
  set (s2 := log_event (Fprintf stderr ("Unable to create verification handle." +++ nl)) s1).
  assert (Hi : stage_handle_initialize e s = (Goto on_error, s2)).
  { rewrite stage_handle_initialize_eq. cbv zeta. fold c.
    apply neqb_true in Hr. rewrite Hr. reflexivity. }
  assert (Hmain : main e = from_on_error e s2).
  { unfold main. rewrite (run_ext e _ _ _ (main_body_around_initialize e)).
    rewrite (run_bind_normal e _ _ _ _ Hs).
    rewrite (run_bind_goto e _ _ _ _ _ Hi). reflexivity. }
  assert (Hn : ewfverify_verification_handle s = None).
  { pose proof (to_initialize_null e initial_state) as H. rewrite Hs in H.
    apply H. reflexivity. }
  assert (Hn2 : ewfverify_verification_handle s2 = None).
  { change (ewfverify_verification_handle s1 = None). unfold s1.
    rewrite handle_after_call. unfold c, pointer_effect. fold c.
    apply Z.eqb_neq in Hr. rewrite Hr. apply (tick_null e c s Hn). }
  destruct (from_on_error_null e s2 Hn2) as [Hc [Hx Hnull]].
  rewrite Hmain. split; [exact Hc|]. split; [|split; [|exact Hnull]].
  - destruct Hx as [t1 [Ht1 _]]. destruct (tick_trace e c s) as [t0 Ht0].
    exists t0, t1. rewrite Ht1. unfold s2, s1.
    rewrite trace_log_event, trace_after_call, Ht0, <- !app_assoc. reflexivity.
  - rewrite (filter_extends _ _ _ Hx). unfold s2, s1.
    rewrite trace_log_event, filter_app.
    rewrite (filter_after_call e _ _ _ harmless_non_handle_use).
    rewrite (normal_filter _ _ _ _ (to_initialize_no_handle_use e) Hs). reflexivity.
Qed.

(** ** The files that are opened *)

Section OpenedFiles.

Variable e : env.

Lemma stage_glob_normal s s' :
  stage_glob e s = (Normal tt, s') ->
  argv_filenames s' = opened_files e /\
  (LIBSYSTEM_HAVE_GLOB e = false ->
   exists t1 t2,
     trace s' =
     trace s ++ t1 ++ Called libsystem_glob_initialize 1
             :: t2 ++ [Called (libsystem_glob_resolve (remaining e)) 1]).
Proof.
  unfold stage_glob, opened_files.
  destruct (LIBSYSTEM_HAVE_GLOB e).
  - intros H. inversion H. split; [reflexivity | discriminate].
  - rewrite bind_extcall. unfold bind at 1.
    destruct (neqb (ret (extern e libsystem_glob_initialize)) 1) eqn:E1; [discriminate|].
    unfold skip at 1, pure at 1. rewrite bind_extcall. unfold bind at 1.
    destruct (neqb (ret (extern e (libsystem_glob_resolve (remaining e)))) 1) eqn:E2;
      [discriminate|].
    apply neqb_false in E1, E2. intros H. inversion H; clear H.
    split; [reflexivity|]. intros _.
    destruct (tick_trace e libsystem_glob_initialize s) as [t1 T1].
    destruct (tick_trace e (libsystem_glob_resolve (remaining e))
                (after_call e libsystem_glob_initialize s)) as [t2 T2].
    exists t1, t2.
    change (trace (set_argv_filenames ?f ?x)) with (trace x).
    rewrite trace_after_call, T2, trace_after_call, T1, E1, E2, <- !app_assoc.
    reflexivity.
Qed.

Lemma files_at_initialize s :
  main_to_initialize e initial_state = (Normal tt, s) ->
  argv_filenames s = opened_files e /\
  (LIBSYSTEM_HAVE_GLOB e = false ->
   In (Called libsystem_glob_initialize 1) (trace s) /\
   In (Called (libsystem_glob_resolve (remaining e)) 1) (trace s)).
Proof.
  intros H. unfold main_to_initialize in H.
  apply bind_normal_inv in H. destruct H as [[] [s0 [_ H]]].
  unfold main_options_to_initialize in H.
  apply bind_normal_inv in H. destruct H as [[] [s1 [_ H]]].
  apply bind_normal_inv in H. destruct H as [[] [s2 [_ H]]].
  destruct (stage_glob_normal _ _ H) as [Ha Hg]. split; [exact Ha|].
  intros Hb. destruct (Hg Hb) as [t1 [t2 Ht]]. rewrite Ht. split.
  - rewrite !in_app_iff. right. right. left. reflexivity.
  - rewrite !in_app_iff. right. right. right. rewrite in_app_iff. right. left. reflexivity.
Qed.

Lemma to_initialize_no_open_input :
  steps (extends (non is_open_input)) (main_to_initialize e).
Proof. frames harmless_non_open_input. Qed.

Lemma stage_signal_attach_no_open_input :
  steps (extends (non is_open_input)) (stage_signal_attach e).
Proof. frames harmless_non_open_input. Qed.

Lemma after_open_no_open_input : steps (extends (non is_open_input)) (main_after_open e).
Proof. unfold main_after_open. frames harmless_non_open_input. Qed.

Lemma at_on_abort_no_open_input : steps (extends (non is_open_input)) (at_on_abort e).
Proof. frames harmless_non_open_input. Qed.

Lemma at_on_error_no_open_input : steps (extends (non is_open_input)) (at_on_error e).
Proof. frames harmless_non_open_input. Qed.

Lemma stage_signal_attach_argv : steps (same argv_filenames) (stage_signal_attach e).
Proof. same_frames. Qed.

(** A failure to attach the signal handler is not an error: the stage
    always goes on to line 343. *)
Lemma stage_signal_attach_falls : falls_through (stage_signal_attach e).
Proof.
  unfold stage_signal_attach. apply falls_bind; [apply falls_extcall|]. intros r.
  destruct (neqb r 1); [|apply falls_pure].
  unfold print_backtrace_and_free, fprintf, do.
  repeat (apply falls_bind; [apply falls_assign | intro]). apply falls_assign.
Qed.

End OpenedFiles.

(** X12: in every run in which the verification handle was created,
    [verification_handle_open_input] is called exactly once, whether or
    not the signal handler could be attached, and with the file arguments
    left after the options; in a build without glob support of the
    system it is called with what [libsystem_glob_resolve] made of those
    arguments instead. *)
Theorem segment_files_are_opened (e : env) (s : state) :
  main_to_initialize e initial_state = (Normal tt, s) ->
  ret (extern e (verification_handle_initialize
                   (calculate_md5 (opts s)) (calculate_sha1 (opts s))
                   (calculate_sha256 (opts s)))) = 1 ->
  filter is_open_input (trace (snd (main e))) =
    [Called (verification_handle_open_input (opened_files e))
            (ret (extern e (verification_handle_open_input (opened_files e))))] /\
  (LIBSYSTEM_HAVE_GLOB e = true -> opened_files e = remaining e) /\
  (LIBSYSTEM_HAVE_GLOB e = false ->
   opened_files e = glob_result e /\
   In (Called libsystem_glob_initialize 1) (trace s) /\
   In (Called (libsystem_glob_resolve (remaining e)) 1) (trace s)).
Proof.
  intros Hs Hr.
  set (c := verification_handle_initialize
              (calculate_md5 (opts s)) (calculate_sha1 (opts s))
              (calculate_sha256 (opts s))) in *.
  destruct (files_at_initialize e s Hs) as [Hargv Hglob].
  split; [|split].
  - assert (Hi : stage_handle_initialize e s = (Normal tt, after_call e c s)).
    { rewrite stage_handle_initialize_eq. cbv zeta. fold c.
      apply neqb_false in Hr. rewrite Hr. reflexivity. }
    set (s1 := after_call e c s) in *.
    pose proof (falls_eq _ s1 (stage_signal_attach_falls e)) as Ha.
    set (s2 := snd (stage_signal_attach e s1)) in *.
    pose proof (stage_open_input_eq e s2) as Ho. cbv zeta in Ho.
    assert (Hf2 : argv_filenames s2 = opened_files e).
    { unfold s2. rewrite (stage_signal_attach_argv e s1). unfold s1.
      rewrite argv_after_call. exact Hargv. }
    rewrite Hf2 in Ho.
    unfold main. rewrite (run_ext e _ _ _ (main_body_around_initialize e)).
    rewrite (run_bind_normal e _ _ _ _ Hs), (run_bind_normal e _ _ _ _ Hi).
    change (main_after_initialize e)
      with (stage_signal_attach e ;; stage_open_input e ;; main_after_open e).
    rewrite (run_bind_normal e _ _ _ _ Ha), (run_bind_normal e _ _ _ _ Ho).
    rewrite (run_filter e is_open_input (at_on_abort_no_open_input e)
               (at_on_error_no_open_input e) _ _ (after_open_no_open_input e)).
    change (trace (set_result ?r ?x)) with (trace x).
    rewrite (filter_after_call e _ _ _ harmless_non_open_input).
    unfold s2. rewrite (filter_extends _ _ _ (stage_signal_attach_no_open_input e s1)).
    unfold s1. rewrite (filter_after_call e _ _ _ harmless_non_open_input).
    rewrite (normal_filter _ _ _ _ (to_initialize_no_open_input e) Hs). reflexivity.
  - intros Hb. unfold opened_files. rewrite Hb. reflexivity.
  - intros Hb. split; [|exact (Hglob Hb)]. unfold opened_files. rewrite Hb. reflexivity.
Qed.

(** ** The report *)

Lemma harmless_non_report : harmless (non is_report).
Proof. harmless_tac. Qed.

Section Report.

Variable e : env.

Lemma main_body_no_report : steps (extends (non is_report)) (main_body e).
Proof. frames harmless_non_report. Qed.

Lemma on_abort_cleanup_no_report : steps (extends (non is_report)) (on_abort_cleanup e).
Proof. frames harmless_non_report. Qed.

Lemma at_on_error_no_report : steps (extends (non is_report)) (at_on_error e).
Proof. frames harmless_non_report. Qed.

Lemma from_on_error_no_report s :
  filter is_report (trace (snd (from_on_error e s))) = filter is_report (trace s).
Proof.
  apply filter_extends. apply from_on_error_extends. apply at_on_error_no_report.
Qed.

Lemma from_on_abort_report s :
  filter is_report (trace s) = [] ->
  filter is_report (trace (snd (from_on_abort e s))) = [] \/
  exists t ev,
    trace (snd (from_on_abort e s)) = t ++ [ev] /\
    filter is_report t = [] /\
    (ev = ABORTED_line \/ ev = FAILURE_line \/ ev = SUCCESS_line).
Proof.
  intros Hs. rewrite from_on_abort_eq.
  pose proof (on_abort_cleanup_no_report s) as Hc. apply filter_extends in Hc.
  rewrite Hs in Hc.
  destruct (on_abort_cleanup e s) as [[[]|c|l] sc]; cbn [snd] in Hc;
    try (left; rewrite from_on_error_no_report; exact Hc).
  right. exists (trace sc).
  destruct (neqb (ewfverify_abort sc) 0); [|destruct (neqb (status sc) _)];
    eexists; (split; [apply trace_log_event|]); (split; [exact Hc|]); auto.
Qed.

End Report.

(** X13: a run prints at most one line of the report, and printing it is
    the last thing the run does: nothing is released, printed or called
    after it.  In particular the runs that end at [on_error], or in the
    option loop, print no report at all. *)
Theorem report_is_printed_last (e : env) :
  filter is_report (trace (snd (main e))) = [] \/
  exists t ev,
    trace (snd (main e)) = t ++ [ev] /\
    filter is_report t = [] /\
    (ev = ABORTED_line \/ ev = FAILURE_line \/ ev = SUCCESS_line).
Proof.
  unfold main, run.
  pose proof (main_body_no_report e initial_state) as Hb.
  apply filter_extends in Hb. simpl in Hb.
  destruct (main_body e initial_state) as [[[]|c|[]] sb]; cbn [snd] in *.
  - apply from_on_abort_report. exact Hb.
  - left. exact Hb.
  - left. rewrite from_on_error_no_report. exact Hb.
  - apply from_on_abort_report. exact Hb.
Qed.

(** ** The signal handler *)

(** X14: the signal handler returns, and besides the abort flag, the
    handle it signals and the trace it touches nothing of [main]: the
    pending error, the glob, the log handle, the option locals, the file
    names, the result and the status are as before, and the handle
    pointer is NULL exactly if it was.  It closes stdin exactly once,
    whether or not signalling the handle succeeded; and a second signal
    leaves the abort flag at 1. *)
Theorem signal_handler_leaves_locals (e : env) (s : state) :
  fst (ewfverify_signal_handler e s) = Normal tt /\
  error (snd (ewfverify_signal_handler e s)) = error s /\
  glob (snd (ewfverify_signal_handler e s)) = glob s /\
  log_handle (snd (ewfverify_signal_handler e s)) = log_handle s /\
  opts (snd (ewfverify_signal_handler e s)) = opts s /\
  argv_filenames (snd (ewfverify_signal_handler e s)) = argv_filenames s /\
  result (snd (ewfverify_signal_handler e s)) = result s /\
  status (snd (ewfverify_signal_handler e s)) = status s /\
  (ewfverify_verification_handle (snd (ewfverify_signal_handler e s)) = None <->
   ewfverify_verification_handle s = None) /\
  filter is_close_stdin (trace (snd (ewfverify_signal_handler e s))) =
    filter is_close_stdin (trace s) ++
    [Called (libsystem_file_io_close 0) (ret (extern e (libsystem_file_io_close 0)))] /\
  ewfverify_abort
    (snd (ewfverify_signal_handler e (snd (ewfverify_signal_handler e s)))) = 1.
Proof.
  destruct s as [h a er g lh o fs r st t].
  unfold ewfverify_signal_handler, bind, assign, read, raw_call, do, skip, pure.
  simpl. destruct h as [h|]; simpl;
    repeat match goal with
           | |- context [neqb ?x ?y] => destruct (neqb x y); simpl
           end;
    rewrite ?andb_false_r, ?orb_false_r;
    repeat (split; [first [reflexivity | intros; discriminate | intros; assumption]|]);
    try (split; [split; intros; discriminate|]);
    try (split; [split; intros; reflexivity|]);
    (split; [rewrite ?filter_app; simpl; rewrite ?app_nil_r; reflexivity | reflexivity]).
Qed.

(** ** Verbosity *)

Section Verbosity.

Variable e : env.

Lemma stage_files_check_opts : steps (same opts) (stage_files_check e).
Proof. same_frames. Qed.

Lemma stage_notify_eq s :
  stage_notify s =
  (Normal tt,
   log_events [Did (libsystem_notify_set_verbose (verbose (opts s)));
               Did (libewf_notify_set_verbose (verbose (opts s)));
               Did libewf_notify_set_stream] s).
Proof.
  unfold stage_notify, bind, read, do, assign.
  rewrite !log_events_cons, log_events_nil. reflexivity.
Qed.

Lemma verbosity_rest_any : steps (extends any_event) (verbosity_rest e).
Proof. unfold verbosity_rest. frames harmless_any. Qed.

End Verbosity.

(** X15: in every run that gets past the check for file arguments, the
    next thing the program does is to set the verbosity of both
    libraries, in one go with the notification stream of libewf, to 1
    if a [-v] option was given and to 0 otherwise; this holds however
    the run ends afterwards. *)
Theorem verbosity_follows_the_option (e : env) (s : state) :
  main_through_options e initial_state = (Normal tt, s) ->
  remaining e <> [] ->
  exists t,
    trace (snd (main e)) =
    trace s
      ++ Did (libsystem_notify_set_verbose (flag (existsb (option_is "v") (getopt e)) 0))
      :: Did (libewf_notify_set_verbose (flag (existsb (option_is "v") (getopt e)) 0))
      :: Did libewf_notify_set_stream :: t.
Proof.
  intros Hs Hrem.
  destruct (settled_through_options e s Hs) as (_ & _ & _ & _ & _ & Hv).
  assert (Hf : stage_files_check e s = (Normal tt, s)).
  { unfold stage_files_check. destruct (remaining e); [congruence | reflexivity]. }
  set (s1 := log_events
               [Did (libsystem_notify_set_verbose (verbose (opts s)));
                Did (libewf_notify_set_verbose (verbose (opts s)));
                Did libewf_notify_set_stream] s).
  assert (Hsplit : forall s0,
            main_body e s0 =
            (main_through_options e ;; stage_files_check e ;; stage_notify ;;
             verbosity_rest e) s0).
  { intros s0. unfold main_body, main_options_to_initialize, verbosity_rest.
    reassociate. }
  unfold main. rewrite (run_ext e _ _ _ Hsplit).
  rewrite (run_bind_normal e _ _ _ _ Hs), (run_bind_normal e _ _ _ _ Hf).
  rewrite (run_bind_normal e _ _ _ _ (stage_notify_eq s)). fold s1.
  destruct (run_extends e any_event (at_on_abort_any e) (at_on_error_any e)
              _ s1 (verbosity_rest_any e)) as [t [Ht _]].
  exists t. rewrite Ht. unfold s1. rewrite trace_log_events, Hv, <- app_assoc.
  reflexivity.
Qed.

(** ** Closing the log *)

Section LogClose.

Variable e : env.

Lemma stage_verify_log_handle : steps (same log_handle) (stage_verify e).
Proof. same_frames. Qed.

Lemma stage_status_log_handle : steps (same log_handle) (stage_status e).
Proof. same_frames. Qed.

Lemma stage_verify_falls s : stage_verify e s = (Normal tt, snd (stage_verify e s)).
Proof. pose proof (stage_verify_eq e s) as H. cbv zeta in H. rewrite H. reflexivity. Qed.

Lemma stage_log_close_failure s :
  log_handle s = true ->
  ret (extern e (log_handle_close true)) <> 0 ->
  stage_log_close e s =
  (Goto on_error,
   log_event (Fprintf stderr ("Unable to close log handle." +++ nl))
     (after_call e (log_handle_close true) s)).
Proof.
  intros Hl Hr. unfold stage_log_close. unfold bind at 1. unfold read. rewrite Hl.
  rewrite bind_extcall. unfold bind at 1. apply neqb_true in Hr. rewrite Hr. reflexivity.
Qed.

End LogClose.

(** X16: when the log handle cannot be closed after the verification
    (lines 526-536), the program prints that it cannot close the log
    handle and returns EXIT_FAILURE without printing any line of the
    report, whatever the one driver call of the run returned. *)
Theorem log_close_failure_hides_the_result (e : env) (s : state) :
  main_to_verify e initial_state = (Normal tt, s) ->
  log_handle s = true ->
  ret (extern e (log_handle_close true)) <> 0 ->
  fst (main e) = EXIT_FAILURE /\
  filter is_report (trace (snd (main e))) = [] /\
  filter is_driver (trace (snd (main e))) =
    [Called (chosen_driver e s) (ret (extern e (chosen_driver e s)))] /\
  In (Fprintf stderr ("Unable to close log handle." +++ nl)) (trace (snd (main e))).
Proof.
  intros Hs Hl Hr.
  pose proof (stage_verify_falls e s) as Hv.
  set (sv := snd (stage_verify e s)) in *.
  pose proof (stage_status_eq e sv) as Hst.
  set (s4 := set_status
               (if neqb (result sv) 1 then PROCESS_STATUS_FAILED e
                else PROCESS_STATUS_COMPLETED e) sv) in *.
  assert (Hl4 : log_handle s4 = true).
  { change (log_handle sv = true). unfold sv.
    rewrite (stage_verify_log_handle e s). exact Hl. }
  pose proof (stage_log_close_failure e s4 Hl4 Hr) as Hc.
  set (s5 := log_event (Fprintf stderr ("Unable to close log handle." +++ nl))
               (after_call e (log_handle_close true) s4)) in *.
  assert (Hmain : main e = from_on_error e s5).
  { unfold main. rewrite (run_ext e _ _ _ (main_body_around_verify e)).
    rewrite (run_bind_normal e _ _ _ _ Hs), (run_bind_normal e _ _ _ _ Hv).
    unfold main_after_verify.
    rewrite (run_bind_normal e _ _ _ _ Hst).
    unfold run. rewrite Hc. reflexivity. }
  assert (Hbody : main_body e initial_state = (Goto on_error, s5)).
  { rewrite main_body_around_verify.
    rewrite (bind_normal _ _ _ _ _ Hs), (bind_normal _ _ _ _ _ Hv).
    unfold main_after_verify. rewrite (bind_normal _ _ _ _ _ Hst). exact Hc. }
  split; [rewrite Hmain, from_on_error_eq; reflexivity|]. split; [|split].
  - rewrite Hmain, from_on_error_no_report.
    pose proof (main_body_no_report e initial_state) as Hb.
    apply filter_extends in Hb. rewrite Hbody in Hb. exact Hb.
  - destruct (driver_calls_of_main e) as [[Hn _] | [s' [H' [_ Hd]]]].
    { rewrite Hs in Hn. exfalso. apply Hn. reflexivity. }
    rewrite Hs in H'. inversion H'; subst s'. exact Hd.
  - rewrite Hmain.
    destruct (extends_any_trace _ _ (from_on_error_extends e any_event (at_on_error_any e) s5))
      as [t Ht].
    rewrite Ht. unfold s5. rewrite trace_log_event, !in_app_iff.
    left. right. left. reflexivity.
Qed.

(** ** Builds with the glob of the system *)

Section RunKeeps.

Variable e : env.
Variable A : Type.
Variable f : state -> A.
Variable P : A -> Prop.
Hypothesis abort_keeps : steps (keeps f P) (at_on_abort e).
Hypothesis error_keeps : steps (keeps f P) (at_on_error e).

Lemma from_on_error_keeps s : P (f s) -> P (f (snd (from_on_error e s))).
Proof.
  unfold from_on_error, finish. intros H. pose proof (error_keeps s H) as Hk.
  destruct (at_on_error e s) as [[[]|c|l] s1]; exact Hk.
Qed.

Lemma from_on_abort_keeps s : P (f s) -> P (f (snd (from_on_abort e s))).
Proof.
  unfold from_on_abort. intros H. pose proof (abort_keeps s H) as Hk.
  destruct (at_on_abort e s) as [[[]|c|l] s1]; cbn [snd] in *;
    first [exact Hk | apply from_on_error_keeps; exact Hk].
Qed.

(** A property of a component that every statement keeps holds at the
    end of the run. *)
Lemma run_keeps (m : M unit) s :
  steps (keeps f P) m -> P (f s) -> P (f (snd (run e m s))).
Proof.
  intros Hm H. unfold run. pose proof (Hm s H) as Hk.
  destruct (m s) as [[[]|c|[]] s1]; cbn [snd] in *;
    first [ exact Hk | apply from_on_error_keeps; exact Hk
          | apply from_on_abort_keeps; exact Hk ].
Qed.

End RunKeeps.

Lemma harmless_non_glob_call : harmless (non is_glob_call).
Proof. harmless_tac. Qed.

Section SystemGlob.

Variable e : env.
Hypothesis have_glob : LIBSYSTEM_HAVE_GLOB e = true.

Lemma main_body_no_glob_call : steps (extends (non is_glob_call)) (main_body e).
Proof.
  open_blocks. open_stages. rewrite !have_glob.
  steps_struct (extends_pre (non is_glob_call))
    ltac:(first [ apply option_loop_extends; exact harmless_non_glob_call
                | apply usage_extends; exact harmless_non_glob_call
                | extends_with harmless_non_glob_call ]).
Qed.

Lemma at_on_abort_no_glob_call : steps (extends (non is_glob_call)) (at_on_abort e).
Proof. frames harmless_non_glob_call. Qed.

Lemma at_on_error_no_glob_call : steps (extends (non is_glob_call)) (at_on_error e).
Proof.
  open_stages. rewrite !have_glob.
  steps_struct (extends_pre (non is_glob_call)) ltac:(extends_with harmless_non_glob_call).
Qed.

Lemma main_body_glob_unset : steps (keeps glob unset) (main_body e).
Proof.
  open_blocks. open_stages. rewrite !have_glob.
  steps_struct (keeps_pre glob unset)
    ltac:(first [ apply option_loop_keeps; intros; reflexivity
                | apply usage_keeps; intros; reflexivity
                | progress (unfold ewfverify_signal_handler; open_stages)
                | field_prim ]).
Qed.

Lemma at_on_abort_glob_unset : steps (keeps glob unset) (at_on_abort e).
Proof. keeps_frames. Qed.

Lemma at_on_error_glob_unset : steps (keeps glob unset) (at_on_error e).
Proof. keeps_frames. Qed.

End SystemGlob.

(** X17: in a build with the glob support of the system, no run calls a
    function of libsystem's own glob: the file arguments are passed on as
    they are, and there is no glob to release, at line 362 or at
    [on_error]. *)
Theorem system_glob_builds_never_glob (e : env) :
  LIBSYSTEM_HAVE_GLOB e = true ->
  filter is_glob_call (trace (snd (main e))) = [] /\
  glob (snd (main e)) = false.
Proof.
  intros H. split.
  - unfold main.
    rewrite (run_filter e is_glob_call (at_on_abort_no_glob_call e)
               (at_on_error_no_glob_call e H) _ _ (main_body_no_glob_call e H)).
    reflexivity.
  - unfold main.
    apply (run_keeps e _ glob unset (at_on_abort_glob_unset e) (at_on_error_glob_unset e H)
             _ _ (main_body_glob_unset e H)).
    reflexivity.
Qed.

(** ** The string options and their setters *)

Lemma harmless_non_string_setter : harmless (non is_string_setter).
Proof. harmless_tac. Qed.

Lemma harmless_agrees o : harmless (agrees_with o).
Proof. harmless_tac. Qed.

Lemma settled_steps_pre o : preorder (settled_steps o).
Proof.
  split.
  - intros s H. split; [exact H | apply (pre_refl _ (extends_pre _))].
  - intros s1 s2 s3 H12 H23 H. destruct (H12 H) as [H2 X12].
    destruct (H23 H2) as [H3 X23]. split; [exact H3|].
    apply (pre_trans _ (extends_pre _) _ s2); assumption.
Qed.

Lemma agrees_with_others o ev : non is_string_setter ev = true -> agrees_with o ev = true.
Proof.
  destruct ev as [st t|c r|p]; try reflexivity.
  destruct c; unfold non; simpl; intros H; first [reflexivity | discriminate H].
Qed.

Lemma extends_weaken (p q : event -> bool) s s' :
  (forall ev, p ev = true -> q ev = true) -> extends p s s' -> extends q s s'.
Proof.
  intros H [new [E F]]. exists new. split; [exact E|].
  rewrite forallb_forall in *. intros ev Hin. apply H, F, Hin.
Qed.

(** A statement that leaves the option locals alone and hands no string
    option to the library. *)
Lemma settled_steps_plain {A} o (m : M A) :
  steps (same opts) m -> steps (extends (non is_string_setter)) m ->
  steps (settled_steps o) m.
Proof.
  intros Hs Hx s Ho. split.
  - rewrite (Hs s). exact Ho.
  - apply (extends_weaken (non is_string_setter)); [apply agrees_with_others | apply Hx].
Qed.

Lemma holds_some o a : holds o a = true -> o = Some a.
Proof.
  destruct o as [a'|]; simpl; [|discriminate]. intros H. apply String.eqb_eq in H.
  congruence.
Qed.

Section Steps.

Variable e : env.
Variable R : state -> state -> Prop.
Hypothesis R_pre : preorder R.
Hypothesis abort_steps : steps R (at_on_abort e).
Hypothesis error_steps : steps R (at_on_error e).

Lemma from_on_error_steps s : R s (snd (from_on_error e s)).
Proof.
  unfold from_on_error, finish. pose proof (error_steps s) as H.
  destruct (at_on_error e s) as [[[]|c|l] s1]; exact H.
Qed.

Lemma from_on_abort_steps s : R s (snd (from_on_abort e s)).
Proof.
  unfold from_on_abort. pose proof (abort_steps s) as H.
  destruct (at_on_abort e s) as [[[]|c|l] s1]; cbn [snd] in *;
    first [ exact H
          | apply (pre_trans _ R_pre _ s1); [exact H | apply from_on_error_steps] ].
Qed.

(** A preorder that every statement respects relates the first state of
    a run to its last. *)
Lemma run_steps (m : M unit) s : steps R m -> R s (snd (run e m s)).
Proof.
  intros Hm. unfold run. pose proof (Hm s) as H.
  destruct (m s) as [[[]|c|[]] s1]; cbn [snd] in *;
    first [ exact H
          | apply (pre_trans _ R_pre _ s1);
            [exact H | first [apply from_on_error_steps | apply from_on_abort_steps]] ].
Qed.

End Steps.

Section Setters.

Variable e : env.
Variable o : options.

Lemma stage_header_codepage_agrees s :
  opts s = o -> extends (agrees_with o) s (snd (stage_header_codepage e s)).
Proof.
  intros Ho. unfold stage_header_codepage. unfold bind at 1, read at 1. rewrite Ho.
  destruct (option_header_codepage o) as [a|] eqn:E;
    [|apply (pre_refl _ (extends_pre _))].
  clear Ho.
  match goal with
  | |- extends ?p s (snd (?m s)) => revert s; change (steps (extends p) m)
  end.
  open_stages.
  steps_struct (extends_pre (agrees_with o))
    ltac:(first [ apply extends_raw_call; simpl; rewrite E; apply String.eqb_refl
                | extends_with (harmless_agrees o) ]).
Qed.

Ltac fold_steps s :=
  match goal with
  | |- extends ?p s (snd (?m s)) => revert s; change (steps (extends p) m)
  end.

Lemma stage_format_agrees s :
  opts s = o -> extends (agrees_with o) s (snd (stage_format e s)).
Proof.
  intros Ho. unfold stage_format. unfold bind at 1, read at 1. rewrite Ho.
  destruct (option_format o) as [a|] eqn:E; [|apply (pre_refl _ (extends_pre _))].
  clear Ho. fold_steps s. open_stages.
  steps_struct (extends_pre (agrees_with o))
    ltac:(first [ apply extends_raw_call; simpl; rewrite E; apply String.eqb_refl
                | extends_with (harmless_agrees o) ]).
Qed.

Lemma stage_size_agrees s :
  opts s = o -> extends (agrees_with o) s (snd (stage_process_buffer_size e s)).
Proof.
  intros Ho. unfold stage_process_buffer_size. unfold bind at 1, read at 1. rewrite Ho.
  destruct (option_process_buffer_size o) as [a|] eqn:E;
    [|apply (pre_refl _ (extends_pre _))].
  clear Ho. fold_steps s. open_stages.
  steps_struct (extends_pre (agrees_with o))
    ltac:(first [ apply extends_raw_call; simpl; rewrite E; apply String.eqb_refl
                | extends_with (harmless_agrees o) ]).
Qed.

Lemma stage_log_open_agrees s :
  opts s = o -> extends (agrees_with o) s (snd (stage_log_open e s)).
Proof.
  intros Ho. unfold stage_log_open. unfold bind at 1, read at 1. rewrite Ho.
  destruct (log_filename o) as [a|] eqn:E; [|apply (pre_refl _ (extends_pre _))].
  clear Ho. fold_steps s. open_stages.
  steps_struct (extends_pre (agrees_with o))
    ltac:(first [ apply extends_raw_call; simpl; rewrite E; apply String.eqb_refl
                | extends_with (harmless_agrees o) ]).
Qed.

Lemma stage_header_codepage_opts : steps (same opts) (stage_header_codepage e).
Proof. same_frames. Qed.

Lemma stage_format_opts : steps (same opts) (stage_format e).
Proof. same_frames. Qed.

Lemma options_to_codepage_opts : steps (same opts) (main_options_to_codepage e).
Proof. unfold main_options_to_codepage. same_frames. Qed.

Lemma options_to_codepage_no_setter :
  steps (extends (non is_string_setter)) (main_options_to_codepage e).
Proof. unfold main_options_to_codepage. frames harmless_non_string_setter. Qed.

Lemma stage_zero_no_setter :
  steps (extends (non is_string_setter)) (stage_zero_chunk_on_error e).
Proof. frames harmless_non_string_setter. Qed.

Lemma main_from_verify_opts : steps (same opts) (main_from_verify e).
Proof. same_frames. Qed.

Lemma main_from_verify_no_setter :
  steps (extends (non is_string_setter)) (main_from_verify e).
Proof. frames harmless_non_string_setter. Qed.

Lemma at_on_abort_opts : steps (same opts) (at_on_abort e).
Proof. same_frames. Qed.

Lemma at_on_abort_no_setter : steps (extends (non is_string_setter)) (at_on_abort e).
Proof. frames harmless_non_string_setter. Qed.

Lemma at_on_error_opts : steps (same opts) (at_on_error e).
Proof. same_frames. Qed.

Lemma at_on_error_no_setter : steps (extends (non is_string_setter)) (at_on_error e).
Proof. frames harmless_non_string_setter. Qed.

Lemma through_options_no_setter :
  steps (extends (non is_string_setter)) (main_through_options e).
Proof. frames harmless_non_string_setter. Qed.

Lemma settled_steps_special (m : M unit) :
  steps (same opts) m ->
  (forall s, opts s = o -> extends (agrees_with o) s (snd (m s))) ->
  steps (settled_steps o) m.
Proof.
  intros Hs Hx s Ho. split; [rewrite (Hs s); exact Ho | apply Hx; exact Ho].
Qed.

(** After the option loop, every string option that is handed to the
    library is the one the loop has left in its local. *)
Lemma after_options_settled : steps (settled_steps o) (main_after_options e).
Proof.
  unfold main_after_options.
  apply (steps_bind _ (settled_steps_pre o));
    [apply settled_steps_plain;
     [apply options_to_codepage_opts | apply options_to_codepage_no_setter] | intro].
  apply (steps_bind _ (settled_steps_pre o));
    [apply settled_steps_special;
     [apply stage_header_codepage_opts | apply stage_header_codepage_agrees] | intro].
  apply (steps_bind _ (settled_steps_pre o));
    [apply settled_steps_special;
     [apply stage_format_opts | apply stage_format_agrees] | intro].
  apply (steps_bind _ (settled_steps_pre o));
    [apply settled_steps_plain;
     [apply stage_zero_opts | apply stage_zero_no_setter] | intro].
  apply (steps_bind _ (settled_steps_pre o));
    [apply settled_steps_special;
     [apply stage_size_opts | apply stage_size_agrees] | intro].
  apply (steps_bind _ (settled_steps_pre o));
    [apply settled_steps_special;
     [apply stage_log_open_opts | apply stage_log_open_agrees] | intro].
  apply settled_steps_plain; [apply main_from_verify_opts | apply main_from_verify_no_setter].
Qed.

Lemma run_after_options_settled s :
  opts s = o -> extends (agrees_with o) s (snd (run e (main_after_options e) s)).
Proof.
  intros Ho.
  apply (run_steps e _ (settled_steps_pre o)
           (settled_steps_plain o _ at_on_abort_opts at_on_abort_no_setter)
           (settled_steps_plain o _ at_on_error_opts at_on_error_no_setter)
           _ s after_options_settled).
  exact Ho.
Qed.

End Setters.

Lemma main_body_after_options e s :
  main_body e s = (main_through_options e ;; main_after_options e) s.
Proof.
  unfold main_body, main_after_options, main_options_to_codepage, main_open_to_zero.
  reassociate.
Qed.

(** The string option a call of the class was given, in a whole run. *)
Lemma setter_calls_of_main e ev :
  In ev (trace (snd (main e))) -> is_string_setter ev = true ->
  exists s,
    main_through_options e initial_state = (Normal tt, s) /\
    agrees_with (opts s) ev = true.
Proof.
  intros Hin Hq. unfold main in *.
  rewrite (run_ext e _ _ _ (main_body_after_options e)) in Hin.
  pose proof (through_options_no_setter e initial_state) as H0.
  apply filter_extends in H0. simpl in H0.
  destruct (main_through_options e initial_state) as [[[]|c|l] s0] eqn:E.
  - exists s0. split; [reflexivity|].
    rewrite (run_bind_normal e _ _ _ _ E) in Hin.
    destruct (run_after_options_settled e (opts s0) s0 eq_refl) as [new [Ht Hf]].
    rewrite Ht in Hin. apply in_app_or in Hin. destruct Hin as [Hin | Hin].
    + exfalso. assert (Hx : In ev (filter is_string_setter (trace s0)))
        by (apply filter_In; split; assumption).
      cbn [snd] in H0. rewrite H0 in Hx. destruct Hx.
    + rewrite forallb_forall in Hf. apply Hf. exact Hin.
  - exfalso. rewrite (run_bind_return e _ _ _ _ _ E) in Hin. cbn [snd] in *.
    assert (Hx : In ev (filter is_string_setter (trace s0)))
      by (apply filter_In; split; assumption).
    rewrite H0 in Hx. destruct Hx.
  - exfalso.
    rewrite (run_bind_exit e _ _ _) in Hin by (rewrite E; discriminate).
    assert (Hx : In ev (filter is_string_setter
                          (trace (snd (run e (main_through_options e) initial_state)))))
      by (apply filter_In; split; assumption).
    rewrite (run_filter e is_string_setter (at_on_abort_no_setter e)
               (at_on_error_no_setter e) _ _ (through_options_no_setter e)) in Hx.
    destruct Hx.
Qed.

(** X18: the string options reach the library unchanged.  In every run,
    the header codepage, the format and the process buffer size are only
    ever set to the argument of the last [-A], [-f] and [-p] option, and
    a log file is only ever opened under the name of the last [-l]
    option; without such an option the call is not made at all. *)
Theorem string_options_reach_their_setters (e : env) :
  (forall a r,
     In (Called (verification_handle_set_header_codepage a) r) (trace (snd (main e))) ->
     last_optarg "A" (getopt e) None = Some a) /\
  (forall a r,
     In (Called (verification_handle_set_format a) r) (trace (snd (main e))) ->
     last_optarg "f" (getopt e) None = Some a) /\
  (forall a r,
     In (Called (verification_handle_set_process_buffer_size a) r) (trace (snd (main e))) ->
     last_optarg "p" (getopt e) None = Some a) /\
  (forall a r,
     In (Called (log_handle_open a) r) (trace (snd (main e))) ->
     last_optarg "l" (getopt e) None = Some a).
Proof.
  repeat split; intros a r Hin;
    destruct (setter_calls_of_main e _ Hin eq_refl) as [s [Hs Ha]];
    destruct (settled_through_options e s Hs) as (HA & Hf & Hl & Hp & _);
    simpl in Ha; apply holds_some in Ha; congruence.
Qed.

(** ** Failures of the configuration *)

Section Configuration.

Variable e : env.

(** A jump to [on_error] from a state with a live handle, reached
    without a driver call: the handle is released and the run fails. *)
Lemma fatal_with_handle (pre k : M unit) s s1 :
  (forall s0, main_body e s0 = (pre ;; k) s0) ->
  steps (extends (non is_driver)) pre ->
  pre initial_state = (Normal tt, s) ->
  k s = (Goto on_error, s1) ->
  extends (non is_driver) s s1 ->
  live (ewfverify_verification_handle s1) ->
  fst (main e) = EXIT_FAILURE /\
  filter is_driver (trace (snd (main e))) = [] /\
  exists t1 t2 t3 r1 r2,
    trace (snd (main e)) =
    trace s1 ++ t1 ++ Called (verification_handle_close false) r1
             :: t2 ++ Called (verification_handle_free false) r2 :: t3.
Proof.
  intros Hsplit Hpre Hs Hk Hx Hl.
  assert (Hmain : main e = (EXIT_FAILURE, snd (on_error_cleanup e s1))).
  { unfold main. rewrite (run_ext e _ _ _ Hsplit).
    rewrite (run_bind_normal e _ _ _ _ Hs). unfold run. rewrite Hk.
    apply from_on_error_eq. }
  rewrite Hmain. cbn [fst snd]. split; [reflexivity|]. split.
  - pose proof (from_on_error_extends e _ (at_on_error_no_driver e) s1) as Hy.
    rewrite from_on_error_eq in Hy. cbn [snd] in Hy.
    rewrite (filter_extends _ _ _ Hy), (filter_extends _ _ _ Hx).
    rewrite (normal_filter _ _ _ _ Hpre Hs). reflexivity.
  - apply cleanup_releases. exact Hl.
Qed.

Lemma stage_zero_failure s :
  let c := verification_handle_set_zero_chunk_on_error (zero_chunk_on_error (opts s)) in
  ret (extern e c) <> 1 ->
  stage_zero_chunk_on_error e s =
  (Goto on_error,
   log_event (Fprintf stderr ("Unable to set zero on chunk error." +++ nl))
     (after_call e c s)).
Proof.
  cbv zeta. intros Hr. unfold stage_zero_chunk_on_error. unfold bind at 1. unfold read.
  rewrite bind_extcall. apply neqb_true in Hr. rewrite Hr. reflexivity.
Qed.

Lemma main_to_zero_no_driver : steps (extends (non is_driver)) (main_to_zero e).
Proof. frames harmless_non_driver. Qed.

Lemma main_to_size_no_driver : steps (extends (non is_driver)) (main_to_size e).
Proof. frames harmless_non_driver. Qed.

End Configuration.

(** X19: when the zero-on-error policy cannot be installed (lines
    417-427), the program prints that it cannot set it, closes and frees
    the handle, and returns EXIT_FAILURE; no driver is called in the
    whole run, so that no verification runs under another policy than
    the one asked for. *)
Theorem zero_policy_failure_is_fatal (e : env) (s : state) :
  main_to_zero e initial_state = (Normal tt, s) ->
  let c := verification_handle_set_zero_chunk_on_error (zero_chunk_on_error (opts s)) in
  ret (extern e c) <> 1 ->
  fst (main e) = EXIT_FAILURE /\
  filter is_driver (trace (snd (main e))) = [] /\
  exists t0 t1 t2 t3 r1 r2,
    trace (snd (main e)) =
    trace s ++ t0 ++ Called c (ret (extern e c))
      :: Fprintf stderr ("Unable to set zero on chunk error." +++ nl)
      :: t1 ++ Called (verification_handle_close false) r1
      :: t2 ++ Called (verification_handle_free false) r2 :: t3.
Proof.
  intros Hs c Hr.
  set (s1 := log_event (Fprintf stderr ("Unable to set zero on chunk error." +++ nl))
               (after_call e c s)).
  assert (Hk : (stage_zero_chunk_on_error e ;; stage_process_buffer_size e ;;
                stage_log_open e ;; main_from_verify e) s = (Goto on_error, s1)).
  { apply bind_goto. apply stage_zero_failure. exact Hr. }
  assert (Hx : extends (non is_driver) s s1).
  { apply (pre_trans _ (extends_pre _) _ (after_call e c s)).
    - apply extends_after_call; [exact harmless_non_driver | reflexivity].
    - exists [Fprintf stderr ("Unable to set zero on chunk error." +++ nl)].
      split; [apply trace_log_event | reflexivity]. }
  assert (Hl : live (ewfverify_verification_handle s1)).
  { change (live (ewfverify_verification_handle (after_call e c s))).
    apply after_call_live; [discriminate | apply (live_at_zero e s Hs)]. }
  destruct (fatal_with_handle e _ _ s s1 (main_body_at_zero e)
              (main_to_zero_no_driver e) Hs Hk Hx Hl)
    as [Hc [Hd (t1 & t2 & t3 & r1 & r2 & Ht)]].
  split; [exact Hc|]. split; [exact Hd|].
  destruct (tick_trace e c s) as [t0 Ht0].
  exists t0, t1, t2, t3, r1, r2. rewrite Ht. unfold s1.
  rewrite trace_log_event, trace_after_call, Ht0, <- !app_assoc. reflexivity.
Qed.

(** X20: when a [-p] option was given and the process buffer size cannot
    be set (result -1, lines 428-440), the program prints that it cannot
    set it, closes and frees the handle, and returns EXIT_FAILURE; no
    driver is called in the whole run. *)
Theorem process_buffer_size_failure_is_fatal (e : env) (s : state) (size : string) :
  main_to_size e initial_state = (Normal tt, s) ->
  option_process_buffer_size (opts s) = Some size ->
  ret (extern e (verification_handle_set_process_buffer_size size)) = -1 ->
  fst (main e) = EXIT_FAILURE /\
  filter is_driver (trace (snd (main e))) = [] /\
  exists t0 t1 t2 t3 r1 r2,
    trace (snd (main e)) =
    trace s ++ t0 ++ Called (verification_handle_set_process_buffer_size size) (-1)
      :: Fprintf stderr ("Unable to set process buffer size." +++ nl)
      :: t1 ++ Called (verification_handle_close false) r1
      :: t2 ++ Called (verification_handle_free false) r2 :: t3.
Proof.
  intros Hs Hp Hr.
  set (c := verification_handle_set_process_buffer_size size) in *.
  set (s1 := log_event (Fprintf stderr ("Unable to set process buffer size." +++ nl))
               (set_result (-1) (after_call e c s))).
  assert (Hk : (stage_process_buffer_size e ;; stage_log_open e ;; main_from_verify e) s =
               (Goto on_error, s1)).
  { apply bind_goto. rewrite (stage_size_set e s size Hp). cbv zeta. fold c.
    rewrite Hr. reflexivity. }
  assert (Hx : extends (non is_driver) s s1).
  { apply (pre_trans _ (extends_pre _) _ (after_call e c s)).
    - apply extends_after_call; [exact harmless_non_driver | reflexivity].
    - exists [Fprintf stderr ("Unable to set process buffer size." +++ nl)].
      split; reflexivity. }
  assert (Hl : live (ewfverify_verification_handle s1)).
  { change (live (ewfverify_verification_handle (after_call e c s))).
    apply after_call_live; [discriminate | apply (live_at_size e s Hs)]. }
  destruct (fatal_with_handle e _ _ s s1 (main_body_at_size e)
              (main_to_size_no_driver e) Hs Hk Hx Hl)
    as [Hc [Hd (t1 & t2 & t3 & r1 & r2 & Ht)]].
  split; [exact Hc|]. split; [exact Hd|].
  destruct (tick_trace e c s) as [t0 Ht0].
  exists t0, t1, t2, t3, r1, r2. rewrite Ht. unfold s1.
  rewrite trace_log_event. change (trace (set_result ?r ?x)) with (trace x).
  rewrite trace_after_call, Ht0, Hr, <- !app_assoc. reflexivity.
Qed.

(** ** Failures of the glob *)

Section GlobFrames.

Variable e : env.

Lemma tick_glob c : steps (same glob) (tick e c).
Proof.
  apply steps_tick; [apply same_pre|].
  unfold ewfverify_signal_handler. same_frames.
Qed.

Lemma glob_after_call c s :
  glob (after_call e c s) =
  match c with
  | libsystem_glob_initialize => if ret (extern e c) =? 1 then true else glob s
  | libsystem_glob_free _ => if ret (extern e c) =? 1 then false else glob s
  | _ => glob s
  end.
Proof.
  unfold after_call, raw_call. cbn [snd].
  pose proof (tick_glob c s) as H. unfold same in H.
  destruct c; simpl; try exact H;
    try (destruct (ewfverify_verification_handle _); exact H);
    destruct (_ =? 1); simpl; first [exact H | reflexivity].
Qed.

Lemma release_log_handle_unset s :
  log_handle s = false -> release_log_handle e s = (Normal tt, s).
Proof.
  intros H. unfold release_log_handle. unfold bind at 1. unfold read. rewrite H.
  reflexivity.
Qed.

Lemma release_error_glob : steps (same glob) release_error.
Proof. unfold release_error. same_frames. Qed.

Lemma to_initialize_no_create :
  steps (extends (non is_create_or_open)) (main_to_initialize e).
Proof. frames harmless_non_create. Qed.

Lemma at_on_abort_no_create : steps (extends (non is_create_or_open)) (at_on_abort e).
Proof. frames harmless_non_create. Qed.

Lemma at_on_error_no_create : steps (extends (non is_create_or_open)) (at_on_error e).
Proof. frames harmless_non_create. Qed.

Lemma to_initialize_unset : steps (keeps log_handle unset) (main_to_initialize e).
Proof. keeps_frames. Qed.

End GlobFrames.

Section GlobFailure.

Variable e : env.
Hypothesis no_glob : LIBSYSTEM_HAVE_GLOB e = false.

Lemma stage_glob_resolve_failure s :
  ret (extern e libsystem_glob_initialize) = 1 ->
  ret (extern e (libsystem_glob_resolve (remaining e))) <> 1 ->
  stage_glob e s =
  (Goto on_error,
   log_event (Fprintf stderr ("Unable to resolve glob." +++ nl))
     (after_call e (libsystem_glob_resolve (remaining e))
        (after_call e libsystem_glob_initialize s))).
Proof.
  intros H1 H2. unfold stage_glob. rewrite no_glob.
  rewrite bind_extcall. unfold bind at 1.
  apply neqb_false in H1. rewrite H1. unfold skip at 1, pure at 1.
  rewrite bind_extcall. unfold bind at 1. apply neqb_true in H2. rewrite H2. reflexivity.
Qed.

Lemma release_glob_set s :
  glob s = true ->
  release_glob e s = (Normal tt, after_call e (libsystem_glob_free false) s).
Proof.
  intros H. unfold release_glob. rewrite no_glob. unfold bind at 1. unfold read.
  rewrite H. rewrite bind_extcall. reflexivity.
Qed.

(** With a glob but neither handle, [on_error] releases the glob. *)
Lemma cleanup_releases_glob s :
  ewfverify_verification_handle s = None -> log_handle s = false -> glob s = true ->
  exists t1,
    trace (snd (on_error_cleanup e s)) =
    trace s ++ t1 ++ [Called (libsystem_glob_free false)
                        (ret (extern e (libsystem_glob_free false)))].
Proof.
  intros Hn Hl Hg. unfold on_error_cleanup.
  pose proof (falls_eq _ s release_error_falls) as Ea.
  set (sa := snd (release_error s)) in *.
  assert (Na : ewfverify_verification_handle sa = None)
    by (apply (release_error_null s); exact Hn).
  assert (La : log_handle sa = false)
    by (unfold sa; rewrite (release_error_log_handle s); exact Hl).
  assert (Ga : glob sa = true)
    by (unfold sa; rewrite (release_error_glob s); exact Hg).
  rewrite (bind_normal _ _ _ _ _ Ea).
  rewrite (bind_normal _ _ _ _ _ (release_log_handle_unset e sa La)).
  rewrite (bind_normal _ _ _ _ _ (release_verification_handle_null e sa Na)).
  rewrite (release_glob_set sa Ga). cbn [snd].
  destruct (extends_any_trace _ _ (release_error_any s)) as [ta Ta]. fold sa in Ta.
  destruct (tick_trace e (libsystem_glob_free false) sa) as [tb Tb].
  exists (ta ++ tb). rewrite trace_after_call, Tb, Ta, <- !app_assoc. reflexivity.
Qed.

End GlobFailure.

(** X21: in a build without glob support of the system, when the glob
    was initialized and the file arguments cannot be resolved, the
    program prints that it cannot resolve the glob, frees the glob at
    [on_error] and returns EXIT_FAILURE; no handle is created and no
    file is opened. *)
Theorem glob_failure_is_fatal (e : env) (s : state) :
  LIBSYSTEM_HAVE_GLOB e = false ->
  main_through_options e initial_state = (Normal tt, s) ->
  remaining e <> [] ->
  ret (extern e libsystem_glob_initialize) = 1 ->
  ret (extern e (libsystem_glob_resolve (remaining e))) <> 1 ->
  fst (main e) = EXIT_FAILURE /\
  filter is_create_or_open (trace (snd (main e))) = [] /\
  exists t0 t1,
    trace (snd (main e)) =
    t0 ++ Called (libsystem_glob_resolve (remaining e))
            (ret (extern e (libsystem_glob_resolve (remaining e))))
       :: Fprintf stderr ("Unable to resolve glob." +++ nl)
       :: t1 ++ [Called (libsystem_glob_free false)
                   (ret (extern e (libsystem_glob_free false)))].
Proof.
  intros Hg Hs Hrem Hi Hr.
  set (s1 := log_events
               [Did (libsystem_notify_set_verbose (verbose (opts s)));
                Did (libewf_notify_set_verbose (verbose (opts s)));
                Did libewf_notify_set_stream] s).
  set (s2 := after_call e libsystem_glob_initialize s1).
  set (s3 := after_call e (libsystem_glob_resolve (remaining e)) s2).
  set (s4 := log_event (Fprintf stderr ("Unable to resolve glob." +++ nl)) s3).
  assert (Hto : main_to_initialize e initial_state = (Goto on_error, s4)).
  { unfold main_to_initialize. rewrite (bind_normal _ _ _ _ _ Hs).
    unfold main_options_to_initialize.
    assert (Hf : stage_files_check e s = (Normal tt, s)).
    { unfold stage_files_check. destruct (remaining e); [congruence | reflexivity]. }
    rewrite (bind_normal _ _ _ _ _ Hf), (bind_normal _ _ _ _ _ (stage_notify_eq s)).
    apply stage_glob_resolve_failure; assumption. }
  assert (Hmain : main e = (EXIT_FAILURE, snd (on_error_cleanup e s4))).
  { unfold main. rewrite (run_ext e _ _ _ (main_body_at_initialize e)).
    rewrite (run_bind_goto e _ _ _ _ _ Hto). apply from_on_error_eq. }
  assert (Hn : ewfverify_verification_handle s4 = None).
  { pose proof (to_initialize_null e initial_state) as H. rewrite Hto in H.
    apply H. reflexivity. }
  assert (Hl : log_handle s4 = false).
  { pose proof (to_initialize_unset e initial_state) as H. rewrite Hto in H.
    apply H. reflexivity. }
  assert (Hgl : glob s4 = true).
  { change (glob s3 = true). unfold s3, s2. rewrite !glob_after_call, Hi. reflexivity. }
  destruct (cleanup_releases_glob e Hg s4 Hn Hl Hgl) as [t1 Ht].
  rewrite Hmain. cbn [fst snd]. split; [reflexivity|]. split.
  - pose proof (from_on_error_extends e _ (at_on_error_no_create e) s4) as Hy.
    rewrite from_on_error_eq in Hy. cbn [snd] in Hy.
    rewrite (filter_extends _ _ _ Hy).
    pose proof (to_initialize_no_create e initial_state) as Hx.
    rewrite Hto in Hx. apply filter_extends in Hx. exact Hx.
  - exists (trace (snd (tick e (libsystem_glob_resolve (remaining e)) s2))), t1.
    rewrite Ht. unfold s4, s3. rewrite trace_log_event, trace_after_call, <- !app_assoc.
    reflexivity.
Qed.

(** ** Runs without a signal *)

(** As [steps_struct], for runs in which no signal is delivered:
    [silent] closes the goals about [tick]. *)
Ltac quiet_struct HR silent prim :=
  repeat match goal with
    | |- steps _ (pure _) => apply (steps_pure _ HR)
    | |- steps _ (goto _) => apply (steps_goto _ HR)
    | |- steps _ (return_ _) => apply (steps_return _ HR)
    | |- steps _ (read _) => apply (steps_read _ HR)
    | |- steps _ (tick _ _) => silent
    | |- steps _ (bind _ _) => apply (steps_bind _ HR); [ | intro ]
    | |- steps _ (if ?b then _ else _) => destruct b
    | |- steps _ (match ?o with Some _ => _ | None => _ end) => destruct o
    | |- steps _ (match ?l with nil => _ | cons _ _ => _ end) => destruct l
    | |- steps _ _ => prim
    end.

Section Prints.

Variable e : env.
Variable p : event -> bool.
Hypothesis Hp : holds_prints p.

Lemma fprintf_each_prints st texts : steps (extends p) (fprintf_each st texts).
Proof.
  apply fprintf_each_extends. apply forallb_forall. intros ev Hin.
  apply in_map_iff in Hin. destruct Hin as [t [Ht _]]. subst ev. apply (proj1 Hp).
Qed.

Lemma option_case_prints g : steps (extends p) (option_case e g).
Proof.
  unfold option_case.
  destruct (opt g) as [[] [] [] [] [] [] [] []];
    open_stages;
    steps_struct (extends_pre p)
      ltac:(first [ apply fprintf_each_prints
                  | apply extends_log; first [apply (proj1 Hp) | apply (proj2 Hp)]
                  | apply extends_quiet; intro; reflexivity ]).
Qed.

Lemma option_loop_prints gs : steps (extends p) (option_loop e gs).
Proof.
  induction gs as [|g gs IH]; simpl.
  - apply (steps_pure _ (extends_pre p)).
  - apply (steps_bind _ (extends_pre p)); [apply option_case_prints | intro; exact IH].
Qed.

End Prints.

Lemma holds_prints_non_handler_call : holds_prints (non is_handler_call).
Proof. split; intros; reflexivity. Qed.

Section NoSignal.

Variable e : env.
Hypothesis quiet : forall c, signal_during e c = false.

Lemma tick_quiet c s : tick e c s = (Normal tt, s).
Proof. unfold tick. rewrite quiet. reflexivity. Qed.

Lemma steps_tick_quiet R c : preorder R -> steps R (tick e c).
Proof. intros HR s. rewrite tick_quiet. apply (pre_refl _ HR). Qed.

Ltac quiet_calls :=
  open_blocks; open_stages;
  quiet_struct (extends_pre (non is_handler_call))
    ltac:(apply steps_tick_quiet; apply extends_pre)
    ltac:(first [ apply option_loop_prints; exact holds_prints_non_handler_call
                | apply fprintf_each_prints; exact holds_prints_non_handler_call
                | apply extends_log; reflexivity
                | apply extends_raw_call; reflexivity
                | apply extends_quiet; intro; reflexivity ]).

Ltac quiet_flag :=
  open_blocks; open_stages;
  quiet_struct (keeps_pre ewfverify_abort clear)
    ltac:(apply steps_tick_quiet; apply keeps_pre)
    ltac:(first [ apply option_loop_keeps; intros; reflexivity
                | apply usage_keeps; intros; reflexivity
                | field_prim ]).

Lemma main_body_quiet : steps (extends (non is_handler_call)) (main_body e).
Proof. quiet_calls. Qed.

Lemma at_on_abort_quiet : steps (extends (non is_handler_call)) (at_on_abort e).
Proof. quiet_calls. Qed.

Lemma at_on_error_quiet : steps (extends (non is_handler_call)) (at_on_error e).
Proof. quiet_calls. Qed.

Lemma main_body_clear : steps (keeps ewfverify_abort clear) (main_body e).
Proof. quiet_flag. Qed.

Lemma at_on_abort_clear : steps (keeps ewfverify_abort clear) (at_on_abort e).
Proof. quiet_flag. Qed.

Lemma at_on_error_clear : steps (keeps ewfverify_abort clear) (at_on_error e).
Proof. quiet_flag. Qed.

End NoSignal.

Section Aborted.

Variable e : env.

Lemma from_on_abort_aborted s :
  filter is_report (trace s) = [] ->
  In ABORTED_line (trace (snd (from_on_abort e s))) ->
  ewfverify_abort (snd (from_on_abort e s)) <> 0.
Proof.
  intros Hs. rewrite from_on_abort_eq.
  pose proof (on_abort_cleanup_no_report e s) as Hc. apply filter_extends in Hc.
  rewrite Hs in Hc.
  assert (Hno : forall s', filter is_report (trace s') = [] -> ~ In ABORTED_line (trace s')).
  { intros s' Hf Hin.
    assert (Hx : In ABORTED_line (filter is_report (trace s')))
      by (apply filter_In; split; [exact Hin | reflexivity]).
    rewrite Hf in Hx. destruct Hx. }
  destruct report_lines_differ as [D1 [D2 D3]].
  destruct (on_abort_cleanup e s) as [[[]|c|l] sc]; cbn [snd] in Hc;
    try (intros Hin; exfalso; apply (Hno (snd (from_on_error e sc)));
         [rewrite from_on_error_no_report; exact Hc | exact Hin]).
  destruct (neqb (ewfverify_abort sc) 0) eqn:Ea.
  { intros _. apply neqb_true in Ea. exact Ea. }
  destruct (neqb (status sc) _); cbn [snd]; rewrite trace_log_event, in_app_iff;
    intros [Hin | [Hin | []]]; exfalso;
    first [ exact (Hno sc Hc Hin) | apply D1; congruence | apply D2; congruence ].
Qed.

End Aborted.

(** X22: ABORTED is only reported for a run whose abort flag is set, and
    the flag is only set by a signal: in a run in which no signal is
    delivered the flag is clear at the end, the calls of the signal
    handler do not occur, and the report is not ABORTED. *)
Theorem aborted_only_after_a_signal (e : env) :
  (In ABORTED_line (trace (snd (main e))) -> ewfverify_abort (snd (main e)) <> 0) /\
  ((forall c, signal_during e c = false) ->
   ewfverify_abort (snd (main e)) = 0 /\
   filter is_handler_call (trace (snd (main e))) = [] /\
   ~ In ABORTED_line (trace (snd (main e)))).
Proof.
  assert (H1 : In ABORTED_line (trace (snd (main e))) ->
               ewfverify_abort (snd (main e)) <> 0).
  { unfold main, run.
    pose proof (main_body_no_report e initial_state) as Hb.
    apply filter_extends in Hb. simpl in Hb.
    assert (Hno : forall s', filter is_report (trace s') = [] ->
                             ~ In ABORTED_line (trace s')).
    { intros s' Hf Hin.
      assert (Hx : In ABORTED_line (filter is_report (trace s')))
        by (apply filter_In; split; [exact Hin | reflexivity]).
      rewrite Hf in Hx. destruct Hx. }
    destruct (main_body e initial_state) as [[[]|c|[]] sb]; cbn [snd] in *.
    - apply from_on_abort_aborted. exact Hb.
    - intros Hin. exfalso. exact (Hno _ Hb Hin).
    - intros Hin. exfalso. apply (Hno (snd (from_on_error e sb))); [|exact Hin].
      rewrite from_on_error_no_report. exact Hb.
    - apply from_on_abort_aborted. exact Hb. }
  split; [exact H1|]. intros Hq.
  assert (H0 : ewfverify_abort (snd (main e)) = 0).
  { unfold main.
    apply (run_keeps e _ ewfverify_abort clear (at_on_abort_clear e Hq)
             (at_on_error_clear e Hq) _ _ (main_body_clear e Hq)).
    reflexivity. }
  split; [exact H0|]. split.
  - unfold main.
    rewrite (run_filter e is_handler_call (at_on_abort_quiet e Hq)
               (at_on_error_quiet e Hq) _ _ (main_body_quiet e Hq)).
    reflexivity.
  - intros Hin. apply (H1 Hin). exact H0.
Qed.

(** * Sample runs of the further properties *)

Lemma help_prints_usage_and_succeeds_witness :
  ret (extern env_help libsystem_initialize) = 1 /\
  getopt env_help =
    [mk_getopt "q" "" "-q"] ++ mk_getopt "h" "" "-h" :: [mk_getopt "x" "" "-x"] /\
  forallb is_plain_option [mk_getopt "q" "" "-q"] = true /\
  opt (mk_getopt "h" "" "-h") = "h"%char /\
  fst (main env_help) = EXIT_SUCCESS /\
  (exists t, trace (snd (main env_help)) = t ++ usage_events stdout) /\
  filter is_create_or_open (trace (snd (main env_help))) = [] /\
  ewfverify_verification_handle (snd (main env_help)) = None.
Proof.
  do 4 (split; [reflexivity|]).
  exact (help_prints_usage_and_succeeds env_help [mk_getopt "q" "" "-q"]
           [mk_getopt "x" "" "-x"] (mk_getopt "h" "" "-h") eq_refl eq_refl eq_refl eq_refl).
Defined.

Lemma version_prints_copyright_and_succeeds_witness :
  ret (extern env_version libsystem_initialize) = 1 /\
  getopt env_version = [] ++ mk_getopt "V" "" "-V" :: [] /\
  forallb is_plain_option [] = true /\
  opt (mk_getopt "V" "" "-V") = "V"%char /\
  fst (main env_version) = EXIT_SUCCESS /\
  (exists t, trace (snd (main env_version)) = t ++ [Did ewfoutput_copyright_fprint]) /\
  filter is_create_or_open (trace (snd (main env_version))) = [] /\
  ewfverify_verification_handle (snd (main env_version)) = None.
Proof.
  do 4 (split; [reflexivity|]).
  exact (version_prints_copyright_and_succeeds env_version [] [] (mk_getopt "V" "" "-V")
           eq_refl eq_refl eq_refl eq_refl).
Defined.


Lemma startup_failure_is_fatal_witness :
  ret (extern env_startup_fails libsystem_initialize) <> 1 /\
  fst (main env_startup_fails) = EXIT_FAILURE /\
  (exists t,
     trace (snd (main env_startup_fails)) =
     t ++ [Called libsystem_initialize (-1);
           Fprintf stderr ("Unable to initialize system values." +++ nl);
           Did libsystem_notify_print_error_backtrace; Did liberror_error_free]) /\
  filter is_fprintf (trace (snd (main env_startup_fails))) =
    [Fprintf stderr ("Unable to initialize system values." +++ nl)] /\
  filter is_version (trace (snd (main env_startup_fails))) = [] /\
  filter is_create_or_open (trace (snd (main env_startup_fails))) = [] /\
  ewfverify_verification_handle (snd (main env_startup_fails)) = None.
Proof.
  assert (H : ret (extern env_startup_fails libsystem_initialize) <> 1)
    by (vm_compute; discriminate).
  split; [exact H|].
  exact (startup_failure_is_fatal env_startup_fails H).
Defined.

Lemma exit_status_is_binary_witness :
  fst (main env_clean) = EXIT_SUCCESS /\
  exists t,
    trace (snd (main env_clean)) = t ++ [SUCCESS_line] \/
    trace (snd (main env_clean)) = t ++ usage_events stdout \/
    trace (snd (main env_clean)) = t ++ [Did ewfoutput_copyright_fprint].
Proof.
  assert (H : fst (main env_clean) = EXIT_SUCCESS) by (vm_compute; reflexivity).
  split; [exact H|].
  exact (proj2 (exit_status_is_binary env_clean) H).
Defined.

Lemma success_is_never_reported_falsely_witness :
  PROCESS_STATUS_COMPLETED env_clean <> PROCESS_STATUS_FAILED env_clean /\
  In SUCCESS_line (trace (snd (main env_clean))) /\
  fst (main env_clean) = EXIT_SUCCESS /\
  ewfverify_abort (snd (main env_clean)) = 0 /\
  (exists c, filter is_driver (trace (snd (main env_clean))) = [Called c 1]) /\
  In (Called (verification_handle_close true) 0) (trace (snd (main env_clean))) /\
  In (Called (verification_handle_free true) 1) (trace (snd (main env_clean))) /\
  ewfverify_verification_handle (snd (main env_clean)) = None /\
  exists t, trace (snd (main env_clean)) = t ++ [SUCCESS_line].
Proof.
  assert (H1 : PROCESS_STATUS_COMPLETED env_clean <> PROCESS_STATUS_FAILED env_clean)
    by (simpl; lia).
  assert (H2 : In SUCCESS_line (trace (snd (main env_clean))))
    by (vm_compute; pick_member).
  split; [exact H1|]. split; [exact H2|].
  exact (success_is_never_reported_falsely env_clean H1 H2).
Defined.

Lemma last_option_wins_witness :
  main_through_options env_repeated initial_state =
    (Normal tt, snd (main_through_options env_repeated initial_state)) /\
  settled env_repeated (opts (snd (main_through_options env_repeated initial_state))) /\
  option_header_codepage (opts (snd (main_through_options env_repeated initial_state))) =
    Some "windows-1252" /\
  log_filename (opts (snd (main_through_options env_repeated initial_state))) =
    Some "b.log".
Proof.
  assert (H1 : main_through_options env_repeated initial_state =
               (Normal tt, snd (main_through_options env_repeated initial_state)))
    by (vm_compute; reflexivity).
  split; [exact H1|].
  pose proof (proj1 (last_option_wins env_repeated _ H1)) as H.
  split; [exact H|].
  destruct H as (HA & _ & Hl & _). split; [exact HA | exact Hl].
Defined.

Lemma driver_arguments_witness :
  main_to_verify env_logged initial_state =
    (Normal tt, snd (main_to_verify env_logged initial_state)) /\
  (exists r,
     filter is_driver (trace (snd (main env_logged))) =
     [Called (if input_format_is_files env_logged
                   (snd (main_to_verify env_logged initial_state))
              then verification_handle_verify_single_files 0 true
              else verification_handle_verify_input 0 true) r]) /\
  filter is_log_open (trace (snd (main env_logged))) =
    [Called (log_handle_open "verify.log") 1].
Proof.
  assert (H1 : main_to_verify env_logged initial_state =
               (Normal tt, snd (main_to_verify env_logged initial_state)))
    by (vm_compute; reflexivity).
  split; [exact H1|].
  exact (driver_arguments env_logged _ H1).
Defined.

Lemma log_open_failure_is_fatal_witness :
  main_to_log env_log_open_fails initial_state =
    (Normal tt, snd (main_to_log env_log_open_fails initial_state)) /\
  log_filename (opts (snd (main_to_log env_log_open_fails initial_state))) =
    Some "verify.log" /\
  ret (extern env_log_open_fails log_handle_initialize) = 1 /\
  ret (extern env_log_open_fails (log_handle_open "verify.log")) <> 1 /\
  fst (main env_log_open_fails) = EXIT_FAILURE /\
  filter is_driver (trace (snd (main env_log_open_fails))) = [] /\
  exists t0 t1 t2 t3 t4 t5 r1 r2 r3 r4,
    trace (snd (main env_log_open_fails)) =
    trace (snd (main_to_log env_log_open_fails initial_state)) ++ t0
      ++ Fprintf stderr ("Unable to open log file: " +++ "verify.log" +++ "." +++ nl)
      :: t1 ++ Called (log_handle_close false) r1
      :: t2 ++ Called (log_handle_free false) r2
      :: t3 ++ Called (verification_handle_close false) r3
      :: t4 ++ Called (verification_handle_free false) r4 :: t5.
Proof.
  assert (H1 : main_to_log env_log_open_fails initial_state =
               (Normal tt, snd (main_to_log env_log_open_fails initial_state)))
    by (vm_compute; reflexivity).
  assert (H2 : log_filename (opts (snd (main_to_log env_log_open_fails initial_state))) =
               Some "verify.log") by (vm_compute; reflexivity).
  assert (H3 : ret (extern env_log_open_fails log_handle_initialize) = 1)
    by reflexivity.
  assert (H4 : ret (extern env_log_open_fails (log_handle_open "verify.log")) <> 1)
    by (vm_compute; discriminate).
  split; [exact H1|]. split; [exact H2|]. split; [exact H3|]. split; [exact H4|].
  exact (log_open_failure_is_fatal env_log_open_fails _ "verify.log" H1 H2 H3 H4).
Defined.

Lemma handle_is_always_released_witness :
  main_to_initialize env_clean initial_state =
    (Normal tt, snd (main_to_initialize env_clean initial_state)) /\
  ret (extern env_clean (verification_handle_initialize 1 0 0)) = 1 /\
  exists t0 t1 t2 t3 b rc rf,
    trace (snd (main env_clean)) =
    trace (snd (main_to_initialize env_clean initial_state))
      ++ t0 ++ Called (verification_handle_initialize 1 0 0) 1
      :: t1 ++ Called (verification_handle_close b) rc
      :: t2 ++ Called (verification_handle_free b) rf :: t3.
Proof.
  assert (H1 : main_to_initialize env_clean initial_state =
               (Normal tt, snd (main_to_initialize env_clean initial_state)))
    by (vm_compute; reflexivity).
  split; [exact H1|]. split; [reflexivity|].
  exact (handle_is_always_released env_clean _ H1 eq_refl).
Defined.

Lemma handle_creation_failure_is_fatal_witness :
  main_to_initialize env_no_handle initial_state =
    (Normal tt, snd (main_to_initialize env_no_handle initial_state)) /\
  ret (extern env_no_handle (verification_handle_initialize 1 0 0)) <> 1 /\
  fst (main env_no_handle) = EXIT_FAILURE /\
  (exists t0 t1,
     trace (snd (main env_no_handle)) =
     trace (snd (main_to_initialize env_no_handle initial_state))
       ++ t0 ++ Called (verification_handle_initialize 1 0 0) (-1)
       :: Fprintf stderr ("Unable to create verification handle." +++ nl) :: t1) /\
  filter is_handle_use (trace (snd (main env_no_handle))) = [] /\
  ewfverify_verification_handle (snd (main env_no_handle)) = None.
Proof.
  assert (H1 : main_to_initialize env_no_handle initial_state =
               (Normal tt, snd (main_to_initialize env_no_handle initial_state)))
    by (vm_compute; reflexivity).
  assert (H2 : ret (extern env_no_handle (verification_handle_initialize 1 0 0)) <> 1)
    by (vm_compute; discriminate).
  split; [exact H1|]. split; [exact H2|].
  exact (handle_creation_failure_is_fatal env_no_handle _ H1 H2).
Defined.

Lemma segment_files_are_opened_witness :
  main_to_initialize env_no_glob initial_state =
    (Normal tt, snd (main_to_initialize env_no_glob initial_state)) /\
  ret (extern env_no_glob (verification_handle_initialize 1 0 0)) = 1 /\
  filter is_open_input (trace (snd (main env_no_glob))) =
    [Called (verification_handle_open_input ["image.E01"; "image.E02"]) 1] /\
  In (Called (libsystem_glob_resolve ["image.E0*"]) 1)
     (trace (snd (main_to_initialize env_no_glob initial_state))).
Proof.
  assert (H1 : main_to_initialize env_no_glob initial_state =
               (Normal tt, snd (main_to_initialize env_no_glob initial_state)))
    by (vm_compute; reflexivity).
  split; [exact H1|]. split; [reflexivity|].
  destruct (segment_files_are_opened env_no_glob _ H1 eq_refl) as [Ho [_ Hg]].
  split; [exact Ho|]. exact (proj2 (proj2 (Hg eq_refl))).
Defined.

Lemma verbosity_follows_the_option_witness :
  main_through_options env_verbose initial_state =
    (Normal tt, snd (main_through_options env_verbose initial_state)) /\
  remaining env_verbose <> [] /\
  exists t,
    trace (snd (main env_verbose)) =
    trace (snd (main_through_options env_verbose initial_state))
      ++ Did (libsystem_notify_set_verbose 1)
      :: Did (libewf_notify_set_verbose 1)
      :: Did libewf_notify_set_stream :: t.
Proof.
  assert (H1 : main_through_options env_verbose initial_state =
               (Normal tt, snd (main_through_options env_verbose initial_state)))
    by (vm_compute; reflexivity).
  assert (H2 : remaining env_verbose <> []) by (vm_compute; discriminate).
  split; [exact H1|]. split; [exact H2|].
  exact (verbosity_follows_the_option env_verbose _ H1 H2).
Defined.

Lemma log_close_failure_hides_the_result_witness :
  main_to_verify env_log_close_fails initial_state =
    (Normal tt, snd (main_to_verify env_log_close_fails initial_state)) /\
  log_handle (snd (main_to_verify env_log_close_fails initial_state)) = true /\
  ret (extern env_log_close_fails (log_handle_close true)) <> 0 /\
  fst (main env_log_close_fails) = EXIT_FAILURE /\
  filter is_report (trace (snd (main env_log_close_fails))) = [] /\
  filter is_driver (trace (snd (main env_log_close_fails))) =
    [Called (verification_handle_verify_input 1 true) 1] /\
  In (Fprintf stderr ("Unable to close log handle." +++ nl))
     (trace (snd (main env_log_close_fails))).
Proof.
  assert (H1 : main_to_verify env_log_close_fails initial_state =
               (Normal tt, snd (main_to_verify env_log_close_fails initial_state)))
    by (vm_compute; reflexivity).
  assert (H2 : log_handle (snd (main_to_verify env_log_close_fails initial_state)) = true)
    by (vm_compute; reflexivity).
  assert (H3 : ret (extern env_log_close_fails (log_handle_close true)) <> 0)
    by (vm_compute; discriminate).
  split; [exact H1|]. split; [exact H2|]. split; [exact H3|].
  exact (log_close_failure_hides_the_result env_log_close_fails _ H1 H2 H3).
Defined.

Lemma system_glob_builds_never_glob_witness :
  LIBSYSTEM_HAVE_GLOB env_clean = true /\
  filter is_glob_call (trace (snd (main env_clean))) = [] /\
  glob (snd (main env_clean)) = false.
Proof.
  split; [reflexivity|].
  exact (system_glob_builds_never_glob env_clean eq_refl).
Defined.

Lemma string_options_reach_their_setters_witness :
  In (Called (log_handle_open "b.log") 1) (trace (snd (main env_repeated))) /\
  last_optarg "l" (getopt env_repeated) None = Some "b.log".
Proof.
  assert (H : In (Called (log_handle_open "b.log") 1) (trace (snd (main env_repeated))))
    by (vm_compute; pick_member).
  split; [exact H|].
  exact (proj2 (proj2 (proj2 (string_options_reach_their_setters env_repeated))) _ _ H).
Defined.

Lemma zero_policy_failure_is_fatal_witness :
  main_to_zero env_zero_fails initial_state =
    (Normal tt, snd (main_to_zero env_zero_fails initial_state)) /\
  ret (extern env_zero_fails (verification_handle_set_zero_chunk_on_error 1)) <> 1 /\
  fst (main env_zero_fails) = EXIT_FAILURE /\
  filter is_driver (trace (snd (main env_zero_fails))) = [] /\
  exists t0 t1 t2 t3 r1 r2,
    trace (snd (main env_zero_fails)) =
    trace (snd (main_to_zero env_zero_fails initial_state))
      ++ t0 ++ Called (verification_handle_set_zero_chunk_on_error 1) (-1)
      :: Fprintf stderr ("Unable to set zero on chunk error." +++ nl)
      :: t1 ++ Called (verification_handle_close false) r1
      :: t2 ++ Called (verification_handle_free false) r2 :: t3.
Proof.
  assert (H1 : main_to_zero env_zero_fails initial_state =
               (Normal tt, snd (main_to_zero env_zero_fails initial_state)))
    by (vm_compute; reflexivity).
  assert (H2 : ret (extern env_zero_fails
                      (verification_handle_set_zero_chunk_on_error 1)) <> 1)
    by (vm_compute; discriminate).
  split; [exact H1|]. split; [exact H2|].
  exact (zero_policy_failure_is_fatal env_zero_fails _ H1 H2).
Defined.

Lemma process_buffer_size_failure_is_fatal_witness :
  main_to_size env_size_fails initial_state =
    (Normal tt, snd (main_to_size env_size_fails initial_state)) /\
  option_process_buffer_size (opts (snd (main_to_size env_size_fails initial_state))) =
    Some "64" /\
  ret (extern env_size_fails (verification_handle_set_process_buffer_size "64")) = -1 /\
  fst (main env_size_fails) = EXIT_FAILURE /\
  filter is_driver (trace (snd (main env_size_fails))) = [] /\
  exists t0 t1 t2 t3 r1 r2,
    trace (snd (main env_size_fails)) =
    trace (snd (main_to_size env_size_fails initial_state))
      ++ t0 ++ Called (verification_handle_set_process_buffer_size "64") (-1)
      :: Fprintf stderr ("Unable to set process buffer size." +++ nl)
      :: t1 ++ Called (verification_handle_close false) r1
      :: t2 ++ Called (verification_handle_free false) r2 :: t3.
Proof.
  assert (H1 : main_to_size env_size_fails initial_state =
               (Normal tt, snd (main_to_size env_size_fails initial_state)))
    by (vm_compute; reflexivity).
  assert (H2 : option_process_buffer_size
                 (opts (snd (main_to_size env_size_fails initial_state))) = Some "64")
    by (vm_compute; reflexivity).
  split; [exact H1|]. split; [exact H2|]. split; [reflexivity|].
  exact (process_buffer_size_failure_is_fatal env_size_fails _ "64" H1 H2 eq_refl).
Defined.

Lemma glob_failure_is_fatal_witness :
  LIBSYSTEM_HAVE_GLOB env_glob_fails = false /\
  main_through_options env_glob_fails initial_state =
    (Normal tt, snd (main_through_options env_glob_fails initial_state)) /\
  remaining env_glob_fails <> [] /\
  ret (extern env_glob_fails libsystem_glob_initialize) = 1 /\
  ret (extern env_glob_fails (libsystem_glob_resolve (remaining env_glob_fails))) <> 1 /\
  fst (main env_glob_fails) = EXIT_FAILURE /\
  filter is_create_or_open (trace (snd (main env_glob_fails))) = [] /\
  exists t0 t1,
    trace (snd (main env_glob_fails)) =
    t0 ++ Called (libsystem_glob_resolve ["image.E0*"]) (-1)
       :: Fprintf stderr ("Unable to resolve glob." +++ nl)
       :: t1 ++ [Called (libsystem_glob_free false) 1].
Proof.
  assert (H1 : main_through_options env_glob_fails initial_state =
               (Normal tt, snd (main_through_options env_glob_fails initial_state)))
    by (vm_compute; reflexivity).
  assert (H2 : remaining env_glob_fails <> []) by (vm_compute; discriminate).
  assert (H3 : ret (extern env_glob_fails
                      (libsystem_glob_resolve (remaining env_glob_fails))) <> 1)
    by (vm_compute; discriminate).
  split; [reflexivity|]. split; [exact H1|]. split; [exact H2|]. split; [reflexivity|].
  split; [exact H3|].
  exact (glob_failure_is_fatal env_glob_fails _ eq_refl H1 H2 eq_refl H3).
Defined.

Lemma aborted_only_after_a_signal_witness :
  (forall c, signal_during env_clean c = false) /\
  ewfverify_abort (snd (main env_clean)) = 0 /\
  filter is_handler_call (trace (snd (main env_clean))) = [] /\
  ~ In ABORTED_line (trace (snd (main env_clean))).
Proof.
  assert (H : forall c, signal_during env_clean c = false) by (intro c; reflexivity).
  split; [exact H|].
  exact (proj2 (aborted_only_after_a_signal env_clean) H).
Defined.

(** * Unsupported option values in a whole run *)

(** ** Stages that cannot fail in a cooperative run *)

Section CooperativeFalls.

Variable e : env.
Hypothesis Hc : cooperative e.

Lemma falls_call_checked {B} c v (k : Z -> M B) :
  is_degradable c = false -> ret (all_succeed c) = v ->
  falls_through (k v) -> falls_through (bind (extcall e c) k).
Proof.
  intros Hd Hv Hk s. rewrite bind_extcall, (coop_calls e Hc c Hd), Hv. apply Hk.
Qed.

Lemma falls_option_loop : falls_through (option_loop e (getopt e)).
Proof.
  intros s. exists tt. rewrite (option_loop_plain e _ s (coop_options e Hc)). reflexivity.
Qed.

Lemma falls_files_check : falls_through (stage_files_check e).
Proof.
  unfold stage_files_check. pose proof (coop_files e Hc) as H.
  destruct (remaining e); [congruence | apply falls_pure].
Qed.

End CooperativeFalls.

(** Decomposes a statement of a cooperative run along its structure: the
    result of each call is its value of success. *)
Ltac coop_falls e Hc :=
  repeat match goal with
    | |- falls_through (bind (extcall _ ?c) _) =>
        let v := eval cbv in (ret (all_succeed c)) in
        apply (falls_call_checked e Hc c v); [reflexivity | reflexivity | cbv beta]
    | |- falls_through (bind _ _) => apply falls_bind; [ | intro ]
    | |- falls_through (extcall _ _) => apply falls_extcall
    | |- falls_through (option_loop _ _) => apply (falls_option_loop e Hc)
    | |- falls_through (stage_files_check _) => apply (falls_files_check e Hc)
    | |- falls_through (pure _) => apply falls_pure
    | |- falls_through (read _) => apply falls_read
    | |- falls_through (assign _) => apply falls_assign
    | |- falls_through (if ?b then _ else _) =>
        first [ let b' := eval cbv in b in
                match b' with
                | true => change b with true; cbv iota
                | false => change b with false; cbv iota
                end
              | destruct b ]
    | |- falls_through (match ?o with Some _ => _ | None => _ end) => destruct o
    end.



Section CooperativeStages.

Variable e : env.
Hypothesis Hc : cooperative e.

Lemma main_to_initialize_falls : falls_through (main_to_initialize e).
Proof.
  unfold main_to_initialize, main_through_options, main_options_to_initialize,
    stage_options.
  unfold stage_startup, stage_notify, stage_glob, fprintf, do, skip.
  coop_falls e Hc.
Qed.

Lemma attach_and_open_falls :
  falls_through (stage_signal_attach e ;; stage_open_input e).
Proof.
  unfold stage_signal_attach, stage_open_input, print_backtrace_and_free, fprintf, do, skip.
  coop_falls e Hc.
Qed.

Lemma stage_glob_free_falls : falls_through (stage_glob_free e).
Proof. unfold stage_glob_free, fprintf, skip. coop_falls e Hc. Qed.

Lemma main_zero_to_verify_falls : falls_through (main_zero_to_verify e).
Proof.
  unfold main_zero_to_verify, stage_zero_chunk_on_error, stage_process_buffer_size,
    stage_log_open, fprintf, skip.
  coop_falls e Hc.
Qed.

(** *** The abort flag stays clear *)

Lemma main_to_open_clear : steps (keeps ewfverify_abort clear) (main_to_open e).
Proof.
  open_blocks. open_stages.
  quiet_struct (keeps_pre ewfverify_abort clear)
    ltac:(apply (steps_tick_quiet e (coop_quiet e Hc)); apply keeps_pre)
    ltac:(first [ apply option_loop_keeps; intros; reflexivity
                | apply usage_keeps; intros; reflexivity
                | field_prim ]).
Qed.

(** *** The input format stays that of a new handle *)

Hypothesis Hk : format_kept e.

Lemma default_raw_call c :
  (forall a, c = verification_handle_set_format a -> ret (extern e c) <> 1) ->
  (forall b, c <> verification_handle_free b) ->
  steps (keeps ewfverify_verification_handle (default_format e)) (raw_call e c).
Proof.
  intros Hf Hfree s [h [Hh Hi]]. unfold raw_call. cbn [snd].
  change (default_format e
            (ewfverify_verification_handle
               (pointer_effect e c (ret (extern e c)) s))).
  assert (Hon : default_format e (option_map (on_handle e c) (ewfverify_verification_handle s))).
  { rewrite Hh. exists (on_handle e c h). split; [reflexivity|].
    rewrite (Hk c h Hf). exact Hi. }
  assert (Hsame : default_format e (ewfverify_verification_handle s))
    by (exists h; split; assumption).
  destruct c; simpl;
    try (exfalso; eapply Hfree; reflexivity);
    try exact Hon; try exact Hsame;
    destruct (_ =? 1); first [exact Hsame | exists (new_handle e); split; reflexivity].
Qed.

Lemma default_store :
  steps (keeps ewfverify_verification_handle (default_format e))
        (assign (store_process_buffer_size 0)).
Proof.
  intros s [h [Hh Hi]]. unfold assign, store_process_buffer_size. cbn [snd].
  simpl. rewrite Hh. exists (mk_handle (input_format h) 0). split; [reflexivity | exact Hi].
Qed.

Ltac default_frames :=
  open_stages;
  quiet_struct (keeps_pre ewfverify_verification_handle (default_format e))
    ltac:(apply (steps_tick_quiet e (coop_quiet e Hc)); apply keeps_pre)
    ltac:(first [ apply default_raw_call;
                  [ let a := fresh in let H := fresh in intros a H; discriminate H
                  | let b := fresh in let H := fresh in intros b H; discriminate H ]
                | apply default_store
                | apply steps_assign; let s := fresh in let H := fresh in
                  intros s H; exact H ]).

Lemma attach_and_open_default :
  steps (keeps ewfverify_verification_handle (default_format e))
        (stage_signal_attach e ;; stage_open_input e).
Proof. default_frames. Qed.

Lemma stage_glob_free_default :
  steps (keeps ewfverify_verification_handle (default_format e)) (stage_glob_free e).
Proof. default_frames. Qed.

Lemma stage_header_codepage_default :
  steps (keeps ewfverify_verification_handle (default_format e)) (stage_header_codepage e).
Proof. default_frames. Qed.

Lemma main_zero_to_verify_default :
  steps (keeps ewfverify_verification_handle (default_format e)) (main_zero_to_verify e).
Proof. unfold main_zero_to_verify. default_frames. Qed.

End CooperativeStages.

(** ** A cooperative run, stage by stage *)

Lemma in_extends p ev s s' : extends p s s' -> In ev (trace s) -> In ev (trace s').
Proof. intros [new [E _]] H. rewrite E. apply in_or_app. left. exact H. Qed.

Lemma option_loop_warns e g : forall gs s s',
  libc_strings e ->
  option_loop e gs s = (Normal tt, s') ->
  In g gs -> opt g = "d"%char ->
  String.prefix "sha1" (optarg g) = false ->
  String.prefix "sha256" (optarg g) = false ->
  In (Fprintf stderr ("Unsupported digest type." +++ nl)) (trace s').
Proof.
  induction gs as [|g0 gs IH]; intros s s' Hl H Hin Hd H1 H256; [destruct Hin|].
  simpl in H. apply bind_normal_inv in H. destruct H as [[] [sm [Hm H]]].
  destruct Hin as [-> | Hin].
  - rewrite (option_case_unsupported_digest e g s Hl Hd H1 H256) in Hm.
    inversion Hm; subst sm; clear Hm.
    pose proof (option_loop_extends e any_event harmless_any gs
                  (log_event (Fprintf stderr ("Unsupported digest type." +++ nl)) s)) as Hx.
    rewrite H in Hx. apply (in_extends _ _ _ _ Hx).
    rewrite trace_log_event. apply in_or_app. right. left. reflexivity.
  - apply (IH sm s' Hl H Hin Hd H1 H256).
Qed.

Section Stages.

Variable e : env.

Lemma stage_abort_check_passes s :
  ewfverify_abort s = 0 -> stage_abort_check s = (Normal tt, s).
Proof.
  intros H. unfold stage_abort_check, bind, read. rewrite H. reflexivity.
Qed.

Lemma stage_open_check_passes s : result s = 1 -> stage_open_check s = (Normal tt, s).
Proof.
  intros H. unfold stage_open_check, bind, read. rewrite H. reflexivity.
Qed.

Lemma stage_header_codepage_unset s :
  option_header_codepage (opts s) = None -> stage_header_codepage e s = (Normal tt, s).
Proof.
  intros H. unfold stage_header_codepage. unfold bind at 1. unfold read. rewrite H.
  reflexivity.
Qed.

Lemma stage_format_unset s :
  option_format (opts s) = None -> stage_format e s = (Normal tt, s).
Proof.
  intros H. unfold stage_format. unfold bind at 1. unfold read. rewrite H. reflexivity.
Qed.

Lemma stage_glob_free_opts : steps (same opts) (stage_glob_free e).
Proof. same_frames. Qed.

Lemma stage_glob_free_any : steps (extends any_event) (stage_glob_free e).
Proof. frames harmless_any. Qed.

Lemma stage_format_any : steps (extends any_event) (stage_format e).
Proof. frames harmless_any. Qed.

Lemma main_zero_to_verify_any : steps (extends any_event) (main_zero_to_verify e).
Proof. unfold main_zero_to_verify. frames harmless_any. Qed.

Lemma main_after_options_any : steps (extends any_event) (main_after_options e).
Proof. unfold main_after_options, main_options_to_codepage. frames harmless_any. Qed.

Lemma main_to_verify_at_zero s :
  main_to_verify e s = (main_to_zero e ;; main_zero_to_verify e) s.
Proof.
  unfold main_to_verify, main_to_log, main_to_size, main_zero_to_verify. reassociate.
Qed.

(** A run that jumps to [on_error] before line 417 fails, and has
    called no driver. *)
Lemma fails_before_zero s' :
  main_to_zero e initial_state = (Goto on_error, s') ->
  fst (main e) = EXIT_FAILURE /\
  filter is_driver (trace (snd (main e))) = [] /\
  forall ev, In ev (trace s') -> In ev (trace (snd (main e))).
Proof.
  intros H.
  assert (Hmain : main e = from_on_error e s').
  { unfold main. rewrite (run_ext e _ _ _ (main_body_at_zero e)).
    rewrite (run_bind_goto e _ _ _ _ _ H). reflexivity. }
  rewrite Hmain. split; [rewrite from_on_error_eq; reflexivity|]. split.
  - rewrite (filter_extends _ _ _
               (from_on_error_extends e _ (at_on_error_no_driver e) s')).
    pose proof (main_to_zero_no_driver e initial_state) as Hx. rewrite H in Hx.
    apply filter_extends in Hx. exact Hx.
  - intros ev. apply (in_extends any_event).
    apply (from_on_error_extends e _ (at_on_error_any e)).
Qed.

End Stages.

(** ** A cooperative run up to the drivers *)

Section CooperativeRun.

Variable e : env.
Hypothesis Hc : cooperative e.

Let quiet := coop_quiet e Hc.

Lemma main_to_zero_at_codepage s :
  main_to_zero e s =
  (main_to_codepage e ;; stage_header_codepage e ;; stage_format e) s.
Proof. unfold main_to_zero, main_to_codepage, main_open_to_zero. reassociate. Qed.

Lemma cooperative_to_codepage :
  exists s,
    main_to_codepage e initial_state = (Normal tt, s) /\
    settled e (opts s) /\
    (format_kept e -> default_format e (ewfverify_verification_handle s)).
Proof.
  pose proof (falls_eq (main_to_initialize e) initial_state
                (main_to_initialize_falls e Hc)) as H3.
  set (s3 := snd (main_to_initialize e initial_state)) in H3.
  pose proof (stage_handle_initialize_eq e s3) as Hi. cbv zeta in Hi.
  rewrite (coop_calls e Hc (verification_handle_initialize _ _ _) eq_refl) in Hi.
  change (stage_handle_initialize e s3 =
          (Normal tt,
           after_call e (verification_handle_initialize
                           (calculate_md5 (opts s3)) (calculate_sha1 (opts s3))
                           (calculate_sha256 (opts s3))) s3)) in Hi.
  set (si := after_call e _ s3) in Hi.
  pose proof (falls_eq (stage_signal_attach e ;; stage_open_input e) si
                (attach_and_open_falls e Hc)) as Hao.
  set (so := snd ((stage_signal_attach e ;; stage_open_input e) si)) in Hao.
  assert (Ho : main_to_open e initial_state = (Normal tt, so)).
  { unfold main_to_open, main_initialize_to_open.
    rewrite (bind_normal _ _ _ _ _ H3), (bind_normal _ _ _ _ _ Hi). exact Hao. }
  assert (Ha : ewfverify_abort so = 0).
  { pose proof (main_to_open_clear e Hc initial_state) as Hk. rewrite Ho in Hk.
    apply Hk. reflexivity. }
  assert (Hr : result so = 1).
  { rewrite (result_at_open e so Ho).
    rewrite (coop_calls e Hc (verification_handle_open_input _) eq_refl). reflexivity. }
  pose proof (falls_eq (stage_glob_free e) so (stage_glob_free_falls e Hc)) as Hg.
  set (sg := snd (stage_glob_free e so)) in Hg.
  exists sg. split; [|split].
  - unfold main_to_codepage.
    rewrite (bind_normal _ _ _ _ _ Ho),
            (bind_normal _ _ _ _ _ (stage_abort_check_passes so Ha)),
            (bind_normal _ _ _ _ _ (stage_open_check_passes so Hr)).
    exact Hg.
  - pose proof (stage_glob_free_opts e so) as E. unfold same in E. fold sg in E.
    rewrite E. destruct (opts_at_open e so Ho) as [s0 [H0 E0]]. rewrite E0.
    apply settled_through_options. exact H0.
  - intros Hk.
    apply (stage_glob_free_default e Hc Hk so).
    apply (attach_and_open_default e Hc Hk si).
    unfold si. rewrite handle_after_call, (tick_quiet e quiet).
    rewrite (coop_calls e Hc (verification_handle_initialize _ _ _) eq_refl).
    exists (new_handle e). split; reflexivity.
Qed.

End CooperativeRun.

Section CooperativeSetters.

Variable e : env.
Hypothesis Hc : cooperative e.

Let quiet := coop_quiet e Hc.

Lemma warned_log text s : warned (log_event (Fprintf stderr (text +++ nl)) s) text.
Proof.
  unfold warned. rewrite trace_log_event. apply in_or_app. right. left. reflexivity.
Qed.

Lemma warned_extends p text s s' : extends p s s' -> warned s text -> warned s' text.
Proof. unfold warned. apply in_extends. Qed.

(** Lines 373-394 in a cooperative run. *)
Lemma cooperative_header_codepage s :
  settled e (opts s) ->
  let codepage := setter_result e "A" verification_handle_set_header_codepage in
  (codepage = Some (-1) ->
   exists s', stage_header_codepage e s = (Goto on_error, s') /\
              warned s' "Unable to set header codepage.") /\
  (codepage <> Some (-1) ->
   stage_header_codepage e s = (Normal tt, snd (stage_header_codepage e s)) /\
   (codepage = Some 0 ->
    warned (snd (stage_header_codepage e s))
           "Unsupported header codepage defaulting to: ascii.")).
Proof.
  intros (HA & _) codepage. unfold codepage, setter_result. rewrite <- HA.
  destruct (option_header_codepage (opts s)) as [a|] eqn:Eo.
  - pose proof (stage_header_codepage_set e s a Eo) as Heq. cbv zeta in Heq.
    rewrite Heq. cbn [option_map].
    set (r := ret (extern e (verification_handle_set_header_codepage a))).
    split; intros Hr.
    + injection Hr as Hr. rewrite Hr. cbn [Z.eqb Pos.eqb].
      eexists. split; [reflexivity | apply warned_log].
    + destruct (Z.eqb_spec r (-1)) as [E1|E1]; [congruence|].
      destruct (Z.eqb_spec r 0) as [E0|E0]; cbn [snd]; (split; [reflexivity|]).
      * intros _. apply warned_log.
      * intros H0. congruence.
  - rewrite (stage_header_codepage_unset e s Eo). cbn [option_map snd].
    split; [discriminate|]. intros _. split; [reflexivity | discriminate].
Qed.

(** Lines 395-416 in a cooperative run. *)
Lemma cooperative_format s :
  settled e (opts s) ->
  let format := setter_result e "f" verification_handle_set_format in
  (format = Some (-1) ->
   exists s', stage_format e s = (Goto on_error, s') /\ warned s' "Unable to set format.") /\
  (format <> Some (-1) ->
   stage_format e s = (Normal tt, snd (stage_format e s)) /\
   (format = Some 0 ->
    warned (snd (stage_format e s)) "Unsupported input format defaulting to: raw.") /\
   (format_kept e -> format <> Some 1 ->
    default_format e (ewfverify_verification_handle s) ->
    default_format e (ewfverify_verification_handle (snd (stage_format e s))))).
Proof.
  intros (_ & HF & _) format. unfold format, setter_result. rewrite <- HF.
  destruct (option_format (opts s)) as [a|] eqn:Eo.
  - pose proof (stage_format_set e s a Eo) as Heq. cbv zeta in Heq.
    rewrite Heq. cbn [option_map].
    set (c := verification_handle_set_format a).
    set (r := ret (extern e c)).
    split; intros Hr.
    + injection Hr as Hr. rewrite Hr. cbn [Z.eqb Pos.eqb].
      eexists. split; [reflexivity | apply warned_log].
    + assert (Hd : format_kept e -> Some r <> Some 1 ->
                   default_format e (ewfverify_verification_handle s) ->
                   default_format e (ewfverify_verification_handle
                                       (set_result r (after_call e c s)))).
      { intros Hk H1 Hs.
        change (default_format e (ewfverify_verification_handle (after_call e c s))).
        unfold after_call. rewrite (tick_quiet e quiet). cbn [snd].
        apply (default_raw_call e Hk c); [| intros b H; discriminate H | exact Hs].
        intros a' _. fold r. congruence. }
      destruct (Z.eqb_spec r (-1)) as [E1|E1]; [congruence|].
      destruct (Z.eqb_spec r 0) as [E0|E0]; cbn [snd];
        (split; [reflexivity|]); (split; [|exact Hd]).
      * intros _. apply warned_log.
      * intros H0. congruence.
  - rewrite (stage_format_unset e s Eo). cbn [option_map snd].
    split; [discriminate|]. intros _. split; [reflexivity|].
    split; [discriminate|]. intros _ _ H. exact H.
Qed.

(** A cooperative run reaches line 478 unless a setter returns -1. *)
Lemma cooperative_to_verify :
  let codepage := setter_result e "A" verification_handle_set_header_codepage in
  let format := setter_result e "f" verification_handle_set_format in
  codepage <> Some (-1) -> format <> Some (-1) ->
  exists s,
    main_to_verify e initial_state = (Normal tt, s) /\
    (codepage = Some 0 -> warned s "Unsupported header codepage defaulting to: ascii.") /\
    (format = Some 0 -> warned s "Unsupported input format defaulting to: raw.") /\
    (format_kept e -> format <> Some 1 ->
     default_format e (ewfverify_verification_handle s)).
Proof.
  intros codepage format HA HF.
  destruct (cooperative_to_codepage e Hc) as [sg [Hg [Hset Hdef]]].
  destruct (cooperative_header_codepage sg Hset) as [_ Hcp].
  destruct (Hcp HA) as [Ecp Wcp]. clear Hcp.
  set (sc := snd (stage_header_codepage e sg)) in *.
  assert (Hsetc : settled e (opts sc)).
  { pose proof (stage_header_codepage_opts e sg) as E. unfold same in E. fold sc in E.
    rewrite E. exact Hset. }
  destruct (cooperative_format sc Hsetc) as [_ Hfm].
  destruct (Hfm HF) as [Efm [Wfm Dfm]]. clear Hfm.
  set (sf := snd (stage_format e sc)) in *.
  pose proof (falls_eq (main_zero_to_verify e) sf (main_zero_to_verify_falls e Hc)) as Ev.
  set (sv := snd (main_zero_to_verify e sf)) in Ev.
  pose proof (main_zero_to_verify_any e sf) as Xv. fold sv in Xv.
  exists sv. split; [|split; [|split]].
  - rewrite main_to_verify_at_zero.
    rewrite (bind_normal _ _ _ _ _
               (eq_trans (main_to_zero_at_codepage e initial_state)
                  (eq_trans (bind_normal _ _ _ _ _ Hg)
                     (eq_trans (bind_normal _ _ _ _ _ Ecp) Efm)))).
    exact Ev.
  - intros H. apply (warned_extends _ _ _ _ Xv).
    pose proof (stage_format_any e sc) as Xf. fold sf in Xf.
    apply (warned_extends _ _ _ _ Xf). apply Wcp. exact H.
  - intros H. apply (warned_extends _ _ _ _ Xv). apply Wfm. exact H.
  - intros Hk H1.
    apply (main_zero_to_verify_default e Hc Hk sf).
    apply (Dfm Hk H1).
    apply (stage_header_codepage_default e Hc Hk sg).
    apply Hdef. exact Hk.
Qed.

(** A setter that returns -1 ends a cooperative run before line 417. *)
Lemma cooperative_setter_fails :
  let codepage := setter_result e "A" verification_handle_set_header_codepage in
  let format := setter_result e "f" verification_handle_set_format in
  (codepage = Some (-1) ->
   exists s, main_to_zero e initial_state = (Goto on_error, s) /\
             warned s "Unable to set header codepage.") /\
  (codepage <> Some (-1) -> format = Some (-1) ->
   exists s, main_to_zero e initial_state = (Goto on_error, s) /\
             warned s "Unable to set format.").
Proof.
  intros codepage format.
  destruct (cooperative_to_codepage e Hc) as [sg [Hg [Hset _]]].
  destruct (cooperative_header_codepage sg Hset) as [Fcp Hcp].
  split.
  - intros HA. destruct (Fcp HA) as [s' [E W]]. exists s'. split; [|exact W].
    rewrite main_to_zero_at_codepage, (bind_normal _ _ _ _ _ Hg).
    apply bind_goto. exact E.
  - intros HA HF. destruct (Hcp HA) as [Ecp _].
    set (sc := snd (stage_header_codepage e sg)) in *.
    assert (Hsetc : settled e (opts sc)).
    { pose proof (stage_header_codepage_opts e sg) as E. unfold same in E. fold sc in E.
      rewrite E. exact Hset. }
    destruct (cooperative_format sc Hsetc) as [Ffm _].
    destruct (Ffm HF) as [s' [E W]]. exists s'. split; [|exact W].
    rewrite main_to_zero_at_codepage, (bind_normal _ _ _ _ _ Hg),
            (bind_normal _ _ _ _ _ Ecp).
    exact E.
Qed.

End CooperativeSetters.

(** C10: unsupported option values degrade to defaults instead of
    terminating, in every run in which nothing else goes wrong
    ([cooperative]: no signal, file arguments given, no [-h] or [-V] or
    unknown option, every call other than the two setters and the
    drivers succeeds), the string compare macro being the comparison of
    the C library.  A [-d] option whose argument names no known digest
    makes the run print [Unsupported digest type.], and when all [-d]
    options are like that the handle is created for MD5 alone.  Unless
    the setter of the header codepage or of the input format returns
    -1, the run reaches line 478 and calls the driver of the input
    format, once; a setter that returned 0 has made the run print the
    warning of lines 391 and 413, which names the default.  The program
    itself never writes the input format: if the library changes it
    only in a call of the setter that returns 1, the driver is chosen by
    the input format of a newly created handle unless the setter
    returned 1.  A setter that returns -1 makes the run print the error
    and end with EXIT_FAILURE without calling a driver. *)
Theorem unsupported_values_degrade (e : env) :
  libc_strings e -> cooperative e ->
  let codepage := setter_result e "A" verification_handle_set_header_codepage in
  let format := setter_result e "f" verification_handle_set_format in
  let final := snd (main e) in
  (forall g, In g (getopt e) -> opt g = "d"%char ->
     String.prefix "sha1" (optarg g) = false ->
     String.prefix "sha256" (optarg g) = false ->
     warned final "Unsupported digest type.") /\
  ((forall g, In g (getopt e) -> opt g = "d"%char ->
      String.prefix "sha1" (optarg g) = false /\
      String.prefix "sha256" (optarg g) = false) ->
   filter is_initialize (trace final) = [Called (verification_handle_initialize 1 0 0) 1]) /\
  (codepage <> Some (-1) -> format <> Some (-1) ->
   exists s,
     main_to_verify e initial_state = (Normal tt, s) /\
     filter is_driver (trace final) =
     [Called (chosen_driver e s) (ret (extern e (chosen_driver e s)))] /\
     (codepage = Some 0 ->
      warned final "Unsupported header codepage defaulting to: ascii.") /\
     (format = Some 0 -> warned final "Unsupported input format defaulting to: raw.") /\
     (format_kept e -> format <> Some 1 ->
      input_format_is_files e s =
      (input_format (new_handle e) =? VERIFICATION_HANDLE_INPUT_FORMAT_FILES e))) /\
  (codepage = Some (-1) ->
   fst (main e) = EXIT_FAILURE /\
   filter is_driver (trace final) = [] /\
   warned final "Unable to set header codepage.") /\
  (codepage <> Some (-1) -> format = Some (-1) ->
   fst (main e) = EXIT_FAILURE /\
   filter is_driver (trace final) = [] /\
   warned final "Unable to set format.").
Proof.
  intros Hlibc Hc codepage format final.
  pose proof (falls_eq (main_to_initialize e) initial_state
                (main_to_initialize_falls e Hc)) as H3.
  set (s3 := snd (main_to_initialize e initial_state)) in H3.
  split; [|split; [|split; [|split]]].
  - intros g Hin Hd H1 H256.
    pose proof H3 as H. unfold main_to_initialize in H.
    apply bind_normal_inv in H. destruct H as [[] [s0 [H0 _]]].
    pose proof H0 as H. unfold main_through_options in H.
    apply bind_normal_inv in H. destruct H as [[] [sa [_ Hloop]]].
    unfold stage_options in Hloop.
    pose proof (option_loop_warns e g _ _ _ Hlibc Hloop Hin Hd H1 H256) as W.
    unfold final, main. rewrite (run_ext e _ _ _ (main_body_after_options e)).
    rewrite (run_bind_normal e _ _ _ _ H0).
    apply (warned_extends any_event _ s0); [|exact W].
    apply (run_extends e any_event (at_on_abort_any e) (at_on_error_any e)).
    apply main_after_options_any.
  - intros Hall.
    destruct (parsed_at_initialize e s3 H3) as (P1 & P2 & P3 & _).
    assert (H1 : existsb (selects_sha1 e) (getopt e) = false).
    { apply existsb_false. intros g Hin.
      destruct (selects_sha1 e g) eqn:E; [|reflexivity].
      apply (selects_sha1_iff e g Hlibc) in E. destruct E as [Hd Hp].
      destruct (Hall g Hin Hd) as [A _]. congruence. }
    assert (H2 : existsb (selects_sha256 e) (getopt e) = false).
    { apply existsb_false. intros g Hin.
      destruct (selects_sha256 e g) eqn:E; [|reflexivity].
      apply (selects_sha256_iff e g Hlibc) in E. destruct E as [Hd Hp].
      destruct (Hall g Hin Hd) as [_ A]. congruence. }
    rewrite H1 in P2. rewrite H2 in P3. cbn [flag] in P2, P3.
    assert (Hpre : filter is_initialize (trace s3) = []).
    { pose proof (to_initialize_no_initialize e initial_state) as H. fold s3 in H.
      apply filter_extends in H. exact H. }
    unfold final, main. rewrite (run_ext e _ _ _ (main_body_around_initialize e)).
    rewrite (run_bind_normal e _ _ _ _ H3).
    rewrite (run_bind_filter e is_initialize (at_on_abort_no_initialize e)
               (at_on_error_no_initialize e));
      [|apply after_initialize_no_initialize].
    rewrite stage_handle_initialize_calls, Hpre, P1, P2, P3.
    rewrite (coop_calls e Hc (verification_handle_initialize 1 0 0) eq_refl).
    reflexivity.
  - intros HA HF.
    destruct (cooperative_to_verify e Hc HA HF) as [s [Hs [WA [WF D]]]].
    assert (Hx : extends any_event s final).
    { unfold final, main. rewrite (run_ext e _ _ _ (main_body_at_verify e)).
      rewrite (run_bind_normal e _ _ _ _ Hs).
      apply (run_extends e any_event (at_on_abort_any e) (at_on_error_any e)).
      apply main_from_verify_any. }
    exists s. split; [exact Hs|]. split; [|split; [|split]].
    + destruct (driver_calls_of_main e) as [[Hn _] | [s' [Hs' [_ Hd]]]].
      * rewrite Hs in Hn. exfalso. apply Hn. reflexivity.
      * rewrite Hs in Hs'. injection Hs' as <-. exact Hd.
    + intros H. apply (warned_extends _ _ _ _ Hx). apply WA. exact H.
    + intros H. apply (warned_extends _ _ _ _ Hx). apply WF. exact H.
    + intros Hk H1. destruct (D Hk H1) as [h [Hh Hi]].
      unfold input_format_is_files. rewrite Hh, Hi. reflexivity.
  - intros HA.
    destruct (cooperative_setter_fails e Hc) as [F _].
    destruct (F HA) as [s [Hs W]].
    destruct (fails_before_zero e s Hs) as [Hcode [Hnone Hin]].
    split; [exact Hcode|]. split; [exact Hnone|]. apply Hin. exact W.
  - intros HA HF.
    destruct (cooperative_setter_fails e Hc) as [_ F].
    destruct (F HA HF) as [s [Hs W]].
    destruct (fails_before_zero e s Hs) as [Hcode [Hnone Hin]].
    split; [exact Hcode|]. split; [exact Hnone|]. apply Hin. exact W.
Qed.

Lemma unsupported_values_degrade_witness :
  ((libc_strings env_unsupported /\ cooperative env_unsupported) /\
   warned (snd (main env_unsupported)) "Unsupported digest type." /\
   filter is_initialize (trace (snd (main env_unsupported))) =
     [Called (verification_handle_initialize 1 0 0) 1] /\
   filter is_driver (trace (snd (main env_unsupported))) =
     [Called (verification_handle_verify_input 1 false) 1] /\
   warned (snd (main env_unsupported))
          "Unsupported header codepage defaulting to: ascii." /\
   warned (snd (main env_unsupported)) "Unsupported input format defaulting to: raw." /\
   fst (main env_unsupported) = EXIT_SUCCESS) /\
  ((libc_strings env_format_refused /\ cooperative env_format_refused) /\
   fst (main env_format_refused) = EXIT_FAILURE /\
   filter is_driver (trace (snd (main env_format_refused))) = [] /\
   warned (snd (main env_format_refused)) "Unable to set format.").
Proof.
  split.
  - assert (Hl : libc_strings env_unsupported) by (intros s1 s2 n; reflexivity).
    assert (Hc : cooperative env_unsupported).
    { constructor.
      - intros c. reflexivity.
      - discriminate.
      - reflexivity.
      - intros c H. destruct c; first [reflexivity | discriminate H]. }
    assert (HA : setter_result env_unsupported "A" verification_handle_set_header_codepage
                 = Some 0) by (vm_compute; reflexivity).
    assert (HF : setter_result env_unsupported "f" verification_handle_set_format = Some 0)
      by (vm_compute; reflexivity).
    destruct (unsupported_values_degrade env_unsupported Hl Hc) as (D & I & V & _ & _).
    split; [split; assumption|].
    split.
    { apply (D (mk_getopt "d" "md4" "md4")); [left; reflexivity | reflexivity ..]. }
    split.
    { apply I. intros g [<- | [<- | [<- | []]]] Hd;
        first [discriminate Hd | split; reflexivity]. }
    destruct V as [s [Hs [Hd [WA [WF Hfmt]]]]].
    { rewrite HA. discriminate. }
    { rewrite HF. discriminate. }
    split.
    { rewrite Hd.
      assert (E : s = snd (main_to_verify env_unsupported initial_state))
        by (rewrite Hs; reflexivity).
      rewrite E. vm_compute. reflexivity. }
    split; [apply WA; exact HA|]. split; [apply WF; exact HF|].
    vm_compute. reflexivity.
  - assert (Hl : libc_strings env_format_refused) by (intros s1 s2 n; reflexivity).
    assert (Hc : cooperative env_format_refused).
    { constructor.
      - intros c. reflexivity.
      - discriminate.
      - reflexivity.
      - intros c H. destruct c; first [reflexivity | discriminate H]. }
    assert (HA : setter_result env_format_refused "A"
                   verification_handle_set_header_codepage <> Some (-1))
      by (vm_compute; discriminate).
    assert (HF : setter_result env_format_refused "f" verification_handle_set_format
                 = Some (-1)) by (vm_compute; reflexivity).
    destruct (unsupported_values_degrade env_format_refused Hl Hc) as (_ & _ & _ & _ & F).
    split; [split; assumption|]. exact (F HA HF).
Defined.
